(** * Article-generation workflow of the HTML article service

    A shallow embedding of the article service:

    - [service/gpt_formatter_service.py]   (prompt, model call, clean-up)
    - [service/s3_storage_service.py]      (upload, delete, public URL)
    - [repository/base_repository.py]      (create, get_by_id)
    - [schema/article/article_schema.py]   (request validation)
    - [service/article/article_service.py] (the orchestration)
    - [core/exceptions.py]                 (the exception hierarchy)

    Python [str] values are sequences of Unicode code points, [bytes] values
    are sequences of octets.  The three collaborators (language model,
    object store, database) answer through an explicit environment; every
    collaborator call is recorded in a trace, and the bucket and the
    [article.articles] table are explicit state. *)

From Stdlib Require Import NArith ZArith List String Ascii Bool Lia.
From Stdlib Require Import Strings.Byte.
From stdpp Require Import base option list gmap.

Local Set Warnings "-register-all".

Local Open Scope N_scope.

(* ===================================================================== *)
(** ** Python strings *)
(* ===================================================================== *)

Module Py.

(** A [str] is a sequence of code points. *)
Definition str := list N.

(** A [bytes] object. *)
Definition bytes := list byte.

(** Source literals are written as Rocq strings (UTF-8 octets) and decoded
    to code points. *)
Fixpoint utf8_decode (bs : list N) : str :=
  match bs with
  | [] => []
  | b0 :: t0 =>
    if b0 <? 0x80 then b0 :: utf8_decode t0 else
    match t0 with
    | [] => [b0]
    | b1 :: t1 =>
      if b0 <? 0xE0 then ((b0 mod 32) * 64 + b1 mod 64) :: utf8_decode t1 else
      match t1 with
      | [] => [b0; b1]
      | b2 :: t2 =>
        if b0 <? 0xF0
        then ((b0 mod 16) * 4096 + (b1 mod 64) * 64 + b2 mod 64) :: utf8_decode t2
        else
          match t2 with
          | [] => [b0; b1; b2]
          | b3 :: t3 =>
            ((b0 mod 8) * 262144 + (b1 mod 64) * 4096 + (b2 mod 64) * 64 + b3 mod 64)
              :: utf8_decode t3
          end
      end
    end
  end.

Definition u (s : string) : str :=
  utf8_decode (map Byte.to_N (list_byte_of_string s)).

Definition octet (n : N) : byte :=
  match Byte.of_N n with Some b => b | None => x00 end.

(** [cp.encode("utf-8")] for one code point; [None] is UnicodeEncodeError
    (a surrogate, which UTF-8 does not encode). *)
Definition encode_cp (c : N) : option bytes :=
  if c <? 0x80 then Some [octet c]
  else if c <? 0x800 then Some [octet (0xC0 + c / 64); octet (0x80 + c mod 64)]
  else if c <? 0x10000 then
    if (0xD800 <=? c) && (c <=? 0xDFFF) then None
    else Some [octet (0xE0 + c / 4096); octet (0x80 + (c / 64) mod 64);
               octet (0x80 + c mod 64)]
  else if c <? 0x110000 then
    Some [octet (0xF0 + c / 262144); octet (0x80 + (c / 4096) mod 64);
          octet (0x80 + (c / 64) mod 64); octet (0x80 + c mod 64)]
  else None.

(** [s.encode("utf-8")] *)
Fixpoint encode_utf8 (s : str) : option bytes :=
  match s with
  | [] => Some []
  | c :: s' =>
    match encode_cp c, encode_utf8 s' with
    | Some b, Some bs => Some (b ++ bs)
    | _, _ => None
    end
  end.

Definition LF : N := 10.
Definition LT : N := 60.        (* '<' *)
Definition SLASH : N := 47.     (* '/' *)
Definition BACKTICK : N := 96.

(** [Py_UNICODE_ISSPACE]: the code points that [str.strip()] removes and
    that [\s] matches in a [str] pattern. *)
Definition isspace (c : N) : bool :=
  ((0x09 <=? c) && (c <=? 0x0D)) || ((0x1C <=? c) && (c <=? 0x20))
  || (c =? 0x85) || (c =? 0xA0) || (c =? 0x1680)
  || ((0x2000 <=? c) && (c <=? 0x200A))
  || (c =? 0x2028) || (c =? 0x2029) || (c =? 0x202F) || (c =? 0x205F)
  || (c =? 0x3000).

(** [s.lstrip()] *)
Fixpoint lstrip (s : str) : str :=
  match s with
  | [] => []
  | c :: s' => if isspace c then lstrip s' else s
  end.

(** [s.rstrip()] *)
Fixpoint rstrip (s : str) : str :=
  match s with
  | [] => []
  | c :: s' =>
    match rstrip s' with
    | [] => if isspace c then [] else [c]
    | r => c :: r
    end
  end.

(** [s.strip()] *)
Definition strip (s : str) : str := rstrip (lstrip s).

(** [s.rstrip("/")] *)
Fixpoint rstrip_slash (s : str) : str :=
  match s with
  | [] => []
  | c :: s' =>
    match rstrip_slash s' with
    | [] => if c =? SLASH then [] else [c]
    | r => c :: r
    end
  end.

(** [s.startswith(p)] *)
Fixpoint startswith (s p : str) : bool :=
  match p, s with
  | [], _ => true
  | _ :: _, [] => false
  | a :: p', c :: s' => (c =? a) && startswith s' p'
  end.

(** [s.split("\n")]: never empty. *)
Fixpoint split_lines (s : str) : list str :=
  match s with
  | [] => [[]]
  | c :: s' =>
    if c =? LF then [] :: split_lines s'
    else match split_lines s' with
         | [] => [[c]]
         | l :: ls => (c :: l) :: ls
         end
  end.

(** ["\n".join(lines)] *)
Fixpoint join_lines (ls : list str) : str :=
  match ls with
  | [] => []
  | [l] => l
  | l :: ls' => l ++ LF :: join_lines ls'
  end.

(** Truthiness of a [str]. *)
Definition truthy (s : str) : bool :=
  match s with [] => false | _ => true end.

(** Truthiness of an [Optional[str]]. *)
Definition truthy_opt (o : option str) : bool :=
  match o with Some s => truthy s | None => false end.

(** *** The [re] patterns the service uses

    A matcher takes the text at the current position and returns what is
    left after the match.  All three patterns are a literal followed by
    greedy, optional parts, so the first (longest) attempt always succeeds
    and the engine never backtracks. *)
Definition matcher := str -> option str.

(** A literal, compared exactly. *)
Fixpoint lit (p : str) : matcher := fun s =>
  match p with
  | [] => Some s
  | a :: p' =>
    match s with
    | c :: s' => if c =? a then lit p' s' else None
    | [] => None
    end
  end.

(** One literal character under [re.IGNORECASE]: the subject character is
    lower-cased and compared.  Only the ASCII capitals lower-case to an
    ASCII letter that occurs in the pattern below (h, t, m, l). *)
Definition tolower_ascii (c : N) : N :=
  if (65 <=? c) && (c <=? 90) then c + 32 else c.

Fixpoint lit_ignorecase (p : str) : matcher := fun s =>
  match p with
  | [] => Some s
  | a :: p' =>
    match s with
    | c :: s' => if tolower_ascii c =? a then lit_ignorecase p' s' else None
    | [] => None
    end
  end.

(** [\s*], greedy. *)
Fixpoint spaces : matcher := fun s =>
  match s with
  | c :: s' => if isspace c then spaces s' else Some s
  | [] => Some []
  end.

(** [\n?], greedy. *)
Definition opt_newline : matcher := fun s =>
  match s with
  | c :: s' => if c =? LF then Some s' else Some s
  | [] => Some []
  end.

(** [\n*], greedy (the tail of [\n{3,}]). *)
Fixpoint newlines : matcher := fun s =>
  match s with
  | c :: s' => if c =? LF then newlines s' else Some s
  | [] => Some []
  end.

(** Concatenation of patterns. *)
Definition seq (m1 m2 : matcher) : matcher := fun s =>
  match m1 s with
  | Some r => m2 r
  | None => None
  end.

(** [re.sub(pattern, repl, s)] for a pattern that matches no empty string:
    scan from the left; where the pattern matches, emit [repl] and resume
    after the match; elsewhere copy one character.  [skip] counts the
    characters of the current match that remain to be passed over. *)
Fixpoint sub_from (m : matcher) (repl : str) (skip : nat) (s : str) : str :=
  match s with
  | [] => []
  | c :: s' =>
    match skip with
    | S k => sub_from m repl k s'
    | O =>
      match m s with
      | Some r =>
        match (length s - length r)%nat with
        | S k => repl ++ sub_from m repl k s'
        | O => c :: sub_from m repl O s'
        end
      | None => c :: sub_from m repl O s'
      end
    end
  end.

Definition re_sub (m : matcher) (repl s : str) : str := sub_from m repl O s.

End Py.

Export Py.

(* ===================================================================== *)
(** ** core/exceptions.py *)
(* ===================================================================== *)

Module Exceptions.

(** The classes of [core/exceptions.py]; [Foreign] is any exception class
    that the application does not declare (raised by a library). *)
Inductive exc_class :=
| AppException
| NotFoundError
| ArticleNotFoundError
| ValidationError
| ExternalServiceError
| S3UploadError
| GPTFormattingError
| LimitExceededError
| Foreign (name : str).

(** An exception object: its class, [str(exc)], the [code] attribute of an
    [AppException], and [__context__], which Python sets to the exception
    being handled when a new one is raised inside an [except] block. *)
Inductive exception := Exc {
  exc_class_of : exc_class;
  exc_message : str;
  exc_code : option str;
  exc_context : option exception
}.

(** [issubclass(c, AppException)] *)
Definition is_app_class (c : exc_class) : bool :=
  match c with Foreign _ => false | _ => true end.

(** [ExternalServiceError.__init__(service, message)] for the subclass
    [cls]. *)
Definition new_ExternalServiceError (cls : exc_class) (service message : str)
  : exception :=
  Exc cls (u "Ошибка " ++ service ++ u ": " ++ message)
      (Some (u "EXTERNAL_SERVICE_ERROR")) None.

(** [S3UploadError(message)] *)
Definition new_S3UploadError (message : str) : exception :=
  new_ExternalServiceError S3UploadError (u "S3/MinIO") message.

(** [GPTFormattingError(message)] *)
Definition new_GPTFormattingError (message : str) : exception :=
  new_ExternalServiceError GPTFormattingError (u "OpenAI GPT") message.

(** An exception raised by a library. *)
Definition foreign (name text : str) : exception :=
  Exc (Foreign name) text None None.

(** [raise e] inside [except ... as cause:]. *)
Definition with_context (e cause : exception) : exception :=
  Exc (exc_class_of e) (exc_message e) (exc_code e) (Some cause).

End Exceptions.

Export Exceptions.

(* ===================================================================== *)
(** ** service/gpt_formatter_service.py: cleaning the model's answer *)
(* ===================================================================== *)

Module Clean.

(** [r"```html\s*\n?"] with [re.IGNORECASE] *)
Definition fence_html : matcher :=
  seq (lit_ignorecase (u "```html")) (seq spaces opt_newline).

(** [r"```\s*\n?"] *)
Definition fence : matcher :=
  seq (lit (u "```")) (seq spaces opt_newline).

(** [r"\n{3,}"] *)
Definition newlines3 : matcher :=
  seq (lit [LF; LF; LF]) newlines.

(** The two [re.sub] calls that remove the markdown fences. *)
Definition strip_fences (html : str) : str :=
  re_sub fence [] (re_sub fence_html [] html).

(** One iteration of the [for line in lines] loop; the state is
    [(started, clean_lines)]. *)
Definition clean_step (st : bool * list str) (line : str) : bool * list str :=
  let '(started, clean_lines) := st in
  let stripped := strip line in
  if negb started then
    if negb (truthy stripped) then (started, clean_lines)
    else if startswith stripped [LT] || started
         then (true, clean_lines ++ [line])
         else (started, clean_lines)
  else (started, clean_lines ++ [line]).

(** [GPTFormatterService._clean_gpt_artifacts] *)
Definition _clean_gpt_artifacts (html : str) : str :=
  let html := re_sub fence_html [] html in
  let html := re_sub fence [] html in
  let lines := split_lines html in
  let '(_, clean_lines) := fold_left clean_step lines (false, []) in
  let html := join_lines clean_lines in
  let html := re_sub newlines3 [LF; LF] html in
  strip html.

End Clean.

Export Clean.

(* ===================================================================== *)
(** ** model/enums.py, model/article_model.py, schema/article_schema.py *)
(* ===================================================================== *)

Module Model.

Inductive ArticleTypeEnum := VACANCY | ASSESSMENT | EMAIL | TEST_RESULTS | CUSTOM.

Inductive ContentModeEnum := FORMATTED | RAW.

Inductive FormatTypeEnum := HTML.

(** [ArticleTypeEnum.value] *)
Definition article_type_value (t : ArticleTypeEnum) : str :=
  match t with
  | VACANCY => u "vacancy"
  | ASSESSMENT => u "assessment"
  | EMAIL => u "email"
  | TEST_RESULTS => u "test_results"
  | CUSTOM => u "custom"
  end.

(** [ContentModeEnum.value] *)
Definition content_mode_value (m : ContentModeEnum) : str :=
  match m with
  | FORMATTED => u "formatted"
  | RAW => u "raw"
  end.

(** [FormatTypeEnum.value] *)
Definition format_type_value (f : FormatTypeEnum) : str :=
  match f with HTML => u "html" end.

(** [HtmlGenerateSchema]: the request body. *)
Record HtmlGenerateSchema := {
  article_type : ArticleTypeEnum;
  content_mode : ContentModeEnum;
  html_content : option str;
  raw_text : option str;
  formatting_rules : option str;
  title : str;
  lang : str;
  source_entity_id : option Z
}.

(** A row of [article.articles] ([BaseModel] mixin and [ArticleModel]). *)
Record ArticleModel := {
  id : Z;
  created_at : Z;
  updated_at : Z;
  a_title : str;
  a_article_type : ArticleTypeEnum;
  a_content_mode : ContentModeEnum;
  a_format_type : FormatTypeEnum;
  s3_key : str;
  public_url : str;
  a_source_entity_id : option Z;
  a_lang : str
}.

(** [ArticleResponseSchema] *)
Record ArticleResponseSchema := {
  r_id : Z;
  r_public_url : str;
  r_article_type : str;
  r_format_type : str;
  r_created_at : Z
}.

End Model.

Export Model.

(* ===================================================================== *)
(** ** The collaborators: state, environment, trace *)
(* ===================================================================== *)

Module World.

(** The bucket [S3_BUCKET_NAME] (key to body and content type), the table
    [article.articles] by primary key as the request's session sees it,
    and the next value of the [id] sequence. *)
Record world := {
  bucket : gmap str (bytes * str);
  articles : gmap Z ArticleModel;
  articles_id_seq : Z
}.

(** An error a collaborator's client library raises: class name and
    [str(exc)]. *)
Record fault := { fault_class : str; fault_text : str }.

Definition raise_fault (f : fault) : exception :=
  foreign (fault_class f) (fault_text f).

(** The keyword arguments of [ArticleRepository.create]. *)
Record article_kwargs := {
  k_title : str;
  k_article_type : ArticleTypeEnum;
  k_content_mode : ContentModeEnum;
  k_format_type : FormatTypeEnum;
  k_s3_key : str;
  k_public_url : str;
  k_source_entity_id : option Z;
  k_lang : str
}.

(** What the outside world answers during one request.  The language
    model yields [response.choices[0].message.content], or the call (or
    reading the response) raises; [None] for a fault means that the call
    went through. *)
Record env := {
  chat_completions_create : str -> str -> option str -> fault + option str;
  put_object_fault : str -> str -> bytes -> str -> option fault;
  delete_object_fault : str -> str -> option fault;
  flush_fault : article_kwargs -> option fault;
  refresh_fault : Z -> option fault;
  select_fault : Z -> option fault;
  commit_fault : option fault;
  urandom16 : N;
  utcnow : nat -> Z
}.

(** One collaborator call and how it ended. *)
Inductive event :=
| ChatCompletion (model system : str) (user : option str)
                 (answer : fault + option str)
| PutObject (bucket_name key : str) (body : bytes) (content_type : str)
            (failed : option fault)
| DeleteObject (bucket_name key : str) (failed : option fault)
| Flush (row : article_kwargs) (failed : option exception)
| Refresh (row_id : Z) (failed : option fault)
| SelectById (row_id : Z) (failed : option fault)
| Commit (failed : option fault)
| Rollback.

Definition trace := list event.

Definition is_chat (ev : event) : bool :=
  match ev with ChatCompletion _ _ _ _ => true | _ => false end.
Definition is_put (ev : event) : bool :=
  match ev with PutObject _ _ _ _ _ => true | _ => false end.
Definition is_delete (ev : event) : bool :=
  match ev with DeleteObject _ _ _ => true | _ => false end.
Definition is_db (ev : event) : bool :=
  match ev with
  | Flush _ _ | Refresh _ _ | SelectById _ _ | Commit _ | Rollback => true
  | _ => false
  end.

(** The outcome of a Python call: a value or a raised exception. *)
Inductive result (A : Type) :=
| Ok (a : A)
| Raise (e : exception).
Arguments Ok {A} a.
Arguments Raise {A} e.

(** A computation of the service: it runs in a state of the collaborators
    and yields an outcome, the new state and the calls it made.  State
    changes made before an exception is raised persist. *)
Definition M (A : Type) : Type := world -> result A * world * trace.

Definition ret {A} (a : A) : M A := fun w => (Ok a, w, []).

Definition raise {A} (e : exception) : M A := fun w => (Raise e, w, []).

Definition bind {A B} (m : M A) (k : A -> M B) : M B := fun w =>
  match m w with
  | (Ok a, w1, t1) => let '(r, w2, t2) := k a w1 in (r, w2, t1 ++ t2)
  | (Raise e, w1, t1) => (Raise e, w1, t1)
  end.

(** [try: m  except Exception as exc: h exc]; every exception of this
    model is an instance of [Exception] (an error of a collaborator's
    client library or one the application raises). *)
Definition try_except {A} (m : M A) (h : exception -> M A) : M A := fun w =>
  match m w with
  | (Raise e, w1, t1) => let '(r, w2, t2) := h e w1 in (r, w2, t1 ++ t2)
  | done => done
  end.

(** No call of the kind [p] was made. *)
Definition never (p : event -> bool) (t : trace) : Prop :=
  Forall (fun ev => p ev = false) t.

Definition outcome {A} (x : result A * world * trace) : result A := x.1.1.
Definition final {A} (x : result A * world * trace) : world := x.1.2.
Definition calls {A} (x : result A * world * trace) : trace := x.2.

End World.

Export World.

Notation "x <- m ;; k" := (bind m (fun x => k))
  (at level 100, m at next level, right associativity).
Notation "m ;;; k" := (bind m (fun _ => k))
  (at level 100, right associativity).

(* ===================================================================== *)
(** ** [uuid.uuid4().hex] *)
(* ===================================================================== *)

Module Uuid.

(** [uuid.uuid4()]: sixteen octets from [os.urandom] read as an integer,
    with the variant and version bits forced. *)
Definition uuid4 (entropy : N) : N :=
  let int := entropy mod 2 ^ 128 in
  let int := N.ldiff int (N.shiftl 0xc000 48) in
  let int := N.lor int (N.shiftl 0x8000 48) in
  let int := N.ldiff int (N.shiftl 0xf000 64) in
  N.lor int (N.shiftl 4 76).

Definition hex_digit (d : N) : N := if d <? 10 then 48 + d else 87 + d.

Fixpoint hex_digits (fuel : nat) (n : N) (acc : str) : str :=
  match fuel with
  | O => acc
  | S f =>
    if n =? 0 then acc
    else hex_digits f (n / 16) (hex_digit (n mod 16) :: acc)
  end.

(** ['%x' % n] *)
Definition format_x (n : N) : str :=
  if n =? 0 then [48] else hex_digits (N.to_nat (N.size n)) n [].

(** ['%032x' % n], the [hex] attribute of a UUID. *)
Definition hex (n : N) : str :=
  let s := format_x n in replicate (32 - length s) 48 ++ s.

(** A character of [0-9a-f]. *)
Definition is_lower_hex (c : N) : bool :=
  ((48 <=? c) && (c <=? 57)) || ((97 <=? c) && (c <=? 102)).

(** Reading a string of hexadecimal digits back, [int(s, 16)]. *)
Definition digit_value (c : N) : N := if c <? 58 then c - 48 else c - 87.

Definition unhex_from (v : N) (s : str) : N :=
  fold_left (fun acc c => 16 * acc + digit_value c) s v.

Definition unhex (s : str) : N := unhex_from 0 s.

End Uuid.

(* ===================================================================== *)
(** ** The services *)
(* ===================================================================== *)

(** [core/config.py]: the settings the services read. *)
Record Configs := {
  S3_ENDPOINT : str;
  S3_BUCKET_NAME : str;
  S3_PUBLIC_URL : str;
  OPENAI_MODEL : str
}.

Definition nl : str := [LF].

(** [DEFAULT_SYSTEM_PROMPT] *)
Definition DEFAULT_SYSTEM_PROMPT : str :=
  u "Ты — специалист по вёрстке HTML.
Преобразуй полученный текст в чистый, семантический HTML.

Правила:
- Используй теги: <h3>, <h4>, <p>, <ul>, <ol>, <li>, <strong>, <em>, <blockquote>, <hr>
- НЕ добавляй <!DOCTYPE>, <html>, <head>, <body> — только содержимое для <body>
- НЕ используй inline стили и атрибуты class
- Структурируй текст логически: заголовки, параграфы, списки
- Сохрани весь смысл и содержание исходного текста
- Верни ТОЛЬКО HTML без пояснений и markdown-блоков".

Section Service.

(** The settings of the deployment and the rendering of
    [templates/base.html] (not part of the sources) with [title],
    [body_content] and [lang]. *)
Variable configs : Configs.
Variable base_html : str -> option str -> str -> str.

(** What the collaborators answer during the request. *)
Variable E : env.

(** *** service/gpt_formatter_service.py *)

(** [await self._client.chat.completions.create(...)] *)
Definition chat_call (system_prompt : str) (user : option str)
  : M (option str) := fun w =>
  let answer := chat_completions_create E (OPENAI_MODEL configs) system_prompt user in
  let ev := ChatCompletion (OPENAI_MODEL configs) system_prompt user answer in
  match answer with
  | inl f => (Raise (raise_fault f), w, [ev])
  | inr content => (Ok content, w, [ev])
  end.

(** The system prompt [format_text] sends. *)
Definition system_prompt_for (formatting_rules : option str) (lang : str) : str :=
  let system_prompt :=
    match formatting_rules with
    | Some rules => if truthy rules then rules else DEFAULT_SYSTEM_PROMPT
    | None => DEFAULT_SYSTEM_PROMPT
    end in
  if decide (lang = u "en")
  then system_prompt ++ nl ++ nl ++ u "Отвечай на английском языке."
  else system_prompt.

(** [GPTFormatterService.format_text] *)
Definition format_text (raw_text formatting_rules : option str) (lang : str)
  : M str :=
  let system_prompt := system_prompt_for formatting_rules lang in
  try_except
    (content <- chat_call system_prompt raw_text ;;
     let html_content := match content with Some c => c | None => [] end in
     let html_content := _clean_gpt_artifacts html_content in
     if negb (truthy (strip html_content))
     then raise (new_GPTFormattingError (u "GPT вернул пустой контент"))
     else
       (* the log line evaluates len(raw_text) *)
       match raw_text with
       | Some _ => ret html_content
       | None => raise (foreign (u "TypeError")
                                (u "object of type 'NoneType' has no len()"))
       end)
    (fun exc =>
       match exc_class_of exc with
       | GPTFormattingError => raise exc
       | _ => raise (with_context
                       (new_GPTFormattingError
                          (u "Не удалось отформатировать текст: " ++ exc_message exc))
                       exc)
       end).

(** *** service/s3_storage_service.py *)

(** [S3StorageService.get_public_url] *)
Definition get_public_url (key : str) : str :=
  if truthy (S3_PUBLIC_URL configs)
  then rstrip_slash (S3_PUBLIC_URL configs) ++ u "/" ++ key
  else rstrip_slash (S3_ENDPOINT configs) ++ u "/" ++ S3_BUCKET_NAME configs
         ++ u "/" ++ key.

(** [await client.put_object(Bucket=..., Key=..., Body=..., ContentType=...)] *)
Definition put_object (key : str) (body : bytes) (content_type : str)
  : M unit := fun w =>
  let failed := put_object_fault E (S3_BUCKET_NAME configs) key body content_type in
  let ev := PutObject (S3_BUCKET_NAME configs) key body content_type failed in
  match failed with
  | Some f => (Raise (raise_fault f), w, [ev])
  | None =>
    (Ok tt,
     {| bucket := <[key := (body, content_type)]> (bucket w);
        articles := articles w;
        articles_id_seq := articles_id_seq w |},
     [ev])
  end.

(** [await client.delete_object(Bucket=..., Key=...)] *)
Definition delete_object (key : str) : M unit := fun w =>
  let failed := delete_object_fault E (S3_BUCKET_NAME configs) key in
  let ev := DeleteObject (S3_BUCKET_NAME configs) key failed in
  match failed with
  | Some f => (Raise (raise_fault f), w, [ev])
  | None =>
    (Ok tt,
     {| bucket := delete key (bucket w);
        articles := articles w;
        articles_id_seq := articles_id_seq w |},
     [ev])
  end.

(** [S3StorageService.upload_file] *)
Definition upload_file (key : str) (content : bytes) (content_type : str)
  : M str :=
  try_except
    (put_object key content content_type ;;;
     ret (get_public_url key))
    (fun exc =>
       raise (with_context
                (new_S3UploadError
                   (u "Не удалось загрузить файл '" ++ key ++ u "': "
                      ++ exc_message exc))
                exc)).

(** [S3StorageService.delete_file] *)
Definition delete_file (key : str) : M bool :=
  try_except
    (delete_object key ;;; ret true)
    (fun _ => ret false).

(** *** repository/base_repository.py on [ArticleModel] *)

(** The unique constraint on [s3_key]. *)
Definition s3_key_taken (key : str) (table : gmap Z ArticleModel) : bool :=
  existsb (fun kv => bool_decide (s3_key kv.2 = key)) (map_to_list table).

(** The row an INSERT writes: the next value of the sequence and the
    column defaults ([created_at], [updated_at]) next to the given fields. *)
Definition new_row (kw : article_kwargs) (w : world) : ArticleModel :=
  {| id := articles_id_seq w;
     created_at := utcnow E 0;
     updated_at := utcnow E 1;
     a_title := k_title kw;
     a_article_type := k_article_type kw;
     a_content_mode := k_content_mode kw;
     a_format_type := k_format_type kw;
     s3_key := k_s3_key kw;
     public_url := k_public_url kw;
     a_source_entity_id := k_source_entity_id kw;
     a_lang := k_lang kw |}.

Definition insert_row (kw : article_kwargs) (w : world) : world :=
  {| bucket := bucket w;
     articles := <[articles_id_seq w := new_row kw w]> (articles w);
     articles_id_seq := (articles_id_seq w + 1)%Z |}.

Definition integrity_error : exception :=
  foreign (u "IntegrityError") (u "duplicate key value violates unique constraint").

(** [session.add(instance); await session.flush()]: the INSERT.  The
    primary key and the unique [s3_key] are enforced. *)
Definition flush (kw : article_kwargs) : M Z := fun w =>
  match flush_fault E kw with
  | Some f => (Raise (raise_fault f), w, [Flush kw (Some (raise_fault f))])
  | None =>
    if s3_key_taken (k_s3_key kw) (articles w)
       || bool_decide (is_Some (articles w !! articles_id_seq w))
    then (Raise integrity_error, w, [Flush kw (Some integrity_error)])
    else (Ok (articles_id_seq w), insert_row kw w, [Flush kw None])
  end.

(** [await session.refresh(instance)]: the row is read back. *)
Definition refresh (row_id : Z) : M ArticleModel := fun w =>
  match refresh_fault E row_id with
  | Some f => (Raise (raise_fault f), w, [Refresh row_id (Some f)])
  | None =>
    match articles w !! row_id with
    | Some row => (Ok row, w, [Refresh row_id None])
    | None =>
      (Raise (foreign (u "InvalidRequestError") (u "Could not refresh instance")),
       w, [Refresh row_id None])
    end
  end.

(** [BaseRepository.create] *)
Definition create (kw : article_kwargs) : M ArticleModel :=
  row_id <- flush kw ;;
  refresh row_id.

(** [BaseRepository.get_by_id] *)
Definition get_by_id (row_id : Z) : M (option ArticleModel) := fun w =>
  match select_fault E row_id with
  | Some f => (Raise (raise_fault f), w, [SelectById row_id (Some f)])
  | None => (Ok (articles w !! row_id), w, [SelectById row_id None])
  end.

(** *** service/article/article_service.py *)

(** [ArticleService._wrap_in_template] *)
Definition _wrap_in_template (title : str) (body_content : option str)
                             (lang : str) : str :=
  base_html title body_content lang.

(** The key under which [generate_html] stores the page. *)
Definition make_s3_key (t : ArticleTypeEnum) (file_id : str) : str :=
  u "html/" ++ article_type_value t ++ u "/" ++ file_id ++ u ".html".

(** [full_html.encode("utf-8")]; the text of the error is shortened. *)
Definition encode (s : str) : M bytes :=
  match encode_utf8 s with
  | Some b => ret b
  | None => raise (foreign (u "UnicodeEncodeError")
                           (u "'utf-8' codec can't encode character: surrogates not allowed"))
  end.

(** [ArticleService.generate_html] *)
Definition generate_html (data : HtmlGenerateSchema) : M ArticleResponseSchema :=
  html_body <-
    match content_mode data with
    | FORMATTED => ret (html_content data)
    | RAW =>
      body <- format_text (raw_text data) (formatting_rules data) (lang data) ;;
      ret (Some body)
    end ;;
  let full_html := _wrap_in_template (title data) html_body (lang data) in
  let file_id := Uuid.hex (Uuid.uuid4 (urandom16 E)) in
  let key := make_s3_key (article_type data) file_id in
  html_bytes <- encode full_html ;;
  url <- upload_file key html_bytes (u "text/html; charset=utf-8") ;;
  article <- create {| k_title := title data;
                       k_article_type := article_type data;
                       k_content_mode := content_mode data;
                       k_format_type := HTML;
                       k_s3_key := key;
                       k_public_url := url;
                       k_source_entity_id := source_entity_id data;
                       k_lang := lang data |} ;;
  ret {| r_id := id article;
         r_public_url := public_url article;
         r_article_type := article_type_value (a_article_type article);
         r_format_type := format_type_value (a_format_type article);
         r_created_at := created_at article |}.

(** [ArticleService.get_article] *)
Definition get_article (article_id : Z) : M (option ArticleModel) :=
  get_by_id article_id.

(** *** schema/article/article_schema.py *)

(** [HtmlGenerateSchema.validate_content_fields] *)
Definition validate_content_fields (data : HtmlGenerateSchema)
  : result HtmlGenerateSchema :=
  match content_mode data with
  | FORMATTED =>
    if negb (truthy_opt (html_content data))
    then Raise (foreign (u "ValueError")
                        (u "html_content обязателен при content_mode='formatted'"))
    else Ok data
  | RAW =>
    if negb (truthy_opt (raw_text data))
    then Raise (foreign (u "ValueError")
                        (u "raw_text обязателен при content_mode='raw'"))
    else Ok data
  end.

(** *** core/database.py and api/v1/endpoints/html/post.py *)

(** [DatabaseConnection.get_session] around an endpoint: commit when the
    endpoint returns, roll the session back when it (or the commit)
    raises.  A rollback discards the rows the session inserted. *)
Definition rolled_back (w0 w1 : world) : world :=
  {| bucket := bucket w1;
     articles := articles w0;
     articles_id_seq := articles_id_seq w1 |}.

Definition get_session {A} (endpoint : M A) : M A := fun w0 =>
  match endpoint w0 with
  | (Ok a, w1, t1) =>
    match commit_fault E with
    | None => (Ok a, w1, t1 ++ [Commit None])
    | Some f =>
      (Raise (raise_fault f), rolled_back w0 w1, t1 ++ [Commit (Some f); Rollback])
    end
  | (Raise e, w1, t1) => (Raise e, rolled_back w0 w1, t1 ++ [Rollback])
  end.

(** [POST /api/v1/html/generate]: the body is validated into an
    [HtmlGenerateSchema]; the endpoint function runs only on a validated
    body. *)
Definition generate_html_article (body : HtmlGenerateSchema)
  : M ArticleResponseSchema :=
  match validate_content_fields body with
  | Raise e => raise e
  | Ok data => get_session (generate_html data)
  end.

End Service.

(* ===================================================================== *)
(** ** The clean-up as the specification words it *)
(* ===================================================================== *)

Module Spec.

(** A line opens the HTML when, trimmed, it starts with [<]. *)
Definition opens_html (line : str) : bool := startswith (strip line) [LT].

(** The leading lines before the first one that opens the HTML are
    discarded; from that line on every line is kept as it is. *)
Fixpoint drop_preamble (lines : list str) : list str :=
  match lines with
  | [] => []
  | l :: ls => if opens_html l then lines else drop_preamble ls
  end.

(** The text holds a fence delimiter. *)
Fixpoint contains_fence (s : str) : bool :=
  match s with
  | [] => false
  | _ :: s' => startswith s (u "```") || contains_fence s'
  end.

(** A blank line. *)
Definition is_blank (line : str) : bool := negb (truthy (strip line)).

(** A run of blank lines that has ended: three or more become one blank
    line, fewer stay. *)
Definition close_run (pending : list str) : list str :=
  if (3 <=? length pending)%nat then [[]] else pending.

(** Runs of three or more blank lines collapse to one blank line, shorter
    runs are preserved; [pending] is the run being read. *)
Fixpoint collapse_blank_runs (pending : list str) (lines : list str) : list str :=
  match lines with
  | [] => close_run pending
  | l :: ls =>
    if is_blank l then collapse_blank_runs (pending ++ [l]) ls
    else close_run pending ++ l :: collapse_blank_runs [] ls
  end.

(** The clean-up with the blank-line rule read by lines. *)
Definition clean_by_blank_lines (html : str) : str :=
  strip (join_lines (collapse_blank_runs []
                       (drop_preamble (split_lines (strip_fences html))))).

(** No more than two newline characters in a row: a run of three or more
    newline characters is cut to two, that is, two or more empty lines in
    a row become one.  [run] counts the newlines already passed in the
    current run. *)
Fixpoint cap_newlines (run : nat) (s : str) : str :=
  match s with
  | [] => []
  | c :: s' =>
    if c =? LF
    then if (run <? 2)%nat then c :: cap_newlines (S run) s' else cap_newlines run s'
    else c :: cap_newlines 0 s'
  end.

(** The clean-up, step by step. *)
Definition clean (html : str) : str :=
  strip (cap_newlines 0 (join_lines (drop_preamble (split_lines (strip_fences html))))).

(** A field of the request is populated. *)
Definition populated (field : option str) : Prop := truthy_opt field = true.

(** Exactly one of [html_content] and [raw_text] is populated, the one
    that [content_mode] names. *)
Definition exactly_one_populated (d : HtmlGenerateSchema) : Prop :=
  (populated (html_content d) <-> content_mode d = FORMATTED)
  /\ (populated (raw_text d) <-> content_mode d = RAW).

(** The field that [content_mode] names. *)
Definition required_field (d : HtmlGenerateSchema) : option str :=
  match content_mode d with
  | FORMATTED => html_content d
  | RAW => raw_text d
  end.

(** The number of newline characters the text begins with. *)
Fixpoint leading_newlines (s : str) : nat :=
  match s with
  | c :: s' => if c =? LF then S (leading_newlines s') else O
  | [] => O
  end.

(** The text holds three newline characters in a row. *)
Fixpoint contains_newlines3 (s : str) : bool :=
  match s with
  | [] => false
  | _ :: s' => (3 <=? leading_newlines s)%nat || contains_newlines3 s'
  end.

(** The number of backticks the text begins with. *)
Fixpoint leading_backticks (s : str) : nat :=
  match s with
  | c :: s' => if c =? BACKTICK then S (leading_backticks s') else O
  | [] => O
  end.

(** *** Fence delimiters, as the amended claim words them *)

(** The text begins with three backticks. *)
Definition at_fence (s : str) : bool :=
  match s with
  | a :: b :: c :: _ => (a =? BACKTICK) && (b =? BACKTICK) && (c =? BACKTICK)
  | _ => false
  end.

(** The character is the lower-case ASCII letter [l] or its capital. *)
Definition letter (l c : N) : bool := (c =? l) || (c =? l - 32).

(** The text begins with the tag [html], in any letter case. *)
Definition at_html (s : str) : bool :=
  match s with
  | h :: t :: m :: l :: _ =>
    letter 104 h && letter 116 t && letter 109 m && letter 108 l
  | _ => false
  end.

(** The length of the delimiter that stands at the start of the text, if
    one does: three backticks and the tag [html] when [tagged], three
    backticks otherwise. *)
Definition delimiter (tagged : bool) (s : str) : option nat :=
  if at_fence s then
    if tagged then if at_html (drop 3 s) then Some 7%nat else None
    else Some 3%nat
  else None.

(** One pass over the text: every delimiter is dropped, and with it the
    whitespace that directly follows it; everything else is kept.  [skip]
    characters of the current delimiter remain to be dropped; [blank] says
    that a delimiter has just ended. *)
Fixpoint drop_fences (tagged : bool) (skip : nat) (blank : bool) (s : str) : str :=
  match s with
  | [] => []
  | c :: s' =>
    match skip with
    | S k => drop_fences tagged k true s'
    | O =>
      if blank && isspace c then drop_fences tagged O true s'
      else
        match delimiter tagged s with
        | Some n => drop_fences tagged (Nat.pred n) true s'
        | None => c :: drop_fences tagged O false s'
        end
    end
  end.

(** First the delimiters with the tag [html], then the bare ones. *)
Definition remove_fences (s : str) : str :=
  drop_fences false O false (drop_fences true O false s).

(** *** The template *)

(** Modelled from the spec: [templates/base.html], which
    [_wrap_in_template] renders, is not under [src/]; the specification
    says of it that template wrapping is deterministic and
    content-preserving.  A template preserves the content when the page is
    a frame that depends on the title and the language only, with the body
    placed in it as it is. *)
Definition content_preserving (template : str -> option str -> str -> str) : Prop :=
  forall title lang, exists before after,
    forall body, template title (Some body) lang = before ++ body ++ after.

(** *** The UUID *)

(** The bits that the layout of a version-4 UUID fixes, with their
    values: the variant (bits 63 and 62 are 1 and 0) and the version
    (bits 79 to 76 are 0, 1, 0, 0).  Every other bit below 128 is free. *)
Definition uuid_fixed_bit (i : N) : option bool :=
  if (i =? 63) || (i =? 78) then Some true
  else if (i =? 62) || (i =? 76) || (i =? 77) || (i =? 79) then Some false
  else None.

End Spec.

Import Spec.

(* ===================================================================== *)
(** ** The stages of [generate_html], named *)
(* ===================================================================== *)

Section Stages.

Variable configs : Configs.
Variable base_html : str -> option str -> str -> str.
Variable E : env.

(** Step 1: the HTML body. *)
Definition acquire_body (data : HtmlGenerateSchema) : M (option str) :=
  match content_mode data with
  | FORMATTED => ret (html_content data)
  | RAW =>
    body <- format_text configs E (raw_text data) (formatting_rules data) (lang data) ;;
    ret (Some body)
  end.

(** The token and the key of the request. *)
Definition file_id_of : str := Uuid.hex (Uuid.uuid4 (urandom16 E)).

Definition key_of (data : HtmlGenerateSchema) : str :=
  make_s3_key (article_type data) file_id_of.

Definition content_type_html : str := u "text/html; charset=utf-8".

(** The fields [generate_html] hands to [create]. *)
Definition kwargs_of (data : HtmlGenerateSchema) (url : str) : article_kwargs :=
  {| k_title := title data;
     k_article_type := article_type data;
     k_content_mode := content_mode data;
     k_format_type := HTML;
     k_s3_key := key_of data;
     k_public_url := url;
     k_source_entity_id := source_entity_id data;
     k_lang := lang data |}.

(** The descriptor built from a row. *)
Definition response_of (a : ArticleModel) : ArticleResponseSchema :=
  {| r_id := id a;
     r_public_url := public_url a;
     r_article_type := article_type_value (a_article_type a);
     r_format_type := format_type_value (a_format_type a);
     r_created_at := created_at a |}.

(** Steps 2 to 5: wrap, upload, record, answer. *)
Definition publish (data : HtmlGenerateSchema) (html_body : option str)
  : M ArticleResponseSchema :=
  html_bytes <- encode (_wrap_in_template base_html (title data) html_body (lang data)) ;;
  url <- upload_file configs E (key_of data) html_bytes content_type_html ;;
  article <- create E (kwargs_of data url) ;;
  ret (response_of article).

(** The bucket after a successful [put_object]. *)
Definition stored (key : str) (body : bytes) (content_type : str) (w : world) : world :=
  {| bucket := <[key := (body, content_type)]> (bucket w);
     articles := articles w;
     articles_id_seq := articles_id_seq w |}.

(** The exceptions the services raise. *)
Definition upload_error (key : str) (f : fault) : exception :=
  with_context
    (new_S3UploadError
       (u "Не удалось загрузить файл '" ++ key ++ u "': " ++ fault_text f))
    (raise_fault f).

Definition formatting_error (cause : exception) : exception :=
  with_context
    (new_GPTFormattingError
       (u "Не удалось отформатировать текст: " ++ exc_message cause))
    cause.

Definition empty_content_error : exception :=
  new_GPTFormattingError (u "GPT вернул пустой контент").

Definition unicode_encode_error : exception :=
  foreign (u "UnicodeEncodeError")
          (u "'utf-8' codec can't encode character: surrogates not allowed").

End Stages.

(* ===================================================================== *)
(** ** Scenarios *)
(* ===================================================================== *)

Module Scenarios.

Definition configs : Configs :=
  {| S3_ENDPOINT := u "http://minio:9000";
     S3_BUCKET_NAME := u "hr-articles";
     S3_PUBLIC_URL := u "https://cdn.example.org/";
     OPENAI_MODEL := u "gpt-4o-mini" |}.

(** A page template of the shape the specification describes. *)
Definition base_html (title : str) (body : option str) (lang : str) : str :=
  u "<!DOCTYPE html><html lang=" ++ lang ++ u "><head><title>" ++ title
    ++ u "</title></head><body>"
    ++ match body with Some b => b | None => u "None" end
    ++ u "</body></html>".

(** The answer of the specification's example: a sentence, then the HTML
    inside a fenced block. *)
Definition fenced_answer : str :=
  u "Here is your HTML:" ++ nl ++ u "```html" ++ nl ++ u "<p>hi</p>" ++ nl ++ u "```".

(** An answer without any HTML. *)
Definition refusal : str := u "Sorry, I cannot help with that.".

(** Two paragraphs with two empty lines between them. *)
Definition two_blank_lines : str :=
  u "<p>a</p>" ++ nl ++ nl ++ nl ++ u "<p>b</p>".

Definition connection_refused : fault :=
  {| fault_class := u "EndpointConnectionError";
     fault_text := u "Could not connect to the endpoint URL" |}.

Definition database_unreachable : fault :=
  {| fault_class := u "OperationalError";
     fault_text := u "connection to server was lost" |}.

Definition answering (content : str) : env :=
  {| chat_completions_create := fun _ _ _ => inr (Some content);
     put_object_fault := fun _ _ _ _ => None;
     delete_object_fault := fun _ _ => None;
     flush_fault := fun _ => None;
     refresh_fault := fun _ => None;
     select_fault := fun _ => None;
     commit_fault := None;
     urandom16 := 0x0123456789abcdef0123456789abcdef;
     utcnow := fun _ => 1770000000%Z |}.

Definition healthy : env := answering fenced_answer.

Definition store_down : env :=
  {| chat_completions_create := chat_completions_create healthy;
     put_object_fault := fun _ _ _ _ => Some connection_refused;
     delete_object_fault := delete_object_fault healthy;
     flush_fault := flush_fault healthy;
     refresh_fault := refresh_fault healthy;
     select_fault := select_fault healthy;
     commit_fault := commit_fault healthy;
     urandom16 := urandom16 healthy;
     utcnow := utcnow healthy |}.

Definition database_down : env :=
  {| chat_completions_create := chat_completions_create healthy;
     put_object_fault := put_object_fault healthy;
     delete_object_fault := delete_object_fault healthy;
     flush_fault := fun _ => Some database_unreachable;
     refresh_fault := refresh_fault healthy;
     select_fault := select_fault healthy;
     commit_fault := commit_fault healthy;
     urandom16 := urandom16 healthy;
     utcnow := utcnow healthy |}.

Definition model_down : env :=
  {| chat_completions_create := fun _ _ _ => inl connection_refused;
     put_object_fault := put_object_fault healthy;
     delete_object_fault := delete_object_fault healthy;
     flush_fault := flush_fault healthy;
     refresh_fault := refresh_fault healthy;
     select_fault := select_fault healthy;
     commit_fault := commit_fault healthy;
     urandom16 := urandom16 healthy;
     utcnow := utcnow healthy |}.

Definition empty_world : world :=
  {| bucket := ∅; articles := ∅; articles_id_seq := 1%Z |}.

(** The request of the specification's scenario. *)
Definition vacancy : HtmlGenerateSchema :=
  {| article_type := VACANCY; content_mode := FORMATTED;
     html_content := Some (u "<p>Job</p>"); raw_text := None;
     formatting_rules := None; title := u "Backend Engineer"; lang := u "ru";
     source_entity_id := None |}.

(** Another vacancy: other title, content, language and source entity. *)
Definition other_vacancy : HtmlGenerateSchema :=
  {| article_type := VACANCY; content_mode := FORMATTED;
     html_content := Some (u "<h3>Data</h3>"); raw_text := None;
     formatting_rules := None; title := u "Data Engineer"; lang := u "en";
     source_entity_id := Some 42%Z |}.

Definition email_raw : HtmlGenerateSchema :=
  {| article_type := EMAIL; content_mode := RAW;
     html_content := None; raw_text := Some (u "hello");
     formatting_rules := None; title := u "Greeting"; lang := u "en";
     source_entity_id := Some 7%Z |}.

(** Formatted mode with both fields populated. *)
Definition both_populated : HtmlGenerateSchema :=
  {| article_type := CUSTOM; content_mode := FORMATTED;
     html_content := Some (u "<p>x</p>"); raw_text := Some (u "plain text");
     formatting_rules := None; title := u "Both"; lang := u "ru";
     source_entity_id := None |}.

(** Formatted mode without [html_content]. *)
Definition missing_html : HtmlGenerateSchema :=
  {| article_type := CUSTOM; content_mode := FORMATTED;
     html_content := None; raw_text := Some (u "plain text");
     formatting_rules := None; title := u "Missing"; lang := u "ru";
     source_entity_id := None |}.

(** The page of [vacancy], encoded. *)
Definition vacancy_page : bytes :=
  default [] (encode_utf8 (base_html (title vacancy) (html_content vacancy) (lang vacancy))).

(** The descriptor [generate_html] returns for [vacancy] when all
    collaborators answer. *)
Definition vacancy_response : ArticleResponseSchema :=
  {| r_id := 1;
     r_public_url := u "https://cdn.example.org/html/vacancy/0123456789ab4def8123456789abcdef.html";
     r_article_type := u "vacancy";
     r_format_type := u "html";
     r_created_at := 1770000000 |}.

End Scenarios.

(* ===================================================================== *)
(** ** [str(n)] of an [int] *)
(* ===================================================================== *)

Module PyInt.

Fixpoint dec_digits (fuel : nat) (n : N) (acc : str) : str :=
  match fuel with
  | O => acc
  | S f =>
    if n =? 0 then acc
    else dec_digits f (n / 10) (48 + n mod 10 :: acc)
  end.

Definition str_of_N (n : N) : str :=
  if n =? 0 then [48] else dec_digits (N.to_nat (N.size n)) n [].

(** [str(z)], as an f-string formats an [int]. *)
Definition str_of_int (z : Z) : str :=
  match z with
  | Z0 => [48]
  | Zpos p => str_of_N (Npos p)
  | Zneg p => 45 :: str_of_N (Npos p)
  end.

(** Reading a numeral back, [int(s)]. *)
Definition int_of_digits (s : str) : N :=
  fold_left (fun acc c => 10 * acc + (c - 48)) s 0.

Definition int_of_str (s : str) : Z :=
  match s with
  | c :: s' =>
    if c =? 45 then Z.opp (Z.of_N (int_of_digits s'))
    else Z.of_N (int_of_digits s)
  | [] => 0%Z
  end.

End PyInt.

(* ===================================================================== *)
(** ** core/exceptions.py (the other classes) and
       api/v1/exception_handlers.py *)
(* ===================================================================== *)

Module Handlers.

(** [NotFoundError.__init__(resource, id)] for the subclass [cls]. *)
Definition new_NotFoundError (cls : exc_class) (resource : str) (id : Z)
  : exception :=
  Exc cls (resource ++ u " с ID " ++ PyInt.str_of_int id ++ u " не найден")
      (Some (u "NOT_FOUND")) None.

(** [ArticleNotFoundError(article_id)] *)
Definition new_ArticleNotFoundError (article_id : Z) : exception :=
  new_NotFoundError ArticleNotFoundError (u "Article") article_id.

(** [ValidationError(message)] *)
Definition new_ValidationError (message : str) : exception :=
  Exc ValidationError message (Some (u "VALIDATION_ERROR")) None.

(** [LimitExceededError(resource, limit)] *)
Definition new_LimitExceededError (resource : str) (limit : Z) : exception :=
  Exc LimitExceededError
      (u "Превышен лимит " ++ resource ++ u ": " ++ PyInt.str_of_int limit)
      (Some (u "LIMIT_EXCEEDED")) None.

(** The [JSONResponse] of the handler: status and the [error] object. *)
Record JSONResponse := {
  status_code : N;
  error_code : str;
  error_message : str
}.

(** [status_codes.get(code, 500)] *)
Definition status_codes_get (code : str) : N :=
  if decide (code = u "NOT_FOUND") then 404
  else if decide (code = u "VALIDATION_ERROR") then 400
  else if decide (code = u "LIMIT_EXCEEDED") then 429
  else if decide (code = u "EXTERNAL_SERVICE_ERROR") then 502
  else 500.

(** [app_exception_handler], registered for [AppException]; [None] is an
    exception without [code], which is no [AppException] and does not
    reach the handler. *)
Definition app_exception_handler (exc : exception) : option JSONResponse :=
  match exc_code exc with
  | Some code =>
    Some {| status_code := status_codes_get code;
            error_code := code;
            error_message := exc_message exc |}
  | None => None
  end.

End Handlers.

(* ===================================================================== *)
(** ** api/v1/endpoints/html/get.py *)
(* ===================================================================== *)

(** [GET /api/v1/html/{article_id}] *)
Definition get_html_article (E : env) (article_id : Z) : M ArticleResponseSchema :=
  get_session E
    (article <- get_article E article_id ;;
     match article with
     | None => raise (Handlers.new_ArticleNotFoundError article_id)
     | Some a => ret (response_of a)
     end).

(* ===================================================================== *)
(** ** repository/base_repository.py: [delete] *)
(* ===================================================================== *)

Module Repository.

(** What the database answers to the DELETE statement. *)
Record repo_env := { delete_fault : Z -> option fault }.

(** [BaseRepository.delete]: the statement removes the row with the given
    primary key; the result is [rowcount > 0]. *)
Definition delete (R : repo_env) (row_id : Z) (w : world) : result bool * world :=
  match delete_fault R row_id with
  | Some f => (Raise (raise_fault f), w)
  | None =>
    (Ok (bool_decide (is_Some (articles w !! row_id))),
     {| bucket := bucket w;
        articles := base.delete row_id (articles w);
        articles_id_seq := articles_id_seq w |})
  end.

End Repository.

(* ===================================================================== *)
(** ** service/s3_storage_service.py: [ensure_bucket] *)
(* ===================================================================== *)

Module Storage.

Definition QUOTE : N := 34.
Definition BACKSLASH : N := 92.

(** ['{0:04x}'.format(n)] for [n] below [0x10000]. *)
Definition hex4 (n : N) : str :=
  [Uuid.hex_digit (n / 4096 mod 16); Uuid.hex_digit (n / 256 mod 16);
   Uuid.hex_digit (n / 16 mod 16); Uuid.hex_digit (n mod 16)].

(** One character inside a JSON string as [json.dumps] writes it
    ([ensure_ascii=True]). *)
Definition json_escape_char (c : N) : str :=
  if c =? BACKSLASH then [BACKSLASH; BACKSLASH]
  else if c =? QUOTE then [BACKSLASH; QUOTE]
  else if c =? 8 then u "\b"
  else if c =? 12 then u "\f"
  else if c =? 10 then u "\n"
  else if c =? 13 then u "\r"
  else if c =? 9 then u "\t"
  else if (32 <=? c) && (c <=? 126) then [c]
  else if c <? 0x10000 then u "\u" ++ hex4 c
  else
    let n := c - 0x10000 in
    u "\u" ++ hex4 (N.lor 0xd800 (N.land (N.shiftr n 10) 0x3ff))
      ++ u "\u" ++ hex4 (N.lor 0xdc00 (N.land n 0x3ff)).

(** [json.dumps(s)] of a [str]. *)
Definition json_str (s : str) : str :=
  QUOTE :: concat (map json_escape_char s) ++ [QUOTE].

(** [json.dumps(policy)]: public read of every object of the bucket.  The
    text is what [json.dumps] writes before the one string that depends on
    the bucket name, that string, and what it writes after it. *)
Definition policy_before : str :=
  u "{" ++ json_str (u "Version") ++ u ": " ++ json_str (u "2012-10-17")
    ++ u ", " ++ json_str (u "Statement") ++ u ": [{"
    ++ json_str (u "Effect") ++ u ": " ++ json_str (u "Allow")
    ++ u ", " ++ json_str (u "Principal") ++ u ": {"
    ++ json_str (u "AWS") ++ u ": [" ++ json_str (u "*") ++ u "]}"
    ++ u ", " ++ json_str (u "Action") ++ u ": ["
    ++ json_str (u "s3:GetObject") ++ u "]"
    ++ u ", " ++ json_str (u "Resource") ++ u ": [".

Definition policy_after : str := u "]}]}".

Definition public_read_policy (bucket_name : str) : str :=
  policy_before
    ++ json_str (u "arn:aws:s3:::" ++ bucket_name ++ u "/*")
    ++ policy_after.

(** An error of the S3 client: a [ClientError] (an error response of the
    store) or anything else (no connection, ...). *)
Inductive s3_error :=
| ClientError (f : fault)
| OtherError (f : fault).

Definition s3_exception (e : s3_error) : exception :=
  match e with
  | ClientError f => raise_fault f
  | OtherError f => raise_fault f
  end.

(** What the store answers to the administrative calls; [None]: the call
    is carried out. *)
Record admin_env := {
  head_bucket_fault : str -> option s3_error;
  create_bucket_fault : str -> option s3_error;
  put_bucket_policy_fault : str -> str -> option s3_error
}.

(** The buckets of the account, each with its policy, if it has one. *)
Definition buckets : Type := gmap str (option str).

Inductive admin_event :=
| HeadBucket (name : str) (failed : option s3_error)
| CreateBucket (name : str) (failed : option s3_error)
| PutBucketPolicy (name policy : str) (failed : option s3_error).

Definition not_found : s3_error :=
  ClientError {| fault_class := u "ClientError";
                 fault_text := u "An error occurred (404) when calling the HeadBucket operation: Not Found" |}.

Definition no_such_bucket : s3_error :=
  ClientError {| fault_class := u "ClientError";
                 fault_text := u "An error occurred (NoSuchBucket) when calling the PutBucketPolicy operation" |}.

(** [await client.head_bucket(Bucket=name)] *)
Definition head_bucket (A : admin_env) (name : str) (s : buckets)
  : option s3_error :=
  match head_bucket_fault A name with
  | Some e => Some e
  | None => match s !! name with Some _ => None | None => Some not_found end
  end.

(** [await client.create_bucket(Bucket=name)] *)
Definition create_bucket (A : admin_env) (name : str) (s : buckets)
  : option s3_error * buckets :=
  match create_bucket_fault A name with
  | Some e => (Some e, s)
  | None =>
    match s !! name with
    | Some _ => (None, s)
    | None => (None, <[name := None]> s)
    end
  end.

(** [await client.put_bucket_policy(Bucket=name, Policy=policy)] *)
Definition put_bucket_policy (A : admin_env) (name policy : str) (s : buckets)
  : option s3_error * buckets :=
  match put_bucket_policy_fault A name policy with
  | Some e => (Some e, s)
  | None =>
    match s !! name with
    | Some _ => (None, <[name := Some policy]> s)
    | None => (Some no_such_bucket, s)
    end
  end.

(** [S3StorageService.ensure_bucket].  Only a [ClientError] of
    [head_bucket] leads to the creation; what is raised while it is being
    handled has it as context. *)
Definition ensure_bucket (A : admin_env) (configs : Configs) (s : buckets)
  : result unit * buckets * list admin_event :=
  let name := S3_BUCKET_NAME configs in
  let head := head_bucket A name s in
  match head with
  | None => (Ok tt, s, [HeadBucket name head])
  | Some (OtherError f) => (Raise (raise_fault f), s, [HeadBucket name head])
  | Some (ClientError f) =>
    let '(created, s1) := create_bucket A name s in
    match created with
    | Some e =>
      (Raise (with_context (s3_exception e) (raise_fault f)), s1,
       [HeadBucket name head; CreateBucket name created])
    | None =>
      let policy := public_read_policy name in
      let '(put, s2) := put_bucket_policy A name policy s1 in
      let evs := [HeadBucket name head; CreateBucket name created;
                  PutBucketPolicy name policy put] in
      match put with
      | Some e => (Raise (with_context (s3_exception e) (raise_fault f)), s2, evs)
      | None => (Ok tt, s2, evs)
      end
    end
  end.

(** [main.startup_event] *)
Definition startup_event (A : admin_env) (configs : Configs) (s : buckets)
  : result unit * buckets * list admin_event :=
  ensure_bucket A configs s.

(** *** [delete_file], with the client session

    The whole [async with] block stands inside the [try]: creating the
    client, the call, and closing the client can each fail, and only an
    instance of [Exception] is caught. *)

(** What a step of the client raises: an instance of [Exception], or a
    [BaseException] that is none ([asyncio.CancelledError],
    [KeyboardInterrupt]). *)
Inductive raised :=
| AnException (f : fault)
| ABaseException (f : fault).

Definition raised_fault (r : raised) : fault :=
  match r with AnException f => f | ABaseException f => f end.

(** What the three steps do; [None]: the step is carried out. *)
Record client_env := {
  create_client_raises : option raised;
  delete_object_raises : str -> str -> option raised;
  close_raises : option raised
}.

Inductive client_event :=
| CreateClient (failed : option raised)
| DeleteObjectCall (bucket_name key : str) (failed : option raised)
| CloseClient (failed : option raised).

(** [async with self._session.create_client(...) as client:
       await client.delete_object(Bucket=..., Key=s3_key)]:
    what the block raises, if anything, the bucket after it, and the
    calls.  Leaving the block closes the client, also when the call
    raised; what closing raises replaces what the call raised, which
    becomes its context. *)
Definition delete_in_session (C : client_env) (configs : Configs) (key : str)
    (b : gmap str (bytes * str))
  : option (raised * option raised) * gmap str (bytes * str) * list client_event :=
  match create_client_raises C with
  | Some r => (Some (r, None), b, [CreateClient (Some r)])
  | None =>
    let failed := delete_object_raises C (S3_BUCKET_NAME configs) key in
    let b1 := match failed with None => base.delete key b | Some _ => b end in
    let closed := close_raises C in
    let evs := [CreateClient None;
                DeleteObjectCall (S3_BUCKET_NAME configs) key failed;
                CloseClient closed] in
    match closed with
    | Some r => (Some (r, failed), b1, evs)
    | None =>
      match failed with
      | Some r => (Some (r, None), b1, evs)
      | None => (None, b1, evs)
      end
    end
  end.

(** The exception object for what was raised, with its context. *)
Definition raised_exception (r : raised) (context : option raised) : exception :=
  match context with
  | Some c => with_context (raise_fault (raised_fault r)) (raise_fault (raised_fault c))
  | None => raise_fault (raised_fault r)
  end.

(** [S3StorageService.delete_file] *)
Definition delete_file (C : client_env) (configs : Configs) (key : str) (w : world)
  : result bool * world * list client_event :=
  let '(r, b, evs) := delete_in_session C configs key (bucket w) in
  let w1 := {| bucket := b; articles := articles w;
               articles_id_seq := articles_id_seq w |} in
  match r with
  | None => (Ok true, w1, evs)
  | Some (AnException _, _) => (Ok false, w1, evs)
  | Some (ABaseException f, context) =>
    (Raise (raised_exception (ABaseException f) context), w1, evs)
  end.

(** The step whose failure decides how the block ends: closing, if it
    raises, else the call, if it was reached and raised; creating the
    client, if that raises. *)
Definition deciding (C : client_env) (configs : Configs) (key : str)
  : option raised :=
  match create_client_raises C with
  | Some r => Some r
  | None =>
    match close_raises C with
    | Some r => Some r
    | None => delete_object_raises C (S3_BUCKET_NAME configs) key
    end
  end.

Definition is_delete_call (ev : client_event) : bool :=
  match ev with DeleteObjectCall _ _ _ => true | _ => false end.

End Storage.

(* ===================================================================== *)
(** ** How a run of [generate_html] ends *)
(* ===================================================================== *)

Section Ends.

Variable configs : Configs.
Variable base_html : str -> option str -> str -> str.
Variable E : env.
Variable d : HtmlGenerateSchema.
Variable w : world.

(** The page of the request for a body. *)
Definition page_of (html_body : option str) : option bytes :=
  encode_utf8 (_wrap_in_template base_html (title d) html_body (lang d)).

(** The call that uploads [page], and the fields recorded after it. *)
Definition put_call (page : bytes) (failed : option fault) : event :=
  PutObject (S3_BUCKET_NAME configs) (key_of E d) page content_type_html failed.

Definition recorded : article_kwargs :=
  kwargs_of E d (get_public_url configs (key_of E d)).

(** The six ways a run ends: the body cannot be acquired, the page cannot
    be encoded, the upload fails, the INSERT fails, the refresh fails, or
    the descriptor is returned.  [t] is what acquiring the body called. *)
Inductive generate_html_ends
  : result ArticleResponseSchema * world * trace -> Prop :=
| ends_in_acquire (e : exception) (t : trace) :
    acquire_body configs E d w = (Raise e, w, t) ->
    generate_html_ends (Raise e, w, t)
| ends_in_encode (html_body : option str) (t : trace) :
    acquire_body configs E d w = (Ok html_body, w, t) ->
    page_of html_body = None ->
    generate_html_ends (Raise unicode_encode_error, w, t)
| ends_in_upload (html_body : option str) (t : trace) (page : bytes) (f : fault) :
    acquire_body configs E d w = (Ok html_body, w, t) ->
    page_of html_body = Some page ->
    put_object_fault E (S3_BUCKET_NAME configs) (key_of E d) page content_type_html
      = Some f ->
    generate_html_ends
      (Raise (upload_error (key_of E d) f), w, t ++ [put_call page (Some f)])
| ends_in_flush (html_body : option str) (t : trace) (page : bytes)
                (cause : exception) :
    acquire_body configs E d w = (Ok html_body, w, t) ->
    page_of html_body = Some page ->
    put_object_fault E (S3_BUCKET_NAME configs) (key_of E d) page content_type_html
      = None ->
    ((exists f, flush_fault E recorded = Some f /\ cause = raise_fault f)
     \/ (flush_fault E recorded = None
         /\ s3_key_taken (key_of E d) (articles w)
            || bool_decide (is_Some (articles w !! articles_id_seq w)) = true
         /\ cause = integrity_error)) ->
    generate_html_ends
      (Raise cause, stored (key_of E d) page content_type_html w,
       t ++ [put_call page None; Flush recorded (Some cause)])
| ends_in_refresh (html_body : option str) (t : trace) (page : bytes) (f : fault) :
    acquire_body configs E d w = (Ok html_body, w, t) ->
    page_of html_body = Some page ->
    put_object_fault E (S3_BUCKET_NAME configs) (key_of E d) page content_type_html
      = None ->
    flush_fault E recorded = None ->
    s3_key_taken (key_of E d) (articles w)
      || bool_decide (is_Some (articles w !! articles_id_seq w)) = false ->
    refresh_fault E (articles_id_seq w) = Some f ->
    generate_html_ends
      (Raise (raise_fault f),
       insert_row E recorded (stored (key_of E d) page content_type_html w),
       t ++ [put_call page None; Flush recorded None;
             Refresh (articles_id_seq w) (Some f)])
| ends_in_descriptor (html_body : option str) (t : trace) (page : bytes) :
    acquire_body configs E d w = (Ok html_body, w, t) ->
    page_of html_body = Some page ->
    put_object_fault E (S3_BUCKET_NAME configs) (key_of E d) page content_type_html
      = None ->
    flush_fault E recorded = None ->
    s3_key_taken (key_of E d) (articles w)
      || bool_decide (is_Some (articles w !! articles_id_seq w)) = false ->
    refresh_fault E (articles_id_seq w) = None ->
    generate_html_ends
      (Ok (response_of
             (new_row E recorded (stored (key_of E d) page content_type_html w))),
       insert_row E recorded (stored (key_of E d) page content_type_html w),
       t ++ [put_call page None; Flush recorded None;
             Refresh (articles_id_seq w) None]).

End Ends.

(* ===================================================================== *)
(** ** Classes of code points *)
(* ===================================================================== *)

Module Chars.

(** Printable ASCII that [json.dumps] writes as it is. *)
Definition json_plain (c : N) : bool :=
  (32 <=? c) && (c <=? 126) && negb (c =? Storage.QUOTE)
  && negb (c =? Storage.BACKSLASH).


End Chars.

(* ===================================================================== *)
(** ** More scenarios *)
(* ===================================================================== *)

Module Cases.

(** The state after the vacancy request went through. *)
Definition after_vacancy : world :=
  final (generate_html Scenarios.configs Scenarios.base_html Scenarios.healthy
           Scenarios.vacancy Scenarios.empty_world).

(** The row that request wrote. *)
Definition vacancy_row : ArticleModel :=
  new_row Scenarios.healthy
    (recorded Scenarios.configs Scenarios.healthy Scenarios.vacancy)
    Scenarios.empty_world.

(** All collaborators answer, with another draw of the 16 random bytes. *)
Definition other_draw : env :=
  {| chat_completions_create := chat_completions_create Scenarios.healthy;
     put_object_fault := put_object_fault Scenarios.healthy;
     delete_object_fault := delete_object_fault Scenarios.healthy;
     flush_fault := flush_fault Scenarios.healthy;
     refresh_fault := refresh_fault Scenarios.healthy;
     select_fault := select_fault Scenarios.healthy;
     commit_fault := commit_fault Scenarios.healthy;
     urandom16 := 0x0123456789abcdef0123456789abcdee;
     utcnow := utcnow Scenarios.healthy |}.

(** A database that carries out every DELETE. *)
Definition repo_healthy : Repository.repo_env :=
  {| Repository.delete_fault := fun _ => None |}.

(** The same settings with the public base written with three slashes. *)
Definition configs_slashes : Configs :=
  {| S3_ENDPOINT := S3_ENDPOINT Scenarios.configs;
     S3_BUCKET_NAME := S3_BUCKET_NAME Scenarios.configs;
     S3_PUBLIC_URL := u "https://cdn.example.org///";
     OPENAI_MODEL := OPENAI_MODEL Scenarios.configs |}.

(** A store that carries out every administrative call. *)
Definition store_admin : Storage.admin_env :=
  {| Storage.head_bucket_fault := fun _ => None;
     Storage.create_bucket_fault := fun _ => None;
     Storage.put_bucket_policy_fault := fun _ _ => None |}.

Definition access_denied : Storage.s3_error :=
  Storage.ClientError
    {| fault_class := u "ClientError";
       fault_text := u "An error occurred (AccessDenied) when calling the PutBucketPolicy operation: Access Denied" |}.

(** A store that creates buckets but refuses to set policies. *)
Definition policy_denied : Storage.admin_env :=
  {| Storage.head_bucket_fault := fun _ => None;
     Storage.create_bucket_fault := fun _ => None;
     Storage.put_bucket_policy_fault := fun _ _ => Some access_denied |}.

(** The fault inside [Storage.not_found]. *)
Definition head_not_found : fault :=
  match Storage.not_found with
  | Storage.ClientError f => f
  | Storage.OtherError f => f
  end.

(** No bucket yet, and the account after a first successful start. *)
Definition no_buckets : Storage.buckets := ∅.

Definition bucket_ready : Storage.buckets :=
  <[S3_BUCKET_NAME Scenarios.configs :=
      Some (Storage.public_read_policy (S3_BUCKET_NAME Scenarios.configs))]> no_buckets.

End Cases.


(* ===================================================================== *)
(** * Properties of the clean-up *)
(* ===================================================================== *)

Section CleanFacts.

Lemma fold_clean_step_started (ls acc : list str) :
  fold_left clean_step ls (true, acc) = (true, acc ++ ls).
Proof.
  revert acc. induction ls as [|l ls IH]; intros acc; simpl.
  - by rewrite app_nil_r.
  - rewrite IH. by rewrite <- app_assoc.
Qed.

Lemma opens_html_truthy (l : str) : opens_html l = true -> truthy (strip l) = true.
Proof. unfold opens_html. by destruct (strip l). Qed.

Lemma clean_step_preamble (l : str) (acc : list str) :
  clean_step (false, acc) l =
  if opens_html l then (true, acc ++ [l]) else (false, acc).
Proof.
  unfold clean_step. simpl.
  destruct (opens_html l) eqn:Ho.
  - rewrite (opens_html_truthy _ Ho). simpl. unfold opens_html in Ho. by rewrite Ho.
  - unfold opens_html in Ho. rewrite Ho. simpl. by destruct (truthy (strip l)).
Qed.

Lemma fold_clean_step_preamble (ls acc : list str) :
  (fold_left clean_step ls (false, acc)).2 = acc ++ drop_preamble ls.
Proof.
  revert acc. induction ls as [|l ls IH]; intros acc.
  - simpl. by rewrite app_nil_r.
  - cbn [fold_left drop_preamble]. rewrite clean_step_preamble.
    destruct (opens_html l).
    + rewrite fold_clean_step_started. simpl. by rewrite <- app_assoc.
    + apply IH.
Qed.

(** The pattern [\n{3,}] matches exactly the whole run of newlines at the
    position, when that run has three or more. *)
Lemma newlines_run (s : str) :
  newlines s = Some (drop (leading_newlines s) s).
Proof.
  induction s as [|c s IH]; simpl; [done|].
  destruct (c =? LF); [apply IH | done].
Qed.

Lemma leading_newlines_le (s : str) : (leading_newlines s <= length s)%nat.
Proof.
  induction s as [|c s IH]; simpl; [lia|]. destruct (c =? LF); lia.
Qed.

Lemma newlines3_match (s : str) :
  newlines3 s =
  if (3 <=? leading_newlines s)%nat
  then Some (drop (leading_newlines s) s) else None.
Proof.
  unfold newlines3, seq.
  destruct s as [|c1 s]; [done|]. simpl.
  destruct (c1 =? LF); [|done].
  destruct s as [|c2 s]; [done|]. simpl.
  destruct (c2 =? LF); [|done].
  destruct s as [|c3 s]; [done|]. simpl.
  destruct (c3 =? LF); [|done].
  apply newlines_run.
Qed.

Lemma cap_newlines_run_end (s : str) (r : nat) :
  leading_newlines s = O -> cap_newlines r s = cap_newlines 0 s.
Proof.
  destruct s as [|c s]; simpl; [done|].
  destruct (c =? LF); [done|done].
Qed.

(** [re.sub(r"\n{3,}", "\n\n", s)] leaves no more than two newlines in a
    row and changes nothing else. *)
Lemma sub_newlines3_cap (s : str) :
  (forall r : nat, (r = 0 \/ r + leading_newlines s <= 2)%nat ->
     sub_from newlines3 [LF; LF] 0 s = cap_newlines r s)
  /\ sub_from newlines3 [LF; LF] (leading_newlines s) s = cap_newlines 2 s.
Proof.
  induction s as [|c s [IH1 IH2]]; [done|].
  assert (H1 : forall r : nat, (r = 0 \/ r + leading_newlines (c :: s) <= 2)%nat ->
     sub_from newlines3 [LF; LF] 0 (c :: s) = cap_newlines r (c :: s)).
  { intros r Hr.
    cbn [sub_from]. rewrite newlines3_match.
    cbn [leading_newlines cap_newlines] in *.
    destruct (c =? LF) eqn:Hc.
    - destruct (3 <=? S (leading_newlines s))%nat eqn:H3.
      + apply Nat.leb_le in H3.
        assert (r = 0)%nat as -> by lia.
        pose proof (leading_newlines_le s) as Hle.
        rewrite length_drop.
        replace (length (c :: s) - (length (c :: s) - S (leading_newlines s)))%nat
          with (S (leading_newlines s)) by (simpl; lia).
        rewrite IH2. simpl.
        destruct s as [|c2 s2]; [simpl in H3; lia|].
        simpl in *. destruct (c2 =? LF) eqn:Hc2; [|lia].
        apply N.eqb_eq in Hc, Hc2. by subst.
      + apply Nat.leb_gt in H3.
        assert ((r <? 2)%nat = true) as -> by (apply Nat.ltb_lt; lia).
        f_equal. apply IH1. lia.
    - simpl. f_equal. apply IH1. by left. }
  split; [exact H1|].
  destruct (c =? LF) eqn:Hc.
  - cbn [leading_newlines sub_from cap_newlines]. rewrite Hc. simpl. apply IH2.
  - cbn [leading_newlines]. rewrite Hc.
    apply H1. cbn [leading_newlines]. rewrite Hc. lia.
Qed.

Lemma re_sub_newlines3 (s : str) :
  re_sub newlines3 [LF; LF] s = cap_newlines 0 s.
Proof. apply (sub_newlines3_cap s). by left. Qed.

(** The clean-up is: fences removed, preamble lines dropped, newline runs
    capped at two, result trimmed. *)
Lemma clean_gpt_artifacts_steps (html : str) :
  _clean_gpt_artifacts html = clean html.
Proof.
  unfold _clean_gpt_artifacts, clean, strip_fences.
  pose proof (fold_clean_step_preamble
                (split_lines (re_sub fence [] (re_sub fence_html [] html))) []) as H.
  destruct (fold_left clean_step _ _) as [started clean_lines].
  simpl in H. subst clean_lines.
  by rewrite re_sub_newlines3.
Qed.

(** *** No fence delimiter survives *)

Lemma fence_literal : u "```" = [BACKTICK; BACKTICK; BACKTICK].
Proof. reflexivity. Qed.

Lemma startswith_fence (s : str) :
  startswith s (u "```") = (3 <=? leading_backticks s)%nat.
Proof.
  rewrite fence_literal.
  destruct s as [|c1 [|c2 [|c3 s]]]; simpl; try done;
    repeat (match goal with |- context [N.eqb ?c ?d] => destruct (N.eqb c d) end;
            simpl; try done).
  by destruct s.
Qed.

Lemma lit_startswith (p s : str) :
  lit p s = if startswith s p then Some (drop (length p) s) else None.
Proof.
  revert s. induction p as [|a p IH]; intros s; [by destruct s|].
  destruct s as [|c s]; simpl; [done|].
  destruct (c =? a); simpl; [apply IH | done].
Qed.

Lemma spaces_shorter (s : str) :
  exists r, spaces s = Some r /\ (length r <= length s)%nat.
Proof.
  induction s as [|c s [r [Hr Hl]]]; simpl; [by exists []|].
  destruct (isspace c).
  - exists r. split; [done | lia].
  - exists (c :: s). by split.
Qed.

Lemma opt_newline_shorter (s : str) :
  exists r, opt_newline s = Some r /\ (length r <= length s)%nat.
Proof.
  destruct s as [|c s]; simpl; [by exists []|].
  destruct (c =? LF); eexists; (split; [done | simpl; lia]).
Qed.

(** The pattern for a bare fence matches exactly where three backticks
    stand, and takes them. *)
Lemma fence_match (s : str) :
  if startswith s (u "```")
  then exists r, fence s = Some r /\ (length r + 3 <= length s)%nat
  else fence s = None.
Proof.
  unfold fence, seq. rewrite lit_startswith.
  destruct (startswith s (u "```")) eqn:Hs; [|done].
  rewrite startswith_fence in Hs. apply Nat.leb_le in Hs.
  assert (3 <= length s)%nat as Hlen.
  { clear -Hs. revert Hs. generalize 3%nat as n. induction s as [|c s IH]; intros n; simpl.
    - lia.
    - destruct (c =? BACKTICK); [|lia]. destruct n; [lia|]. intros H.
      specialize (IH n). lia. }
  destruct (spaces_shorter (drop (length (u "```")) s)) as [r1 [-> H1]].
  destruct (opt_newline_shorter r1) as [r2 [-> H2]].
  exists r2. split; [done|].
  rewrite length_drop, fence_literal in H1. simpl in H1. lia.
Qed.

Lemma contains_fence_leading (s : str) :
  contains_fence s = false -> (leading_backticks s <= 2)%nat.
Proof.
  destruct s as [|c s]; [simpl; lia|]. cbn [contains_fence].
  intros H. apply orb_false_elim in H as [H _].
  rewrite (startswith_fence (c :: s)) in H. apply Nat.leb_gt in H. lia.
Qed.

Lemma contains_fence_cons (c : N) (s : str) :
  contains_fence s = false ->
  (leading_backticks (c :: s) <= 2)%nat ->
  contains_fence (c :: s) = false.
Proof.
  intros Hs Hl. cbn [contains_fence]. rewrite Hs, orb_false_r.
  rewrite startswith_fence. apply Nat.leb_gt. lia.
Qed.

(** What [re.sub] with the bare-fence pattern returns holds no fence, and
    begins with no more backticks than its input. *)
Lemma sub_fence_clean (s : str) (k : nat) :
  contains_fence (sub_from fence [] k s) = false
  /\ (k = O -> leading_backticks (sub_from fence [] O s) <= leading_backticks s)%nat.
Proof.
  revert k. induction s as [|c s IH]; intros k; [by split|].
  destruct k as [|k].
  - cbn [sub_from].
    pose proof (fence_match (c :: s)) as Hm.
    destruct (startswith (c :: s) (u "```")) eqn:Hs.
    + destruct Hm as [r [-> Hlen]].
      destruct (length (c :: s) - length r)%nat as [|k] eqn:Hd; [exfalso; lia|].
      cbn [app]. destruct (IH k) as [Hk _]. split; [done|].
      intros _. apply contains_fence_leading in Hk.
      rewrite startswith_fence in Hs. apply Nat.leb_le in Hs. lia.
    + rewrite Hm.
      destruct (IH O) as [H0 Hlead]. specialize (Hlead eq_refl).
      rewrite startswith_fence in Hs. apply Nat.leb_gt in Hs.
      assert (leading_backticks (c :: sub_from fence [] 0 s)
              <= leading_backticks (c :: s))%nat as Hle.
      { simpl. destruct (c =? BACKTICK); lia. }
      split; [|done].
      apply contains_fence_cons; [done | lia].
  - cbn [sub_from]. split; [apply IH | done].
Qed.

Lemma strip_fences_no_fence (html : str) :
  contains_fence (strip_fences html) = false.
Proof. unfold strip_fences, re_sub. apply sub_fence_clean. Qed.

Lemma contains_fence_app_r (a b : str) :
  contains_fence (a ++ b) = false -> contains_fence b = false.
Proof.
  induction a as [|c a IH]; [done|].
  cbn [app contains_fence]. intros H.
  apply orb_false_elim in H as [_ H]. by apply IH.
Qed.

Lemma startswith_app (a b p : str) :
  startswith a p = true -> startswith (a ++ b) p = true.
Proof.
  revert a. induction p as [|x p IH]; intros a; [by destruct (a ++ b)|].
  destruct a as [|c a]; simpl; [done|].
  destruct (c =? x); simpl; [apply IH | done].
Qed.

Lemma contains_fence_app_l (a b : str) :
  contains_fence (a ++ b) = false -> contains_fence a = false.
Proof.
  induction a as [|c a IH]; [done|].
  cbn [app contains_fence]. intros H.
  apply orb_false_elim in H as [H1 H2].
  rewrite (IH H2), orb_false_r.
  destruct (startswith (c :: a) (u "```")) eqn:Hs; [|done].
  pose proof (startswith_app (c :: a) b _ Hs) as H'. cbn [app] in H'. congruence.
Qed.

Lemma split_lines_nonempty (s : str) : split_lines s <> [].
Proof.
  destruct s as [|c s]; [done|]. simpl.
  destruct (c =? LF); [done|]. by destruct (split_lines s).
Qed.

Lemma join_split_lines (s : str) : join_lines (split_lines s) = s.
Proof.
  induction s as [|c s IH]; [done|].
  cbn [split_lines].
  pose proof (split_lines_nonempty s) as Hne.
  destruct (split_lines s) as [|l ls]; [done|].
  destruct (c =? LF) eqn:Hc.
  - apply N.eqb_eq in Hc. subst c.
    change (join_lines ([] :: l :: ls)) with ([] ++ LF :: join_lines (l :: ls)).
    by rewrite IH.
  - rewrite <- IH. by destruct ls.
Qed.

Lemma drop_preamble_suffix (ls : list str) :
  exists pre, ls = pre ++ drop_preamble ls.
Proof.
  induction ls as [|l ls [pre IH]]; [by exists []|].
  simpl. destruct (opens_html l).
  - by exists [].
  - exists (l :: pre). simpl. by rewrite <- IH.
Qed.

Lemma join_lines_suffix (pre suf : list str) :
  exists p, join_lines (pre ++ suf) = p ++ join_lines suf.
Proof.
  induction pre as [|l pre [p IH]]; [by exists []|].
  cbn [app join_lines].
  destruct (pre ++ suf) as [|l' ls] eqn:Hps.
  - apply app_eq_nil in Hps as [_ ->]. exists l. simpl. by rewrite app_nil_r.
  - exists (l ++ LF :: p). rewrite IH. by rewrite <- app_assoc.
Qed.

Lemma lstrip_suffix (s : str) : exists p, s = p ++ lstrip s.
Proof.
  induction s as [|c s [p IH]]; [by exists []|].
  simpl. destruct (isspace c).
  - exists (c :: p). simpl. by rewrite <- IH.
  - by exists [].
Qed.

Lemma rstrip_prefix (s : str) : exists q, s = rstrip s ++ q.
Proof.
  induction s as [|c s [q IH]]; [by exists []|].
  simpl. destruct (rstrip s) as [|c' r] eqn:Hr.
  - destruct (isspace c).
    + by exists (c :: s).
    + exists q. simpl. by rewrite IH at 1.
  - exists q. simpl. by rewrite IH at 1.
Qed.

Lemma cap_newlines_leading (r : nat) (s : str) :
  (r < 2)%nat -> leading_backticks (cap_newlines r s) = leading_backticks s.
Proof.
  revert r. induction s as [|c s IH]; intros r Hr; [done|].
  simpl. destruct (c =? LF) eqn:Hc.
  - apply N.eqb_eq in Hc. subst c.
    apply Nat.ltb_lt in Hr. rewrite Hr. done.
  - simpl. destruct (c =? BACKTICK); [|done]. f_equal. apply IH. lia.
Qed.

Lemma cap_newlines_no_fence (r : nat) (s : str) :
  contains_fence s = false -> contains_fence (cap_newlines r s) = false.
Proof.
  revert r. induction s as [|c s IH]; intros r; [done|].
  intros H. pose proof (contains_fence_leading _ H) as Hl.
  cbn [contains_fence] in H. apply orb_false_elim in H as [_ H].
  cbn [cap_newlines]. destruct (c =? LF) eqn:Hc.
  - destruct (r <? 2)%nat; [|by apply IH].
    apply contains_fence_cons; [by apply IH|].
    apply N.eqb_eq in Hc. subst c. simpl. lia.
  - apply contains_fence_cons; [by apply IH|].
    cbn [leading_backticks] in *. rewrite cap_newlines_leading by lia. done.
Qed.

(** The cleaned text holds no fence delimiter. *)
Lemma clean_no_fence (html : str) :
  contains_fence (_clean_gpt_artifacts html) = false.
Proof.
  rewrite clean_gpt_artifacts_steps. unfold clean, strip.
  pose proof (strip_fences_no_fence html) as H.
  rewrite <- (join_split_lines (strip_fences html)) in H.
  destruct (drop_preamble_suffix (split_lines (strip_fences html))) as [pre Hpre].
  rewrite Hpre in H.
  destruct (join_lines_suffix pre (drop_preamble (split_lines (strip_fences html))))
    as [p Hp].
  rewrite Hp in H. apply contains_fence_app_r in H.
  apply (cap_newlines_no_fence 0) in H.
  set (t := cap_newlines 0 _) in *.
  destruct (lstrip_suffix t) as [p1 H1]. rewrite H1 in H.
  apply contains_fence_app_r in H.
  destruct (rstrip_prefix (lstrip t)) as [q H2]. rewrite H2 in H.
  by apply contains_fence_app_l in H.
Qed.

(** The trimmed text is trimmed. *)
Lemma rstrip_idem (s : str) : rstrip (rstrip s) = rstrip s.
Proof.
  induction s as [|c s IH]; [done|].
  simpl. destruct (rstrip s) as [|c' r] eqn:Hr.
  - destruct (isspace c) eqn:Hc; [done|]. simpl. by rewrite Hc.
  - cbn [rstrip] in *. rewrite IH. done.
Qed.

Lemma lstrip_head (s : str) :
  match lstrip s with
  | [] => True
  | c :: _ => isspace c = false
  end.
Proof.
  induction s as [|c s IH]; [done|]. simpl.
  destruct (isspace c) eqn:Hc; [exact IH | exact Hc].
Qed.

Lemma strip_idem (s : str) : strip (strip s) = strip s.
Proof.
  unfold strip. pose proof (lstrip_head s) as H.
  destruct (lstrip s) as [|c r]; [done|].
  assert (lstrip (rstrip (c :: r)) = rstrip (c :: r)) as ->; [|apply rstrip_idem].
  simpl. destruct (rstrip r); simpl; rewrite H; simpl; by rewrite ?H.
Qed.

(** Capping leaves no three newlines in a row, and begins with no more
    newlines than the run still allows. *)
Lemma cap_newlines_capped (r : nat) (s : str) :
  (leading_newlines (cap_newlines r s) <= 2 - r)%nat
  /\ contains_newlines3 (cap_newlines r s) = false.
Proof.
  revert r. induction s as [|c s IH]; intros r; [simpl; split; [lia|done]|].
  cbn [cap_newlines]. destruct (c =? LF) eqn:Hc.
  - destruct (r <? 2)%nat eqn:Hr; [|apply Nat.ltb_ge in Hr; destruct (IH r); split; [lia|done]].
    apply Nat.ltb_lt in Hr. destruct (IH (S r)) as [H1 H2].
    assert (leading_newlines (c :: cap_newlines (S r) s) <= 2 - r)%nat as Hl.
    { cbn [leading_newlines]. rewrite Hc. lia. }
    split; [exact Hl|].
    cbn [contains_newlines3]. rewrite H2, orb_false_r. apply Nat.leb_gt. lia.
  - destruct (IH O) as [H1 H2].
    cbn [leading_newlines contains_newlines3]. rewrite Hc, H2. split; [lia|done].
Qed.

(** Capping changes nothing in a text without three newlines in a row. *)
Lemma cap_newlines_short_runs (r : nat) (s : str) :
  contains_newlines3 s = false ->
  (r + leading_newlines s <= 2)%nat ->
  cap_newlines r s = s.
Proof.
  revert r. induction s as [|c s IH]; intros r H3 Hr; [done|].
  cbn [contains_newlines3] in H3. apply orb_false_elim in H3 as [Hl H3].
  apply Nat.leb_gt in Hl.
  cbn [cap_newlines leading_newlines] in *. destruct (c =? LF) eqn:Hc.
  - assert ((r <? 2)%nat = true) as -> by (apply Nat.ltb_lt; lia).
    f_equal. apply IH; [done | lia].
  - f_equal. apply IH; [done|].
    destruct s as [|c' s']; [simpl; lia|].
    cbn [contains_newlines3] in H3. apply orb_false_elim in H3 as [Hl' _].
    apply Nat.leb_gt in Hl'. lia.
Qed.

(** *** The fences, read from the text *)

Lemma spaces_lstrip (s : str) : spaces s = Some (lstrip s).
Proof.
  induction s as [|c s IH]; [done|]. simpl. by destruct (isspace c).
Qed.

Lemma opt_newline_lstrip (s : str) : opt_newline (lstrip s) = Some (lstrip s).
Proof.
  pose proof (lstrip_head s) as H. destruct (lstrip s) as [|c r]; [done|].
  simpl. destruct (c =? LF) eqn:Hc; [|done].
  apply N.eqb_eq in Hc. subst c. by vm_compute in H.
Qed.

Lemma tolower_letter (l c : N) :
  97 <= l -> l <= 122 -> (tolower_ascii c =? l) = letter l c.
Proof.
  intros H1 H2. unfold tolower_ascii, letter.
  destruct ((65 <=? c) && (c <=? 90)) eqn:Hc.
  - apply andb_true_iff in Hc as [Ha Hb].
    apply N.leb_le in Ha. apply N.leb_le in Hb.
    assert ((c =? l) = false) as -> by (apply N.eqb_neq; lia).
    cbn [orb]. destruct (c =? l - 32) eqn:He.
    + apply N.eqb_eq in He. apply N.eqb_eq. lia.
    + apply N.eqb_neq in He. apply N.eqb_neq. lia.
  - destruct (c =? l) eqn:He; [done|]. cbn [orb]. symmetry.
    apply N.eqb_neq. intros ->.
    apply andb_false_iff in Hc as [Hc|Hc];
      [apply N.leb_gt in Hc | apply N.leb_gt in Hc]; lia.
Qed.

Lemma tolower_is_backtick (c : N) :
  (tolower_ascii c =? BACKTICK) = (c =? BACKTICK).
Proof.
  unfold tolower_ascii, BACKTICK.
  destruct ((65 <=? c) && (c <=? 90)) eqn:Hc; [|done].
  apply andb_true_iff in Hc as [H1 H2].
  apply N.leb_le in H1. apply N.leb_le in H2.
  assert ((c + 32 =? 96) = false) as -> by (apply N.eqb_neq; lia).
  symmetry. apply N.eqb_neq. lia.
Qed.

(** Where the two patterns match, and what they take. *)
Lemma fence_delimiter (s : str) :
  fence s = match delimiter false s with
            | Some n => Some (lstrip (drop n s))
            | None => None
            end.
Proof.
  unfold fence, seq, delimiter, at_fence. rewrite fence_literal.
  destruct s as [|c1 [|c2 [|c3 s]]]; cbn [lit]; try done;
    try (by destruct (c1 =? BACKTICK));
    try (by destruct (c1 =? BACKTICK), (c2 =? BACKTICK)).
  destruct (c1 =? BACKTICK), (c2 =? BACKTICK), (c3 =? BACKTICK); cbn [andb]; try done.
  cbn [drop]. rewrite spaces_lstrip. apply opt_newline_lstrip.
Qed.

Lemma fence_html_delimiter (s : str) :
  fence_html s = match delimiter true s with
                 | Some n => Some (lstrip (drop n s))
                 | None => None
                 end.
Proof.
  unfold fence_html, seq, delimiter, at_fence, at_html.
  change (u "```html") with [BACKTICK; BACKTICK; BACKTICK; 104; 116; 109; 108].
  destruct s as [|c1 s]; [done|]. cbn [lit_ignorecase].
  rewrite tolower_is_backtick.
  destruct s as [|c2 s]; [by destruct (c1 =? BACKTICK)|]. cbn [lit_ignorecase].
  rewrite tolower_is_backtick.
  destruct s as [|c3 s]; [by destruct (c1 =? BACKTICK), (c2 =? BACKTICK)|].
  cbn [lit_ignorecase]. rewrite tolower_is_backtick.
  destruct (c1 =? BACKTICK), (c2 =? BACKTICK), (c3 =? BACKTICK); cbn [andb]; try done.
  cbn [drop].
  destruct s as [|c4 s]; [done|]. cbn [lit_ignorecase].
  rewrite (tolower_letter 104) by lia.
  destruct s as [|c5 s]; [by destruct (letter 104 c4)|]. cbn [lit_ignorecase].
  rewrite (tolower_letter 116) by lia.
  destruct s as [|c6 s]; [by destruct (letter 104 c4), (letter 116 c5)|].
  cbn [lit_ignorecase]. rewrite (tolower_letter 109) by lia.
  destruct s as [|c7 s];
    [by destruct (letter 104 c4), (letter 116 c5), (letter 109 c6)|].
  cbn [lit_ignorecase drop]. rewrite (tolower_letter 108) by lia.
  destruct (letter 104 c4), (letter 116 c5), (letter 109 c6), (letter 108 c7);
    cbn [andb drop]; try done.
  rewrite spaces_lstrip. apply opt_newline_lstrip.
Qed.

Lemma sub_from_skip (m : matcher) (repl : str) (k : nat) (s : str) :
  sub_from m repl k s = sub_from m repl 0 (drop k s).
Proof.
  revert s. induction k as [|k IH]; intros s; [done|].
  destruct s as [|c s]; [done|]. cbn [sub_from drop]. apply IH.
Qed.

Lemma drop_fences_skip (tagged : bool) (k : nat) (b : bool) (s : str) :
  drop_fences tagged (S k) b s = drop_fences tagged 0 true (drop (S k) s).
Proof.
  revert b s. induction k as [|k IH]; intros b s.
  - destruct s as [|c s]; [done|]. reflexivity.
  - destruct s as [|c s]; [done|]. cbn [drop_fences drop]. apply IH.
Qed.

Lemma drop_fences_blank (tagged : bool) (s : str) :
  drop_fences tagged 0 true s = drop_fences tagged 0 false (lstrip s).
Proof.
  induction s as [|c s IH]; [done|].
  cbn [drop_fences lstrip andb]. destruct (isspace c); [exact IH | done].
Qed.

Lemma lstrip_drop_length (n : nat) (s : str) :
  (length (lstrip (drop n s)) + n <= length s)%nat \/ (length s < n)%nat.
Proof.
  destruct (Nat.le_gt_cases n (length s)) as [Hn|Hn]; [left | right; lia].
  destruct (lstrip_suffix (drop n s)) as [p Hp].
  apply (f_equal length) in Hp. rewrite length_app, length_drop in Hp. lia.
Qed.

Lemma drop_to_suffix (s r : str) (n : nat) :
  r = lstrip (drop n s) -> drop (length s - length r) s = r.
Proof.
  intros Hr. assert (exists q, s = q ++ r) as [q ->].
  { destruct (lstrip_suffix (drop n s)) as [p Hp]. exists (take n s ++ p).
    rewrite <- app_assoc, Hr, <- Hp. symmetry. apply take_drop. }
  clear Hr. rewrite length_app, Nat.add_sub. apply drop_app_length.
Qed.

Lemma delimiter_length (tagged : bool) (s : str) (n : nat) :
  delimiter tagged s = Some n -> (2 <= n)%nat /\ (n <= length s)%nat.
Proof.
  unfold delimiter, at_fence, at_html.
  destruct s as [|c1 [|c2 [|c3 s]]]; try done.
  destruct ((c1 =? BACKTICK) && (c2 =? BACKTICK) && (c3 =? BACKTICK)); [|done].
  destruct tagged.
  - destruct s as [|c4 [|c5 [|c6 [|c7 s]]]]; cbn [drop]; try done.
    destruct (letter 104 c4 && letter 116 c5 && letter 109 c6 && letter 108 c7);
      [|done].
    intros [= <-]. simpl. lia.
  - intros [= <-]. simpl. lia.
Qed.

(** One [re.sub] with a fence pattern is one pass of [drop_fences]. *)
Lemma re_sub_drop_fences (tagged : bool) (s : str) :
  re_sub (if tagged then fence_html else fence) [] s
  = drop_fences tagged 0 false s.
Proof.
  unfold re_sub.
  remember (length s) as n eqn:Hn. revert s Hn.
  induction n as [n IH] using lt_wf_ind. intros s Hn.
  destruct s as [|c s]; [done|].
  cbn [sub_from drop_fences andb].
  assert ((if tagged then fence_html else fence) (c :: s)
          = match delimiter tagged (c :: s) with
            | Some k => Some (lstrip (drop k (c :: s)))
            | None => None
            end) as ->.
  { destruct tagged; [apply fence_html_delimiter | apply fence_delimiter]. }
  destruct (delimiter tagged (c :: s)) as [k|] eqn:Hd.
  - destruct (delimiter_length _ _ _ Hd) as [Hk1 Hk2].
    destruct (lstrip_drop_length k (c :: s)) as [Hl|Hl]; [|lia].
    set (r := lstrip (drop k (c :: s))) in *.
    destruct (length (c :: s) - length r)%nat as [|j] eqn:Hj; [lia|].
    cbn [app]. rewrite sub_from_skip.
    assert (drop j s = r) as ->.
    { change (drop j s) with (drop (S j) (c :: s)). rewrite <- Hj.
      by apply (drop_to_suffix _ _ k). }
    destruct k as [|[|k]]; [lia | lia |]. cbn [Nat.pred].
    rewrite drop_fences_skip.
    change (drop (S k) s) with (drop (S (S k)) (c :: s)).
    rewrite drop_fences_blank. fold r.
    apply (IH (length r)); [subst n; lia | done].
  - f_equal. apply (IH (length s)); [subst n; simpl; lia | done].
Qed.

(** The two substitutions of the code are the two passes. *)
Lemma strip_fences_remove_fences (s : str) : strip_fences s = remove_fences s.
Proof.
  unfold strip_fences, remove_fences.
  rewrite (re_sub_drop_fences true). apply (re_sub_drop_fences false).
Qed.

Lemma delimiter_not_backtick (tagged : bool) (c : N) (x : str) :
  c <> BACKTICK -> delimiter tagged (c :: x) = None.
Proof.
  intros Hc%N.eqb_neq. unfold delimiter, at_fence.
  destruct x as [|c2 [|c3 x]]; try done. by rewrite Hc.
Qed.

Lemma delimiter_second (tagged : bool) (a c : N) (x : str) :
  c <> BACKTICK -> delimiter tagged (a :: c :: x) = None.
Proof.
  intros Hc%N.eqb_neq. unfold delimiter, at_fence.
  destruct x as [|c3 x]; [done|]. by rewrite Hc, andb_false_r.
Qed.

Lemma delimiter_third (tagged : bool) (a b c : N) (x : str) :
  c <> BACKTICK -> delimiter tagged (a :: b :: c :: x) = None.
Proof.
  intros Hc%N.eqb_neq. unfold delimiter, at_fence. by rewrite Hc, andb_false_r.
Qed.

Lemma delimiter_other_tag (y : str) :
  at_html y = false ->
  delimiter true (BACKTICK :: BACKTICK :: BACKTICK :: y) = None.
Proof.
  intros Hy. unfold delimiter. cbn [at_fence]. rewrite !N.eqb_refl. cbn [andb].
  change (drop 3 (BACKTICK :: BACKTICK :: BACKTICK :: y)) with (drop 0 y).
  by rewrite drop_0, Hy.
Qed.

Lemma delimiter_bare (y : str) :
  delimiter false (BACKTICK :: BACKTICK :: BACKTICK :: y) = Some 3%nat.
Proof. reflexivity. Qed.

(** A stretch without backtick is copied, in either pass. *)
Lemma drop_fences_copy (tagged : bool) (word rest : str) :
  Forall (fun c => c <> BACKTICK) word ->
  drop_fences tagged 0 false (word ++ rest)
  = word ++ drop_fences tagged 0 false rest.
Proof.
  induction 1 as [|c word Hc _ IH]; [done|].
  cbn [app drop_fences andb]. rewrite (delimiter_not_backtick _ _ _ Hc).
  by rewrite IH.
Qed.

Lemma at_html_app (tag rest : str) :
  at_html tag = false -> at_html (tag ++ LF :: rest) = false.
Proof.
  unfold at_html, letter.
  destruct tag as [|c1 [|c2 [|c3 [|c4 tag]]]]; cbn [app]; try done; intros _.
  - by destruct rest as [|? [|? [|? ?]]].
  - destruct rest as [|? [|? ?]]; try done;
      change (LF =? 116) with false; change (LF =? 116 - 32) with false;
      cbn [orb andb]; by rewrite ?andb_false_r.
  - destruct rest as [|? ?]; try done;
      change (LF =? 109) with false; change (LF =? 109 - 32) with false;
      cbn [orb andb]; by rewrite ?andb_false_r.
  - change (LF =? 108) with false. change (LF =? 108 - 32) with false.
    cbn [orb]. by rewrite ?andb_false_r.
Qed.

(** A fence with another language tag: the three backticks go, the tag
    stays as text. *)
Lemma other_tag_stays (tag rest : str) :
  tag <> [] ->
  Forall (fun c => c <> BACKTICK /\ isspace c = false) tag ->
  at_html tag = false ->
  strip_fences (u "```" ++ tag ++ LF :: rest) = tag ++ LF :: strip_fences rest.
Proof.
  intros Hne Htag Hhtml. rewrite !strip_fences_remove_fences.
  unfold remove_fences. rewrite fence_literal.
  destruct tag as [|c tag]; [done|]. clear Hne.
  pose proof (Forall_inv Htag) as [Hc Hsp].
  assert (Forall (fun c => c <> BACKTICK) (tag ++ [LF])) as Hword.
  { apply Forall_app. split.
    - apply Forall_inv_tail in Htag. revert Htag.
      apply List.Forall_impl. by intros ? [? _].
    - by repeat constructor. }
  pose proof (at_html_app _ rest Hhtml) as Hhtml'.
  assert ((c =? BACKTICK) = false) as Hcb by (by apply N.eqb_neq).
  assert (forall x, (c :: tag) ++ LF :: x = c :: (tag ++ [LF]) ++ x) as Hshape
    by (intros x; by rewrite <- app_assoc).
  rewrite !Hshape. rewrite Hshape in Hhtml'.
  set (t := tag ++ [LF]) in *. clearbody t.
  (* the first pass keeps everything up to [rest] *)
  assert (drop_fences true 0 false ([BACKTICK; BACKTICK; BACKTICK] ++ c :: t ++ rest)
          = BACKTICK :: BACKTICK :: BACKTICK :: c :: t
              ++ drop_fences true 0 false rest) as ->.
  { cbn [app drop_fences andb].
    rewrite (delimiter_other_tag _ Hhtml'), (delimiter_third _ _ _ _ _ Hc),
      (delimiter_second _ _ _ _ Hc), (delimiter_not_backtick _ _ _ Hc).
    do 4 f_equal. by apply drop_fences_copy. }
  (* the second pass drops the three backticks and keeps the tag *)
  cbn [drop_fences andb]. rewrite delimiter_bare.
  cbn [Nat.pred drop_fences]. rewrite Hsp. cbn [andb].
  rewrite (delimiter_not_backtick _ _ _ Hc). f_equal.
  by apply drop_fences_copy.
Qed.

(** C6 (amended). The clean-up removes the fence delimiters in two
    passes: first every [```] that is directly followed by [html], in any
    letter case, goes with that tag and the whitespace after it, then every
    [```] that is left goes with the whitespace after it; none is left in
    the result, and another language tag stays as text.  It then discards
    the lines before the first line that, trimmed, starts with [<], keeps
    every later line as it is, cuts every run of three or more newline
    characters to two (so two or more empty lines in a row become one,
    while single empty lines stay), and trims the result.  The fenced
    example of the specification cleans to [<p>hi</p>]. *)
Theorem clean_gpt_artifacts_computes (html : str) :
  _clean_gpt_artifacts html
    = strip (cap_newlines 0
               (join_lines (drop_preamble (split_lines (strip_fences html)))))
  /\ contains_fence (_clean_gpt_artifacts html) = false
  /\ strip (_clean_gpt_artifacts html) = _clean_gpt_artifacts html
  /\ (forall s, contains_newlines3 (cap_newlines 0 s) = false)
  /\ (forall s, contains_newlines3 s = false -> cap_newlines 0 s = s)
  /\ _clean_gpt_artifacts Scenarios.fenced_answer = u "<p>hi</p>"
  /\ _clean_gpt_artifacts html
       = strip (cap_newlines 0
                  (join_lines (drop_preamble (split_lines (remove_fences html)))))
  /\ (forall tag rest,
        tag <> [] ->
        Forall (fun c => c <> BACKTICK /\ isspace c = false) tag ->
        at_html tag = false ->
        strip_fences (u "```" ++ tag ++ LF :: rest)
          = tag ++ LF :: strip_fences rest).
Proof.
  split; [apply clean_gpt_artifacts_steps|].
  split; [apply clean_no_fence|].
  split; [rewrite clean_gpt_artifacts_steps; apply strip_idem|].
  split; [intros s; apply cap_newlines_capped|].
  split.
  { intros s H. apply cap_newlines_short_runs; [done|].
    destruct s as [|c s]; [simpl; lia|].
    cbn [contains_newlines3] in H. apply orb_false_elim in H as [H _].
    apply Nat.leb_gt in H. lia. }
  split; [by vm_compute|].
  split; [|exact other_tag_stays].
  rewrite clean_gpt_artifacts_steps. unfold clean.
  by rewrite strip_fences_remove_fences.
Qed.

End CleanFacts.

(* ===================================================================== *)
(** * UTF-8 *)
(* ===================================================================== *)

Lemma to_N_octet (n : N) : n < 256 -> Byte.to_N (octet n) = n.
Proof.
  intros Hn. unfold octet. destruct (Byte.of_N n) as [b|] eqn:Hb.
  - by apply Byte.to_of_N.
  - apply Byte.of_N_None_iff in Hb. lia.
Qed.

Lemma mod_shift (a k b r : N) : a = k * b + r -> r < b -> a mod b = r.
Proof. intros -> Hr. symmetry. apply (N.mod_unique _ b k r); lia. Qed.

Lemma div_parts (c b : N) :
  b <> 0 -> exists q r, c / b = q /\ c mod b = r /\ c = b * q + r /\ r < b.
Proof.
  intros Hb. exists (c / b), (c mod b).
  repeat split; [by apply N.div_mod | by apply N.mod_lt].
Qed.

(** One code point, encoded, decodes to itself. *)
Lemma decode_encode_cp (c : N) (b : bytes) (rest : list N) :
  encode_cp c = Some b ->
  utf8_decode (map Byte.to_N b ++ rest) = c :: utf8_decode rest.
Proof.
  unfold encode_cp.
  destruct (c <? 0x80) eqn:H1.
  { intros [= <-]. cbn [map app]. apply N.ltb_lt in H1.
    rewrite to_N_octet by lia. cbn [utf8_decode].
    by rewrite (proj2 (N.ltb_lt _ _) H1). }
  apply N.ltb_ge in H1.
  destruct (c <? 0x800) eqn:H2.
  { intros [= <-]. cbn [map app]. apply N.ltb_lt in H2.
    destruct (div_parts c 64) as (q & r & -> & -> & Hc & Hr); [lia|].
    rewrite !to_N_octet by lia. cbn [utf8_decode].
    rewrite (proj2 (N.ltb_ge _ _)), (proj2 (N.ltb_lt _ _)) by lia.
    f_equal.
    rewrite (mod_shift (0xC0 + q) 6 32 q), (mod_shift (0x80 + r) 2 64 r) by lia.
    lia. }
  apply N.ltb_ge in H2.
  destruct (c <? 0x10000) eqn:H3.
  { destruct ((0xD800 <=? c) && (c <=? 0xDFFF)); [by intros [=]|].
    intros [= <-]. cbn [map app]. apply N.ltb_lt in H3.
    assert (c / 4096 = c / 64 / 64) as -> by (by rewrite N.Div0.div_div).
    destruct (div_parts c 64) as (q & r & -> & -> & Hc & Hr); [lia|].
    destruct (div_parts q 64) as (q2 & r2 & -> & -> & Hc2 & Hr2); [lia|].
    rewrite !to_N_octet by lia. cbn [utf8_decode].
    rewrite (proj2 (N.ltb_ge (0xE0 + q2) 0x80)),
      (proj2 (N.ltb_ge (0xE0 + q2) 0xE0)),
      (proj2 (N.ltb_lt (0xE0 + q2) 0xF0)) by lia.
    f_equal.
    rewrite (mod_shift (0xE0 + q2) 14 16 q2), (mod_shift (0x80 + r2) 2 64 r2),
      (mod_shift (0x80 + r) 2 64 r) by lia.
    lia. }
  apply N.ltb_ge in H3.
  destruct (c <? 0x110000) eqn:H4; [|by intros [=]].
  intros [= <-]. cbn [map app]. apply N.ltb_lt in H4.
  assert (c / 4096 = c / 64 / 64) as -> by (by rewrite N.Div0.div_div).
  assert (c / 262144 = c / 64 / 64 / 64) as -> by (by rewrite !N.Div0.div_div).
  destruct (div_parts c 64) as (q & r & -> & -> & Hc & Hr); [lia|].
  destruct (div_parts q 64) as (q2 & r2 & -> & -> & Hc2 & Hr2); [lia|].
  destruct (div_parts q2 64) as (q3 & r3 & -> & -> & Hc3 & Hr3); [lia|].
  rewrite !to_N_octet by lia. cbn [utf8_decode].
  rewrite (proj2 (N.ltb_ge (0xF0 + q3) 0x80)),
    (proj2 (N.ltb_ge (0xF0 + q3) 0xE0)),
    (proj2 (N.ltb_ge (0xF0 + q3) 0xF0)) by lia.
  f_equal.
  rewrite (mod_shift (0xF0 + q3) 30 8 q3), (mod_shift (0x80 + r3) 2 64 r3),
    (mod_shift (0x80 + r2) 2 64 r2), (mod_shift (0x80 + r) 2 64 r) by lia.
  lia.
Qed.

Lemma decode_encode_utf8 (s : str) (bs : bytes) :
  encode_utf8 s = Some bs -> utf8_decode (map Byte.to_N bs) = s.
Proof.
  revert bs. induction s as [|c s IH]; intros bs; [by intros [= <-]|].
  cbn [encode_utf8]. destruct (encode_cp c) as [b|] eqn:Hc; [|by intros [=]].
  destruct (encode_utf8 s) as [bs'|]; [|by intros [=]].
  intros [= <-]. rewrite map_app.
  rewrite (decode_encode_cp c b _ Hc). by rewrite IH.
Qed.


(* ===================================================================== *)
(** * Properties of the services *)
(* ===================================================================== *)

(** *** Traces *)

Lemma chat_only_not (t : trace) (ev : event) :
  Forall (fun ev => is_chat ev = true) t -> In ev t -> is_chat ev = true.
Proof. rewrite Forall_forall. intros H Hin. apply H. by apply list_elem_of_In. Qed.

Ltac in_trace H :=
  lazymatch type of H with
  | In _ (_ ++ _) => apply in_app_or in H as [H|H]; in_trace H
  | In _ (_ :: _) => destruct H as [H|H]; [|in_trace H]
  | In _ [] => destruct H
  | _ => idtac
  end.

Ltac run_simpl := cbn [calls outcome final fst snd app].
Tactic Notation "run_simpl" "in" hyp(H) := cbn [calls outcome final fst snd app] in H.

(** Name the run of the goal and keep its value as a premise. *)
Ltac name_run :=
  match goal with
  | |- context [calls ?x] =>
    let run := fresh "run" in
    let Hrun := fresh "Hrun" in
    set (run := x);
    assert (Hrun : run = x) by reflexivity;
    clearbody run; revert Hrun
  end.

Ltac not_chat Hchat H :=
  apply (chat_only_not _ _ Hchat) in H; discriminate H.

Lemma never_app (p : event -> bool) (t1 t2 : trace) :
  never p t1 -> never p t2 -> never p (t1 ++ t2).
Proof. unfold never. intros. by apply Forall_app. Qed.

Lemma chat_only_never (p : event -> bool) (t : trace) :
  (forall ev, is_chat ev = true -> p ev = false) ->
  Forall (fun ev => is_chat ev = true) t -> never p t.
Proof. intros Hp H. unfold never. revert H. apply List.Forall_impl. exact Hp. Qed.

Lemma chat_not_db (ev : event) : is_chat ev = true -> is_db ev = false.
Proof. by destruct ev. Qed.

Lemma chat_not_delete (ev : event) : is_chat ev = true -> is_delete ev = false.
Proof. by destruct ev. Qed.

Ltac no_delete Hchat :=
  apply never_app;
  [apply (chat_only_never _ _ chat_not_delete Hchat) | by repeat constructor].

Section ServiceFacts.

Variable configs : Configs.
Variable base_html : str -> option str -> str -> str.

#[local] Arguments u : simpl never.
#[local] Arguments _clean_gpt_artifacts : simpl never.
#[local] Arguments strip : simpl never.
#[local] Arguments encode_utf8 : simpl never.
#[local] Arguments make_s3_key : simpl never.
#[local] Arguments get_public_url : simpl never.
#[local] Arguments system_prompt_for : simpl never.
#[local] Arguments s3_key_taken : simpl never.

Lemma generate_html_stages (E : env) (d : HtmlGenerateSchema) :
  generate_html configs base_html E d =
  bind (acquire_body configs E d) (publish configs base_html E d).
Proof. reflexivity. Qed.

Lemma format_text_run (E : env) (raw_text rules : option str) (lang : str) (w : world) :
  format_text configs E raw_text rules lang w =
  let sp := system_prompt_for rules lang in
  let answer := chat_completions_create E (OPENAI_MODEL configs) sp raw_text in
  let ev := ChatCompletion (OPENAI_MODEL configs) sp raw_text answer in
  match answer with
  | inl f => (Raise (formatting_error (raise_fault f)), w, [ev])
  | inr content =>
    let cleaned := _clean_gpt_artifacts (default [] content) in
    if truthy (strip cleaned)
    then match raw_text with
         | Some _ => (Ok cleaned, w, [ev])
         | None =>
           (Raise (formatting_error
                     (foreign (u "TypeError")
                              (u "object of type 'NoneType' has no len()"))),
            w, [ev])
         end
    else (Raise empty_content_error, w, [ev])
  end.
Proof.
  unfold format_text, try_except, bind, chat_call. cbv zeta.
  destruct (chat_completions_create E _ _ _) as [f|content]; [reflexivity|].
  destruct content as [c|]; cbn [default];
    (destruct (truthy (strip (_clean_gpt_artifacts _))); cbn [negb];
     [destruct raw_text|]; reflexivity).
Qed.

Lemma upload_file_run (E : env) (key : str) (content : bytes) (ct : str) (w : world) :
  upload_file configs E key content ct w =
  let failed := put_object_fault E (S3_BUCKET_NAME configs) key content ct in
  let ev := PutObject (S3_BUCKET_NAME configs) key content ct failed in
  match failed with
  | Some f => (Raise (upload_error key f), w, [ev])
  | None => (Ok (get_public_url configs key), stored key content ct w, [ev])
  end.
Proof.
  unfold upload_file, try_except, bind, put_object. cbv zeta.
  destruct (put_object_fault E _ _ _ _); reflexivity.
Qed.

Lemma create_run (E : env) (kw : article_kwargs) (w : world) :
  create E kw w =
  match flush_fault E kw with
  | Some f => (Raise (raise_fault f), w, [Flush kw (Some (raise_fault f))])
  | None =>
    if s3_key_taken (k_s3_key kw) (articles w)
       || bool_decide (is_Some (articles w !! articles_id_seq w))
    then (Raise integrity_error, w, [Flush kw (Some integrity_error)])
    else
      match refresh_fault E (articles_id_seq w) with
      | Some f =>
        (Raise (raise_fault f), insert_row E kw w,
         [Flush kw None; Refresh (articles_id_seq w) (Some f)])
      | None =>
        (Ok (new_row E kw w), insert_row E kw w,
         [Flush kw None; Refresh (articles_id_seq w) None])
      end
  end.
Proof.
  unfold create, bind, flush, refresh.
  destruct (flush_fault E kw); [reflexivity|].
  destruct (_ || _); [reflexivity|].
  destruct (refresh_fault E _); [reflexivity|].
  cbn [insert_row articles]. rewrite lookup_insert_eq. reflexivity.
Qed.

Lemma publish_run (E : env) (d : HtmlGenerateSchema) (body : option str) (w : world) :
  publish configs base_html E d body w =
  match encode_utf8 (_wrap_in_template base_html (title d) body (lang d)) with
  | None => (Raise unicode_encode_error, w, [])
  | Some html_bytes =>
    let key := key_of E d in
    let failed :=
      put_object_fault E (S3_BUCKET_NAME configs) key html_bytes content_type_html in
    let put := PutObject (S3_BUCKET_NAME configs) key html_bytes content_type_html failed in
    match failed with
    | Some f => (Raise (upload_error key f), w, [put])
    | None =>
      match create E (kwargs_of E d (get_public_url configs key))
                   (stored key html_bytes content_type_html w) with
      | (Ok a, w2, t) => (Ok (response_of a), w2, put :: t)
      | (Raise e, w2, t) => (Raise e, w2, put :: t)
      end
    end
  end.
Proof.
  unfold publish, encode, bind.
  destruct (encode_utf8 _) as [html_bytes|]; [|reflexivity].
  unfold ret at 1. rewrite upload_file_run. cbv zeta.
  destruct (put_object_fault E _ _ _ _) as [f|]; [reflexivity|].
  destruct (create E _ _) as [[[a|e] w2] t]; cbn; rewrite ?app_nil_r; reflexivity.
Qed.

(** Acquiring the body touches neither the bucket nor the table, and calls
    nothing but the language model. *)
Lemma acquire_body_run (E : env) (d : HtmlGenerateSchema) (w : world) :
  exists r t,
    acquire_body configs E d w = (r, w, t)
    /\ Forall (fun ev => is_chat ev = true) t
    /\ (content_mode d = FORMATTED -> r = Ok (html_content d) /\ t = []).
Proof.
  unfold acquire_body. destruct (content_mode d).
  - exists (Ok (html_content d)), []. by repeat split.
  - unfold bind. rewrite format_text_run. cbv zeta.
    destruct (chat_completions_create E _ _ _) as [f|content].
    + eexists _, _. split; [reflexivity|]. split; [|done].
      by repeat constructor.
    + destruct (truthy (strip _)); [destruct (raw_text d)|];
        (eexists _, _; split; [reflexivity|]; split; [|done]; by repeat constructor).
Qed.

Lemma generate_html_run (E : env) (d : HtmlGenerateSchema) (w : world) :
  generate_html configs base_html E d w =
  match acquire_body configs E d w with
  | (Ok body, w1, t1) =>
    let '(r, w2, t2) := publish configs base_html E d body w1 in (r, w2, t1 ++ t2)
  | (Raise e, w1, t1) => (Raise e, w1, t1)
  end.
Proof. reflexivity. Qed.

(** C1. When the upload to the object store fails, [generate_html] raises
    [S3UploadError] with the store's error as its context, never calls the
    database, and leaves the table and its sequence as they were. *)
Theorem upload_failure_creates_no_record
    (E : env) (d : HtmlGenerateSchema) (w : world)
    (bn key : str) (body : bytes) (ct : str) (f : fault) :
  In (PutObject bn key body ct (Some f))
     (calls (generate_html configs base_html E d w)) ->
  exists e,
    outcome (generate_html configs base_html E d w) = Raise e
    /\ exc_class_of e = S3UploadError
    /\ exc_context e = Some (raise_fault f)
    /\ never is_db (calls (generate_html configs base_html E d w))
    /\ articles (final (generate_html configs base_html E d w)) = articles w
    /\ articles_id_seq (final (generate_html configs base_html E d w)) = articles_id_seq w.
Proof.
  rewrite generate_html_run.
  destruct (acquire_body_run E d w) as (r & t & -> & Hchat & _).
  destruct r as [html_body|e]; [|intros H; not_chat Hchat H].
  rewrite publish_run.
  destruct (encode_utf8 _) as [html_bytes|];
    [|cbn; rewrite app_nil_r; intros H; not_chat Hchat H].
  cbv zeta.
  destruct (put_object_fault E _ _ _ _) as [f0|] eqn:Hput.
  - cbn. intros H. in_trace H; [not_chat Hchat H|].
    injection H as _ _ _ _ ->.
    eexists. repeat split.
    apply never_app; [|by repeat constructor].
    apply (chat_only_never _ _ chat_not_db Hchat).
  - rewrite create_run.
    destruct (flush_fault E _); [|destruct (_ || _); [|destruct (refresh_fault E _)]];
      cbn; intros H; in_trace H; try not_chat Hchat H; discriminate H.
Qed.

(** C2 (amended). A failure of the language model surfaces as
    [GPTFormattingError] and a failure of the object store as
    [S3UploadError], each with the collaborator's error as context and its
    text in the message; a failure of the database (INSERT or refresh)
    surfaces as the database library's own exception, unwrapped.  In each
    case the failed call is the last one made. *)
Theorem collaborator_failures_surface
    (E : env) (d : HtmlGenerateSchema) (w : world) :
  (forall m sp user f,
      In (ChatCompletion m sp user (inl f))
         (calls (generate_html configs base_html E d w)) ->
      exists e,
        generate_html configs base_html E d w
          = (Raise e, w, [ChatCompletion m sp user (inl f)])
        /\ exc_class_of e = GPTFormattingError
        /\ exc_context e = Some (raise_fault f)
        /\ exists prefix, exc_message e = prefix ++ fault_text f)
  /\ (forall bn key body ct f,
      In (PutObject bn key body ct (Some f))
         (calls (generate_html configs base_html E d w)) ->
      exists e t,
        outcome (generate_html configs base_html E d w) = Raise e
        /\ calls (generate_html configs base_html E d w)
             = t ++ [PutObject bn key body ct (Some f)]
        /\ exc_class_of e = S3UploadError
        /\ exc_context e = Some (raise_fault f)
        /\ exists prefix, exc_message e = prefix ++ fault_text f)
  /\ (forall kw cause,
      In (Flush kw (Some cause)) (calls (generate_html configs base_html E d w)) ->
      exists t,
        outcome (generate_html configs base_html E d w) = Raise cause
        /\ calls (generate_html configs base_html E d w) = t ++ [Flush kw (Some cause)]
        /\ is_app_class (exc_class_of cause) = false
        /\ exc_context cause = None)
  /\ (forall row_id f,
      In (Refresh row_id (Some f)) (calls (generate_html configs base_html E d w)) ->
      exists t,
        outcome (generate_html configs base_html E d w) = Raise (raise_fault f)
        /\ calls (generate_html configs base_html E d w) = t ++ [Refresh row_id (Some f)]).
Proof.
  rewrite generate_html_run.
  split; [|split; [|split]].
  - (* the language model *)
    intros m sp user f. name_run.
    unfold acquire_body. destruct (content_mode d).
    + unfold ret. run_simpl. rewrite publish_run.
      destruct (encode_utf8 _); [|intros -> H; run_simpl in H; in_trace H]. cbv zeta.
      destruct (put_object_fault E _ _ _ _);
        [intros -> H; run_simpl in H; in_trace H; discriminate H|].
      rewrite create_run.
      destruct (flush_fault E _); [|destruct (_ || _); [|destruct (refresh_fault E _)]];
        intros -> H; run_simpl in H; in_trace H; discriminate H.
    + unfold bind. rewrite format_text_run. cbv zeta.
      destruct (chat_completions_create E _ _ _) as [f0|content] eqn:Hc.
      * intros -> H. run_simpl in H. in_trace H. injection H as <- <- <- <-.
        eexists. split; [reflexivity|]. repeat split.
        eexists. unfold formatting_error, with_context, new_GPTFormattingError,
                 new_ExternalServiceError, raise_fault, foreign.
        cbn [exc_message]. rewrite !app_assoc. reflexivity.
      * destruct (truthy (strip _)); [destruct (raw_text d)|].
        -- unfold ret. run_simpl. rewrite publish_run.
           destruct (encode_utf8 _);
             [|intros -> H; run_simpl in H; in_trace H; discriminate H]. cbv zeta.
           destruct (put_object_fault E _ _ _ _);
             [intros -> H; run_simpl in H; in_trace H; discriminate H|].
           rewrite create_run.
           destruct (flush_fault E _); [|destruct (_ || _); [|destruct (refresh_fault E _)]];
             intros -> H; run_simpl in H; in_trace H; discriminate H.
        -- intros -> H. run_simpl in H. in_trace H. discriminate H.
        -- intros -> H. run_simpl in H. in_trace H. discriminate H.
  - (* the object store *)
    intros bn key body ct f. name_run.
    destruct (acquire_body_run E d w) as (r & t & -> & Hchat & _).
    destruct r as [html_body|e]; [|intros -> H; run_simpl in H; not_chat Hchat H].
    rewrite publish_run.
    destruct (encode_utf8 _) as [html_bytes|];
      [|intros -> H; run_simpl in H; rewrite app_nil_r in H; not_chat Hchat H].
    cbv zeta.
    destruct (put_object_fault E _ _ _ _) as [f0|] eqn:Hput.
    + intros -> H. run_simpl in H. in_trace H; [not_chat Hchat H|].
      injection H as <- <- <- <- <-.
      eexists _, t. run_simpl. repeat split.
      eexists. unfold upload_error, with_context, new_S3UploadError,
               new_ExternalServiceError.
      cbn [exc_message]. rewrite !app_assoc. reflexivity.
    + rewrite create_run.
      destruct (flush_fault E _); [|destruct (_ || _); [|destruct (refresh_fault E _)]];
        intros -> H; run_simpl in H; in_trace H; try not_chat Hchat H; discriminate H.
  - (* the INSERT *)
    intros kw cause. name_run.
    destruct (acquire_body_run E d w) as (r & t & -> & Hchat & _).
    destruct r as [html_body|e]; [|intros -> H; run_simpl in H; not_chat Hchat H].
    rewrite publish_run.
    destruct (encode_utf8 _) as [html_bytes|];
      [|intros -> H; run_simpl in H; rewrite app_nil_r in H; not_chat Hchat H].
    cbv zeta.
    destruct (put_object_fault E _ _ _ _) as [f0|] eqn:Hput;
      [intros -> H; run_simpl in H; in_trace H; [not_chat Hchat H | discriminate H]|].
    rewrite create_run.
    destruct (flush_fault E _); [|destruct (_ || _); [|destruct (refresh_fault E _)]];
      intros -> H; run_simpl in H; in_trace H; try not_chat Hchat H;
      try discriminate H;
      injection H as <- <-; run_simpl;
      (eexists (t ++ [_]); rewrite <- app_assoc; by repeat split).
  - (* the refresh *)
    intros row_id f. name_run.
    destruct (acquire_body_run E d w) as (r & t & -> & Hchat & _).
    destruct r as [html_body|e]; [|intros -> H; run_simpl in H; not_chat Hchat H].
    rewrite publish_run.
    destruct (encode_utf8 _) as [html_bytes|];
      [|intros -> H; run_simpl in H; rewrite app_nil_r in H; not_chat Hchat H].
    cbv zeta.
    destruct (put_object_fault E _ _ _ _) as [f0|] eqn:Hput;
      [intros -> H; run_simpl in H; in_trace H; [not_chat Hchat H | discriminate H]|].
    rewrite create_run.
    destruct (flush_fault E _); [|destruct (_ || _); [|destruct (refresh_fault E _)]];
      intros -> H; run_simpl in H; in_trace H; try not_chat Hchat H;
      try discriminate H.
    injection H as <- <-. run_simpl.
    eexists (t ++ [_; _]). rewrite <- app_assoc. by repeat split.
Qed.

Lemma validate_content_fields_ok (body data : HtmlGenerateSchema) :
  validate_content_fields body = Ok data -> data = body.
Proof.
  unfold validate_content_fields.
  destruct (content_mode body);
    [destruct (truthy_opt (html_content body)) | destruct (truthy_opt (raw_text body))];
    cbn [negb]; congruence.
Qed.

(** C3. When the upload has gone through and the request then fails, the
    failure is one of the database (INSERT, refresh or commit); no
    [delete_object] is issued, the uploaded page is still in the bucket
    under its key, and the table holds what it held before the request. *)
Theorem persistence_failure_leaves_orphan
    (E : env) (body : HtmlGenerateSchema) (w : world)
    (bn key : str) (content : bytes) (ct : str) (e : exception) :
  In (PutObject bn key content ct None)
     (calls (generate_html_article configs base_html E body w)) ->
  outcome (generate_html_article configs base_html E body w) = Raise e ->
  never is_delete (calls (generate_html_article configs base_html E body w))
  /\ bucket (final (generate_html_article configs base_html E body w)) !! key
       = Some (content, ct)
  /\ articles (final (generate_html_article configs base_html E body w)) = articles w
  /\ ((exists kw, In (Flush kw (Some e))
                     (calls (generate_html_article configs base_html E body w)))
      \/ (exists row_id f, e = raise_fault f
            /\ In (Refresh row_id (Some f))
                  (calls (generate_html_article configs base_html E body w)))
      \/ (exists f, e = raise_fault f
            /\ In (Commit (Some f))
                  (calls (generate_html_article configs base_html E body w)))).
Proof.
  name_run. unfold generate_html_article.
  destruct (validate_content_fields body) as [data|e0] eqn:Hv;
    [|intros -> H; run_simpl in H; destruct H].
  apply validate_content_fields_ok in Hv. subst data.
  unfold get_session. rewrite generate_html_run.
  destruct (acquire_body_run E body w) as (r & t & -> & Hchat & _).
  destruct r as [html_body|e0];
    [|intros -> H; run_simpl in H; in_trace H; [not_chat Hchat H | discriminate H]].
  rewrite publish_run.
  destruct (encode_utf8 _) as [html_bytes|];
    [|intros -> H; run_simpl in H; rewrite app_nil_r in H; in_trace H;
      [not_chat Hchat H | discriminate H]].
  cbv zeta.
  destruct (put_object_fault E _ _ _ _) as [f0|] eqn:Hput;
    [intros -> H; run_simpl in H; in_trace H; try not_chat Hchat H; discriminate H|].
  rewrite create_run.
  destruct (flush_fault E _) as [f1|];
    [|destruct (_ || _); [|destruct (refresh_fault E _) as [f2|];
                            [|destruct (commit_fault E) as [f3|]]]];
    intros -> H He; run_simpl in H; run_simpl in He;
    in_trace H; try not_chat Hchat H; try discriminate H; try discriminate He;
    injection H as <- <- <- <-; injection He as <-; run_simpl;
    (split; [rewrite <- app_assoc; no_delete Hchat|]);
    (split; [cbn [rolled_back insert_row stored bucket]; apply lookup_insert_eq|]);
    (split; [reflexivity|]).
  - left. eexists. apply in_or_app. left. apply in_or_app. right. right. by left.
  - left. eexists. apply in_or_app. left. apply in_or_app. right. right. by left.
  - right. left. eexists _, _. split; [reflexivity|].
    apply in_or_app. left. apply in_or_app. right. right. right. by left.
  - right. right. eexists. split; [reflexivity|].
    apply in_or_app. right. by left.
Qed.

(** C4 (amended). Validation succeeds exactly when the field that
    [content_mode] names is populated; the other field is not looked at.
    A request that fails validation raises before any step runs: no call
    to any collaborator, and the bucket and the table are untouched. *)
Theorem validation_checks_required_field
    (E : env) (body : HtmlGenerateSchema) (w : world) :
  (validate_content_fields body = Ok body <-> populated (required_field body))
  /\ (~ populated (required_field body) ->
      exists e, validate_content_fields body = Raise e
                /\ generate_html_article configs base_html E body w = (Raise e, w, [])).
Proof.
  unfold generate_html_article, validate_content_fields, populated, required_field.
  destruct (content_mode body);
    [destruct (truthy_opt (html_content body)) | destruct (truthy_opt (raw_text body))];
    cbn [negb]; (split; [split; congruence|]); intros H; try congruence;
    eexists; split; reflexivity.
Qed.

(** In formatted mode the language model is never called, every upload
    carries the encoding of the template applied to the request's title,
    its [html_content] as it came, and its language, and an upload is
    attempted whenever the page can be encoded. *)
Lemma formatted_body_uploads
    (E : env) (d : HtmlGenerateSchema) (h : str) (w : world) :
  content_mode d = FORMATTED ->
  html_content d = Some h ->
  never is_chat (calls (generate_html configs base_html E d w))
  /\ (forall bn key body ct failed,
        In (PutObject bn key body ct failed)
           (calls (generate_html configs base_html E d w)) ->
        encode_utf8 (_wrap_in_template base_html (title d) (Some h) (lang d)) = Some body
        /\ bn = S3_BUCKET_NAME configs
        /\ key = key_of E d
        /\ ct = content_type_html
        /\ (failed = None ->
            bucket (final (generate_html configs base_html E d w)) !! key
              = Some (body, ct)))
  /\ (forall body,
        encode_utf8 (_wrap_in_template base_html (title d) (Some h) (lang d)) = Some body ->
        exists failed t,
          calls (generate_html configs base_html E d w)
            = PutObject (S3_BUCKET_NAME configs) (key_of E d) body content_type_html failed
                :: t).
Proof.
  intros Hmode Hbody. name_run.
  rewrite generate_html_run. unfold acquire_body. rewrite Hmode, Hbody.
  unfold ret. run_simpl. rewrite publish_run.
  destruct (encode_utf8 _) as [html_bytes|].
  - cbv zeta.
    destruct (put_object_fault E _ _ _ _) as [f0|] eqn:Hput.
    + intros ->. run_simpl. split; [by repeat constructor|]. split.
      * intros bn key body ct failed H. in_trace H.
        injection H as <- <- <- <- <-. by repeat split.
      * intros body [= <-]. by eexists _, _.
    + rewrite create_run.
      destruct (flush_fault E _); [|destruct (_ || _); [|destruct (refresh_fault E _)]];
        intros ->; run_simpl;
        (split; [by repeat constructor|]);
        (split;
         [intros bn key body ct failed H; in_trace H; try discriminate H;
          injection H as <- <- <- <- <-; repeat split; intros _;
          cbn [insert_row stored bucket]; apply lookup_insert_eq
         |intros body [= <-]; by eexists _, _]).
  - intros ->. run_simpl. split; [constructor|]. split; [intros ????? []|].
    intros body [=].
Qed.

(** C5. In formatted mode the language model is never called and the
    body is handed to the template as it came.  Every upload carries the
    UTF-8 encoding of the template applied to the request's title, its
    [html_content] and its language: the uploaded bytes decode back to
    exactly that page; an upload is attempted whenever the page can be
    encoded, and after a successful upload the object under the key holds
    these bytes.  Where the template preserves the content, the page is a
    frame fixed by title and language around the [html_content], which
    stands in it unchanged. *)
Theorem formatted_body_is_uploaded_wrapped
    (E : env) (d : HtmlGenerateSchema) (h : str) (w : world) :
  content_mode d = FORMATTED ->
  html_content d = Some h ->
  never is_chat (calls (generate_html configs base_html E d w))
  /\ (forall bn key body ct failed,
        In (PutObject bn key body ct failed)
           (calls (generate_html configs base_html E d w)) ->
        encode_utf8 (_wrap_in_template base_html (title d) (Some h) (lang d)) = Some body
        /\ bn = S3_BUCKET_NAME configs
        /\ key = key_of E d
        /\ ct = content_type_html
        /\ (failed = None ->
            bucket (final (generate_html configs base_html E d w)) !! key
              = Some (body, ct)))
  /\ (forall body,
        encode_utf8 (_wrap_in_template base_html (title d) (Some h) (lang d)) = Some body ->
        exists failed t,
          calls (generate_html configs base_html E d w)
            = PutObject (S3_BUCKET_NAME configs) (key_of E d) body content_type_html failed
                :: t)
  /\ (forall bn key body ct failed,
        In (PutObject bn key body ct failed)
           (calls (generate_html configs base_html E d w)) ->
        utf8_decode (map Byte.to_N body)
          = _wrap_in_template base_html (title d) (Some h) (lang d))
  /\ (content_preserving base_html ->
      exists before after,
        (forall other,
           _wrap_in_template base_html (title d) (Some other) (lang d)
             = before ++ other ++ after)
        /\ forall bn key body ct failed,
             In (PutObject bn key body ct failed)
                (calls (generate_html configs base_html E d w)) ->
             utf8_decode (map Byte.to_N body) = before ++ h ++ after).
Proof.
  intros Hmode Hbody.
  destruct (formatted_body_uploads E d h w Hmode Hbody)
    as (Hchat & Hput & Hup).
  assert (forall bn key body ct failed,
            In (PutObject bn key body ct failed)
               (calls (generate_html configs base_html E d w)) ->
            utf8_decode (map Byte.to_N body)
              = _wrap_in_template base_html (title d) (Some h) (lang d)) as Hdec.
  { intros bn key body ct failed Hin.
    destruct (Hput bn key body ct failed Hin) as (Henc & _).
    by apply decode_encode_utf8. }
  split; [exact Hchat|]. split; [exact Hput|]. split; [exact Hup|].
  split; [exact Hdec|].
  intros Hkeep. destruct (Hkeep (title d) (lang d)) as (before & after & Hframe).
  exists before, after. split; [exact Hframe|].
  intros bn key body ct failed Hin.
  rewrite (Hdec bn key body ct failed Hin). apply Hframe.
Qed.

(** The clean-up returns the empty string when no line opens the HTML. *)
Lemma clean_without_html_line (c : str) :
  Forall (fun l => opens_html l = false) (split_lines (strip_fences c)) ->
  _clean_gpt_artifacts c = [].
Proof.
  intros H. rewrite clean_gpt_artifacts_steps. unfold clean.
  assert (drop_preamble (split_lines (strip_fences c)) = []) as ->; [|reflexivity].
  induction H as [|l ls Hl _ IH]; [reflexivity|].
  cbn [drop_preamble]. by rewrite Hl.
Qed.

(** C10. In raw mode, when the model answers with text (empty or not) of
    which, once the fences are removed, no line starts with [<] after
    trimming, the clean-up leaves nothing, [generate_html] raises
    [GPTFormattingError] for empty content, and the only call made is the
    one to the model: no upload, no database call, state untouched. *)
Theorem answer_without_html_line_fails
    (E : env) (d : HtmlGenerateSchema) (c : str) (w : world) :
  content_mode d = RAW ->
  chat_completions_create E (OPENAI_MODEL configs)
    (system_prompt_for (formatting_rules d) (lang d)) (raw_text d) = inr (Some c) ->
  Forall (fun l => opens_html l = false) (split_lines (strip_fences c)) ->
  _clean_gpt_artifacts c = []
  /\ generate_html configs base_html E d w
       = (Raise empty_content_error, w,
          [ChatCompletion (OPENAI_MODEL configs)
             (system_prompt_for (formatting_rules d) (lang d)) (raw_text d)
             (inr (Some c))])
  /\ exc_class_of empty_content_error = GPTFormattingError
  /\ never is_put (calls (generate_html configs base_html E d w))
  /\ never is_db (calls (generate_html configs base_html E d w))
  /\ final (generate_html configs base_html E d w) = w.
Proof.
  intros Hmode Hanswer Hlines.
  pose proof (clean_without_html_line c Hlines) as Hclean.
  assert (generate_html configs base_html E d w
          = (Raise empty_content_error, w,
             [ChatCompletion (OPENAI_MODEL configs)
                (system_prompt_for (formatting_rules d) (lang d)) (raw_text d)
                (inr (Some c))])) as Hrun.
  { rewrite generate_html_run. unfold acquire_body. rewrite Hmode.
    unfold bind. rewrite format_text_run. cbv zeta. rewrite Hanswer.
    change (default [] (Some c)) with c. rewrite Hclean. reflexivity. }
  rewrite Hrun. run_simpl. repeat split; try done; by repeat constructor.
Qed.

Lemma truthy_false (s : str) : truthy s = false <-> s = [].
Proof. by destruct s. Qed.

(** C7. For raw text [t], [format_text] raises exactly when the call to
    the model raises or the cleaned answer, trimmed, is empty; what it
    raises is a [GPTFormattingError]; otherwise it returns the cleaned
    answer, which is not empty.  It changes no state. *)
Theorem format_text_fails_iff
    (E : env) (t : str) (rules : option str) (lang : str) (w : world) :
  let answer :=
    chat_completions_create E (OPENAI_MODEL configs)
      (system_prompt_for rules lang) (Some t) in
  let cleaned :=
    _clean_gpt_artifacts (match answer with inr (Some c) => c | _ => [] end) in
  let run := format_text configs E (Some t) rules lang w in
  ((exists e, outcome run = Raise e)
     <-> ((exists f, answer = inl f) \/ strip cleaned = []))
  /\ (forall e, outcome run = Raise e -> exc_class_of e = GPTFormattingError)
  /\ ((forall f, answer <> inl f) -> strip cleaned <> [] ->
      outcome run = Ok cleaned /\ cleaned <> [])
  /\ final run = w.
Proof.
  cbv zeta. rewrite format_text_run. cbv zeta.
  destruct (chat_completions_create E _ _ _) as [f|content].
  - run_simpl. split; [|split; [|split]].
    + split; intros _; [left|]; by eexists.
    + by intros e [= <-].
    + intros H. by destruct (H f).
    + reflexivity.
  - replace (default [] content) with (match content with Some c => c | None => [] end)
      by (by destruct content).
    set (cleaned := _clean_gpt_artifacts _).
    destruct (truthy (strip cleaned)) eqn:Ht; run_simpl.
    + assert (strip cleaned <> []) as Hne.
      { intros H. apply truthy_false in H. congruence. }
      split; [|split; [|split]].
      * split; [by intros [e [=]]|]. by intros [[f [=]]|H].
      * by intros e [=].
      * intros _ _. split; [reflexivity|]. intros Hc. apply Hne. by rewrite Hc.
      * reflexivity.
    + apply truthy_false in Ht. split; [|split; [|split]].
      * split; intros _; [by right | by eexists].
      * by intros e [= <-].
      * intros _ H. by destruct H.
      * reflexivity.
Qed.

(** C9. When [generate_html] returns a descriptor, looking its [id] up
    with [get_article] in the state the generation left finds a row, and
    that row's [public_url] and article type are those of the descriptor. *)
Theorem generate_then_get_article
    (E : env) (d : HtmlGenerateSchema) (w : world) (resp : ArticleResponseSchema)
    (E2 : env) :
  outcome (generate_html configs base_html E d w) = Ok resp ->
  select_fault E2 (r_id resp) = None ->
  exists a,
    outcome (get_article E2 (r_id resp) (final (generate_html configs base_html E d w)))
      = Ok (Some a)
    /\ id a = r_id resp
    /\ public_url a = r_public_url resp
    /\ article_type_value (a_article_type a) = r_article_type resp
    /\ a_article_type a = article_type d.
Proof.
  match goal with
  | |- context [outcome ?x = Ok _] =>
    set (run := x); assert (Hrun : run = x) by reflexivity; clearbody run; revert Hrun
  end.
  rewrite generate_html_run.
  destruct (acquire_body_run E d w) as (r & t & -> & Hchat & _).
  destruct r as [html_body|e]; [|by intros -> [=]].
  rewrite publish_run.
  destruct (encode_utf8 _) as [html_bytes|]; [|by intros -> [=]].
  cbv zeta.
  destruct (put_object_fault E _ _ _ _) as [f0|]; [by intros -> [=]|].
  rewrite create_run.
  destruct (flush_fault E _); [|destruct (_ || _); [|destruct (refresh_fault E _)]];
    intros -> H; run_simpl in H; try discriminate H.
  injection H as <-. run_simpl. intros Hsel.
  eexists. unfold get_article, get_by_id.
  cbn [response_of new_row r_id id] in *. rewrite Hsel.
  cbn [insert_row articles outcome fst]. rewrite lookup_insert_eq.
  by repeat split.
Qed.

End ServiceFacts.

(* ===================================================================== *)
(** * Properties of the key *)
(* ===================================================================== *)

Section KeyFacts.

Lemma lor_below_pow2 (a b n : N) : a < 2 ^ n -> b < 2 ^ n -> N.lor a b < 2 ^ n.
Proof.
  intros Ha Hb.
  destruct (N.eq_dec a 0) as [->|Ha0]; [by rewrite N.lor_0_l|].
  destruct (N.eq_dec b 0) as [->|Hb0]; [by rewrite N.lor_0_r|].
  assert (N.lor a b <> 0) as Hab.
  { intros H. apply N.lor_eq_0_iff in H. tauto. }
  apply N.log2_lt_pow2; [lia|].
  rewrite N.log2_lor.
  apply N.log2_lt_pow2 in Ha; [|lia]. apply N.log2_lt_pow2 in Hb; [|lia]. lia.
Qed.

(** A UUID is a 128-bit value. *)
Lemma uuid4_128_bit (entropy : N) : Uuid.uuid4 entropy < 2 ^ 128.
Proof.
  unfold Uuid.uuid4. cbv zeta.
  assert (entropy mod 2 ^ 128 < 2 ^ 128) as H0 by (apply N.mod_lt; lia).
  set (a := entropy mod 2 ^ 128) in *.
  pose proof (N.ldiff_le_l a (N.shiftl 0xc000 48)) as H1.
  set (b := N.lor (N.ldiff a (N.shiftl 0xc000 48)) (N.shiftl 0x8000 48)).
  assert (b < 2 ^ 128) as H2.
  { apply lor_below_pow2; [lia|]. by vm_compute. }
  pose proof (N.ldiff_le_l b (N.shiftl 0xf000 64)) as H3.
  apply lor_below_pow2; [lia|]. by vm_compute.
Qed.

Lemma hex_digit_lower (d : N) :
  d < 16 -> Uuid.is_lower_hex (Uuid.hex_digit d) = true.
Proof.
  intros H. unfold Uuid.is_lower_hex, Uuid.hex_digit.
  destruct (d <? 10) eqn:Hd.
  - apply N.ltb_lt in Hd. apply orb_true_iff. left.
    apply andb_true_iff. split; apply N.leb_le; lia.
  - apply N.ltb_ge in Hd. apply orb_true_iff. right.
    apply andb_true_iff. split; apply N.leb_le; lia.
Qed.

Lemma hex_digits_shape (fuel : nat) (n : N) (acc : str) (k : nat) :
  n < 16 ^ N.of_nat k ->
  Forall (fun c => Uuid.is_lower_hex c = true) acc ->
  (length (Uuid.hex_digits fuel n acc) <= k + length acc)%nat
  /\ Forall (fun c => Uuid.is_lower_hex c = true) (Uuid.hex_digits fuel n acc).
Proof.
  revert n acc k. induction fuel as [|fuel IH]; intros n acc k Hn Hacc.
  - simpl. split; [lia | done].
  - cbn [Uuid.hex_digits]. destruct (n =? 0) eqn:Hz; [split; [lia | done]|].
    apply N.eqb_neq in Hz.
    destruct k as [|k]; [simpl in Hn; lia|].
    assert (n / 16 < 16 ^ N.of_nat k) as Hdiv.
    { apply N.Div0.div_lt_upper_bound.
      rewrite Nat2N.inj_succ, N.pow_succ_r' in Hn. lia. }
    assert (Forall (fun c => Uuid.is_lower_hex c = true)
                   (Uuid.hex_digit (n mod 16) :: acc)) as Hacc'.
    { constructor; [|done]. apply hex_digit_lower. apply N.mod_lt. lia. }
    destruct (IH (n / 16) _ k Hdiv Hacc') as [Hlen Hall].
    split; [simpl in Hlen; lia | done].
Qed.

(** The [hex] of a 128-bit value is 32 characters of [0-9a-f]. *)
Lemma hex_shape (n : N) :
  n < 2 ^ 128 ->
  length (Uuid.hex n) = 32%nat
  /\ Forall (fun c => Uuid.is_lower_hex c = true) (Uuid.hex n).
Proof.
  intros Hn. unfold Uuid.hex. cbv zeta.
  assert ((length (Uuid.format_x n) <= 32)%nat
          /\ Forall (fun c => Uuid.is_lower_hex c = true) (Uuid.format_x n)) as [Hlen Hall].
  { unfold Uuid.format_x. destruct (n =? 0).
    - split; [simpl; lia | by repeat constructor].
    - destruct (hex_digits_shape (N.to_nat (N.size n)) n [] 32) as [H1 H2];
        [exact Hn | constructor |].
      split; [simpl in H1; lia | done]. }
  split.
  - rewrite length_app, length_replicate. lia.
  - apply Forall_app. split; [|done].
    apply Forall_replicate. reflexivity.
Qed.

Lemma digit_value_hex_digit (d : N) :
  d < 16 -> Uuid.digit_value (Uuid.hex_digit d) = d.
Proof.
  intros H. unfold Uuid.digit_value, Uuid.hex_digit.
  destruct (d <? 10) eqn:Hd.
  - apply N.ltb_lt in Hd.
    assert ((48 + d <? 58) = true) as -> by (apply N.ltb_lt; lia). lia.
  - apply N.ltb_ge in Hd.
    assert ((87 + d <? 58) = false) as -> by (apply N.ltb_ge; lia). lia.
Qed.

Lemma unhex_hex_digits (fuel : nat) (n : N) (acc : str) :
  n < 16 ^ N.of_nat fuel ->
  Uuid.unhex_from 0 (Uuid.hex_digits fuel n acc) = Uuid.unhex_from n acc.
Proof.
  revert n acc. induction fuel as [|fuel IH]; intros n acc Hn.
  - simpl in *. by replace n with 0 by lia.
  - cbn [Uuid.hex_digits]. destruct (n =? 0) eqn:Hz.
    + apply N.eqb_eq in Hz. by subst.
    + rewrite IH.
      * unfold Uuid.unhex_from. cbn [fold_left].
        rewrite digit_value_hex_digit by (apply N.mod_lt; lia).
        f_equal. pose proof (N.div_mod n 16). lia.
      * apply N.Div0.div_lt_upper_bound.
        rewrite Nat2N.inj_succ, N.pow_succ_r' in Hn. lia.
Qed.

Lemma unhex_zeros (k : nat) (s : str) :
  Uuid.unhex_from 0 (replicate k 48 ++ s) = Uuid.unhex_from 0 s.
Proof. induction k as [|k IH]; [done|]. simpl. exact IH. Qed.

(** The [hex] of a value reads back as that value. *)
Lemma unhex_hex (n : N) : Uuid.unhex (Uuid.hex n) = n.
Proof.
  unfold Uuid.unhex, Uuid.hex. cbv zeta. rewrite unhex_zeros.
  unfold Uuid.format_x. destruct (n =? 0) eqn:Hz.
  - apply N.eqb_eq in Hz. by subst.
  - rewrite unhex_hex_digits; [done|].
    rewrite N2Nat.id.
    pose proof (N.size_gt n) as Hs.
    assert (2 ^ N.size n <= 16 ^ N.size n) by (apply N.pow_le_mono_l; lia).
    lia.
Qed.

Lemma article_type_value_length (t1 t2 : ArticleTypeEnum) :
  length (article_type_value t1) = length (article_type_value t2) -> t1 = t2.
Proof. destruct t1, t2; vm_compute; congruence. Qed.

(** Keys are equal only for equal types and equal file ids, when the ids
    have the same length. *)
Lemma make_s3_key_inj (t1 t2 : ArticleTypeEnum) (f1 f2 : str) :
  length f1 = length f2 ->
  make_s3_key t1 f1 = make_s3_key t2 f2 -> t1 = t2 /\ f1 = f2.
Proof.
  intros Hlen. unfold make_s3_key. intros H.
  apply app_inv_head in H.
  assert (t1 = t2) as ->.
  { apply article_type_value_length. apply (f_equal length) in H.
    rewrite !length_app, Hlen in H. lia. }
  split; [done|].
  apply app_inv_head in H. apply app_inv_head in H.
  by apply app_inv_tail in H.
Qed.

(** Bit by bit: [uuid4] sets the six bits of the layout and takes every
    other bit from the 16 random bytes. *)
Lemma uuid4_bits (entropy i : N) :
  N.testbit (Uuid.uuid4 entropy) i
  = match uuid_fixed_bit i with
    | Some b => b
    | None => (i <? 128) && N.testbit entropy i
    end.
Proof.
  assert (N.testbit (entropy mod 2 ^ 128) i = (i <? 128) && N.testbit entropy i)
    as Hlow.
  { destruct (i <? 128) eqn:Hi.
    - apply N.ltb_lt in Hi. by apply N.mod_pow2_bits_low.
    - apply N.ltb_ge in Hi. by apply N.mod_pow2_bits_high. }
  unfold Uuid.uuid4. cbv zeta.
  set (a := entropy mod 2 ^ 128) in *. clearbody a.
  change (N.shiftl 0xc000 48) with (N.lor (2 ^ 62) (2 ^ 63)).
  change (N.shiftl 0x8000 48) with (2 ^ 63).
  change (N.shiftl 0xf000 64)
    with (N.lor (N.lor (2 ^ 76) (2 ^ 77)) (N.lor (2 ^ 78) (2 ^ 79))).
  change (N.shiftl 4 76) with (2 ^ 78).
  repeat rewrite ?N.lor_spec, ?N.ldiff_spec.
  rewrite !N.pow2_bits_eqb, Hlow.
  unfold uuid_fixed_bit. rewrite !(N.eqb_sym i).
  generalize ((i <? 128) && N.testbit entropy i). intros b.
  destruct (N.eqb_spec 63 i) as [<-|?]; [by destruct b|].
  destruct (N.eqb_spec 78 i) as [<-|?]; [by destruct b|].
  destruct (N.eqb_spec 62 i) as [<-|?]; [by destruct b|].
  destruct (N.eqb_spec 76 i) as [<-|?]; [by destruct b|].
  destruct (N.eqb_spec 77 i) as [<-|?]; [by destruct b|].
  destruct (N.eqb_spec 79 i) as [<-|?]; [by destruct b|].
  by destruct b.
Qed.

(** Two draws that differ in a free bit give different keys. *)
Lemma key_of_differs (E E' : env) (d d' : HtmlGenerateSchema) (i : N) :
  i < 128 -> uuid_fixed_bit i = None ->
  N.testbit (urandom16 E') i <> N.testbit (urandom16 E) i ->
  key_of E' d' <> key_of E d.
Proof.
  intros Hi Hfree Hbit Hkey. apply Hbit.
  unfold key_of, file_id_of in Hkey.
  apply make_s3_key_inj in Hkey as [_ Hhex].
  - apply (f_equal Uuid.unhex) in Hhex. rewrite !unhex_hex in Hhex.
    apply (f_equal (fun n => N.testbit n i)) in Hhex.
    rewrite !uuid4_bits, Hfree in Hhex.
    apply N.ltb_lt in Hi. by rewrite Hi in Hhex.
  - destruct (hex_shape _ (uuid4_128_bit (urandom16 E'))) as [-> _].
    by destruct (hex_shape _ (uuid4_128_bit (urandom16 E))) as [-> _].
Qed.

End KeyFacts.

Section KeyScheme.

Variable configs : Configs.
Variable base_html : str -> option str -> str -> str.

(** Every upload and every INSERT of a request uses the key of the
    request. *)
Lemma generate_html_uses_key (E : env) (d : HtmlGenerateSchema) (w : world) :
  (forall bn key body ct failed,
      In (PutObject bn key body ct failed)
         (calls (generate_html configs base_html E d w)) ->
      key = key_of E d)
  /\ (forall kw failed,
      In (Flush kw failed) (calls (generate_html configs base_html E d w)) ->
      k_s3_key kw = key_of E d).
Proof.
  name_run. rewrite generate_html_run.
  destruct (acquire_body_run configs E d w) as (r & t & -> & Hchat & _).
  destruct r as [html_body|e];
    [|intros ->; run_simpl; split; intros; match goal with H : In _ _ |- _ =>
        not_chat Hchat H end].
  rewrite publish_run.
  destruct (encode_utf8 _) as [html_bytes|];
    [|intros ->; run_simpl; rewrite app_nil_r; split; intros;
      match goal with H : In _ _ |- _ => not_chat Hchat H end].
  cbv zeta.
  destruct (put_object_fault E _ _ _ _) as [f0|].
  - intros ->. run_simpl. split.
    + intros bn key body ct failed H. in_trace H; [not_chat Hchat H|].
      by injection H as <- <- <- <- <-.
    + intros kw failed H. in_trace H; [not_chat Hchat H | discriminate H].
  - rewrite create_run.
    destruct (flush_fault E _); [|destruct (_ || _); [|destruct (refresh_fault E _)]];
      intros ->; run_simpl;
      (split;
       [intros bn key body ct failed H; in_trace H; try not_chat Hchat H;
        try discriminate H; by injection H as <- <- <- <- <-
       |intros kw failed H; in_trace H; try not_chat Hchat H;
        try discriminate H; by injection H as <- <-]).
Qed.

(** C8. The key of a request is ["html/" + article type + "/" + t +
    ".html"], where [t] is the hexadecimal form, 32 characters of [0-9a-f],
    of the 128-bit UUID drawn for the request (and reads back as it).
    The UUID is made of the 16 random bytes drawn for the request: the
    layout fixes six of its bits (version 4, variant 10), every other bit
    is the bit of the draw.  Every upload and every INSERT of the request
    uses this key; two requests of the same article type with the same
    token use the same key, whatever their title, content, language or
    source entity; and two requests whose draws differ in a free bit have
    different keys. *)
Theorem s3_key_scheme (E : env) (d : HtmlGenerateSchema) (w : world) :
  let token := Uuid.uuid4 (urandom16 E) in
  let t := Uuid.hex token in
  token < 2 ^ 128
  /\ length t = 32%nat
  /\ Forall (fun c => Uuid.is_lower_hex c = true) t
  /\ Uuid.unhex t = token
  /\ key_of E d = u "html/" ++ article_type_value (article_type d) ++ u "/" ++ t ++ u ".html"
  /\ (forall bn key body ct failed,
        In (PutObject bn key body ct failed)
           (calls (generate_html configs base_html E d w)) ->
        key = key_of E d)
  /\ (forall kw failed,
        In (Flush kw failed) (calls (generate_html configs base_html E d w)) ->
        k_s3_key kw = key_of E d)
  /\ (forall (E' : env) (d' : HtmlGenerateSchema) (w' : world) bn key body ct failed,
        article_type d' = article_type d ->
        urandom16 E' = urandom16 E ->
        In (PutObject bn key body ct failed)
           (calls (generate_html configs base_html E' d' w')) ->
        key = key_of E d)
  /\ (forall i,
        N.testbit token i
          = match uuid_fixed_bit i with
            | Some b => b
            | None => (i <? 128) && N.testbit (urandom16 E) i
            end)
  /\ (forall (E' : env) (d' : HtmlGenerateSchema) i,
        i < 128 -> uuid_fixed_bit i = None ->
        N.testbit (urandom16 E') i <> N.testbit (urandom16 E) i ->
        key_of E' d' <> key_of E d).
Proof.
  cbv zeta.
  pose proof (uuid4_128_bit (urandom16 E)) as H128.
  destruct (hex_shape _ H128) as [Hlen Hall].
  destruct (generate_html_uses_key E d w) as [Hput Hflush].
  repeat (split; [done|]).
  split; [apply unhex_hex|]. split; [reflexivity|].
  split; [exact Hput|]. split; [exact Hflush|].
  split; [|split; [intros i; apply uuid4_bits|]].
  - intros E' d' w' bn key body ct failed Htype Hrand H.
    destruct (generate_html_uses_key E' d' w') as [Hput' _].
    rewrite (Hput' _ _ _ _ _ H).
    unfold key_of, file_id_of. by rewrite Htype, Hrand.
  - intros E' d' i. apply key_of_differs.
Qed.

End KeyScheme.

(* ===================================================================== *)
(** * The scenarios, run *)
(* ===================================================================== *)

Section ScenarioFacts.

Import Scenarios.

(** Text with one empty line between two paragraphs has no run of three
    newlines, and capping leaves it as it is. *)
Lemma clean_gpt_artifacts_computes_witness :
  contains_newlines3 (u "<p>a</p>" ++ nl ++ nl ++ u "<p>b</p>") = false
  /\ cap_newlines 0 (u "<p>a</p>" ++ nl ++ nl ++ u "<p>b</p>")
       = u "<p>a</p>" ++ nl ++ nl ++ u "<p>b</p>".
Proof.
  assert (H : contains_newlines3 (u "<p>a</p>" ++ nl ++ nl ++ u "<p>b</p>") = false)
    by (vm_compute; reflexivity).
  split; [exact H|].
  exact (proj1 (proj2 (proj2 (proj2 (proj2 (clean_gpt_artifacts_computes [])))))
               _ H).
Defined.

(** A fence with another language tag loses its backticks only; the
    whitespace after a fence goes with it. *)
Example other_language_tag_stays :
  _clean_gpt_artifacts (u "<p>x</p>" ++ nl ++ u "```js" ++ nl ++ u "foo" ++ nl ++ u "```")
  = u "<p>x</p>" ++ nl ++ u "js" ++ nl ++ u "foo".
Proof. by vm_compute. Qed.

Example whitespace_after_fence_goes :
  _clean_gpt_artifacts (u "<p>a</p>" ++ nl ++ u "```" ++ nl ++ nl ++ u "  <p>b</p>")
  = u "<p>a</p>" ++ nl ++ u "<p>b</p>".
Proof. by vm_compute. Qed.

(** Empty lines that hold spaces are not newline runs and are kept. *)
Example spaced_blank_lines_stay :
  _clean_gpt_artifacts (u "<p>a</p>" ++ nl ++ u " " ++ nl ++ u " " ++ nl ++ u " " ++ nl ++ u "<p>b</p>")
  = u "<p>a</p>" ++ nl ++ u " " ++ nl ++ u " " ++ nl ++ u " " ++ nl ++ u "<p>b</p>".
Proof. by vm_compute. Qed.

(** C6, as stated, fails: two empty lines between two paragraphs are a
    run of fewer than three blank lines, which the claim preserves; the
    clean-up returns one empty line. *)
Lemma two_blank_lines_collapse :
  clean_by_blank_lines two_blank_lines = two_blank_lines
  /\ _clean_gpt_artifacts two_blank_lines = u "<p>a</p>" ++ nl ++ nl ++ u "<p>b</p>"
  /\ _clean_gpt_artifacts two_blank_lines <> clean_by_blank_lines two_blank_lines.
Proof.
  split; [by vm_compute|]. split; [by vm_compute|].
  vm_compute. discriminate.
Qed.

(** The model is down: the error is wrapped and names its cause. *)
Example model_failure_is_wrapped :
  generate_html configs base_html model_down email_raw empty_world
    = (Raise (formatting_error (raise_fault connection_refused)), empty_world,
       [ChatCompletion (OPENAI_MODEL configs)
          (system_prompt_for (formatting_rules email_raw) (lang email_raw))
          (raw_text email_raw) (inl connection_refused)])
  /\ exc_message (formatting_error (raise_fault connection_refused))
       = u "Ошибка OpenAI GPT: Не удалось отформатировать текст: Could not connect to the endpoint URL".
Proof. split; by vm_compute. Qed.

(** The scenario of the specification: the store is down. *)
Lemma upload_failure_creates_no_record_witness :
  In (PutObject (u "hr-articles") (key_of store_down vacancy) vacancy_page
                content_type_html (Some connection_refused))
     (calls (generate_html configs base_html store_down vacancy empty_world))
  /\ exists e,
      outcome (generate_html configs base_html store_down vacancy empty_world) = Raise e
      /\ exc_class_of e = S3UploadError
      /\ never is_db (calls (generate_html configs base_html store_down vacancy empty_world))
      /\ articles (final (generate_html configs base_html store_down vacancy empty_world))
           = articles empty_world.
Proof.
  assert (H : In (PutObject (u "hr-articles") (key_of store_down vacancy) vacancy_page
                            content_type_html (Some connection_refused))
                 (calls (generate_html configs base_html store_down vacancy empty_world)))
    by (vm_compute; left; reflexivity).
  split; [exact H|].
  destruct (upload_failure_creates_no_record configs base_html _ _ _ _ _ _ _ _ H)
    as (e & He & Hc & _ & Hdb & Ha & _).
  exists e. repeat split; assumption.
Defined.

(** C2, as stated, fails: with the database down, what [generate_html]
    raises is the database library's own exception; no application error
    wraps it. *)
Lemma database_failure_is_not_wrapped :
  In (Flush (kwargs_of database_down vacancy
               (get_public_url configs (key_of database_down vacancy)))
            (Some (raise_fault database_unreachable)))
     (calls (generate_html configs base_html database_down vacancy empty_world))
  /\ outcome (generate_html configs base_html database_down vacancy empty_world)
       = Raise (raise_fault database_unreachable)
  /\ ~ (exists e,
          outcome (generate_html configs base_html database_down vacancy empty_world)
            = Raise e
          /\ is_app_class (exc_class_of e) = true
          /\ exc_context e = Some (raise_fault database_unreachable)).
Proof.
  split; [vm_compute; right; left; reflexivity|].
  split; [by vm_compute|].
  intros (e & He & Hc & _). vm_compute in He. injection He as <-. discriminate Hc.
Qed.

Lemma collaborator_failures_surface_witness :
  In (Flush (kwargs_of database_down vacancy
               (get_public_url configs (key_of database_down vacancy)))
            (Some (raise_fault database_unreachable)))
     (calls (generate_html configs base_html database_down vacancy empty_world))
  /\ outcome (generate_html configs base_html database_down vacancy empty_world)
       = Raise (raise_fault database_unreachable).
Proof.
  assert (H : In (Flush (kwargs_of database_down vacancy
                           (get_public_url configs (key_of database_down vacancy)))
                        (Some (raise_fault database_unreachable)))
                 (calls (generate_html configs base_html database_down vacancy empty_world)))
    by (vm_compute; right; left; reflexivity).
  split; [exact H|].
  destruct (proj1 (proj2 (proj2
              (collaborator_failures_surface configs base_html database_down vacancy
                 empty_world))) _ _ H) as (t & He & _).
  exact He.
Defined.

(** The page is uploaded, then the database is down. *)
Lemma persistence_failure_leaves_orphan_witness :
  In (PutObject (u "hr-articles") (key_of database_down vacancy) vacancy_page
                content_type_html None)
     (calls (generate_html_article configs base_html database_down vacancy empty_world))
  /\ outcome (generate_html_article configs base_html database_down vacancy empty_world)
       = Raise (raise_fault database_unreachable)
  /\ never is_delete
       (calls (generate_html_article configs base_html database_down vacancy empty_world))
  /\ bucket (final (generate_html_article configs base_html database_down vacancy
                      empty_world)) !! key_of database_down vacancy
       = Some (vacancy_page, content_type_html)
  /\ articles (final (generate_html_article configs base_html database_down vacancy
                        empty_world))
       = articles empty_world.
Proof.
  assert (H : In (PutObject (u "hr-articles") (key_of database_down vacancy) vacancy_page
                            content_type_html None)
                 (calls (generate_html_article configs base_html database_down vacancy
                           empty_world)))
    by (vm_compute; left; reflexivity).
  assert (He : outcome (generate_html_article configs base_html database_down vacancy
                          empty_world)
               = Raise (raise_fault database_unreachable))
    by (vm_compute; reflexivity).
  split; [exact H|]. split; [exact He|].
  destruct (persistence_failure_leaves_orphan configs base_html _ _ _ _ _ _ _ _ H He)
    as (Hd & Hb & Ha & _).
  repeat split; assumption.
Defined.

(** C4, as stated, fails: a formatted request with both fields populated
    passes validation, although [raw_text] is populated in formatted mode,
    and the pipeline runs for it: the page is uploaded and recorded. *)
Lemma both_fields_populated_is_valid :
  validate_content_fields both_populated = Ok both_populated
  /\ ~ exactly_one_populated both_populated
  /\ ~ (validate_content_fields both_populated = Ok both_populated
        <-> exactly_one_populated both_populated)
  /\ (exists resp,
        outcome (generate_html_article configs base_html healthy both_populated
                   empty_world) = Ok resp)
  /\ ~ never is_put
        (calls (generate_html_article configs base_html healthy both_populated
                  empty_world)).
Proof.
  assert (Hv : validate_content_fields both_populated = Ok both_populated)
    by reflexivity.
  assert (Hn : ~ exactly_one_populated both_populated).
  { intros [_ [H _]]. specialize (H eq_refl). discriminate H. }
  split; [exact Hv|]. split; [exact Hn|].
  split; [intros [H _]; exact (Hn (H Hv))|].
  split; [eexists; vm_compute; reflexivity|].
  vm_compute. intros H. inversion H as [|? ? Hput _]. discriminate Hput.
Qed.

(** A formatted request without [html_content] is rejected and nothing
    runs. *)
Lemma validation_checks_required_field_witness :
  ~ populated (required_field missing_html)
  /\ exists e,
      generate_html_article configs base_html healthy missing_html empty_world
        = (Raise e, empty_world, []).
Proof.
  assert (H : ~ populated (required_field missing_html))
    by (vm_compute; discriminate).
  split; [exact H|].
  destruct (proj2 (validation_checks_required_field configs base_html healthy
                     missing_html empty_world) H) as (e & _ & He).
  exists e. exact He.
Defined.

(** The template of the scenarios is a frame around the body. *)
Lemma base_html_preserves : content_preserving base_html.
Proof.
  intros title lang.
  exists (u "<!DOCTYPE html><html lang=" ++ lang ++ u "><head><title>" ++ title
            ++ u "</title></head><body>"), (u "</body></html>").
  intros body. unfold base_html.
  generalize (u "<!DOCTYPE html><html lang="), (u "><head><title>"),
    (u "</title></head><body>"), (u "</body></html>").
  intros a b c e. by rewrite <- !app_assoc.
Qed.

(** The scenario of the specification: a formatted vacancy. *)
Lemma formatted_body_is_uploaded_wrapped_witness :
  content_mode vacancy = FORMATTED
  /\ html_content vacancy = Some (u "<p>Job</p>")
  /\ never is_chat (calls (generate_html configs base_html healthy vacancy empty_world))
  /\ (exists failed t,
      calls (generate_html configs base_html healthy vacancy empty_world)
        = PutObject (S3_BUCKET_NAME configs) (key_of healthy vacancy) vacancy_page
            content_type_html failed :: t)
  /\ content_preserving base_html
  /\ exists before after,
      utf8_decode (map Byte.to_N vacancy_page) = before ++ u "<p>Job</p>" ++ after.
Proof.
  split; [reflexivity|]. split; [reflexivity|].
  destruct (formatted_body_is_uploaded_wrapped configs base_html healthy vacancy
              (u "<p>Job</p>") empty_world eq_refl eq_refl)
    as (Hchat & _ & Hput & _ & Hkeep).
  split; [exact Hchat|].
  assert (Hcalls : exists failed t,
            calls (generate_html configs base_html healthy vacancy empty_world)
              = PutObject (S3_BUCKET_NAME configs) (key_of healthy vacancy) vacancy_page
                  content_type_html failed :: t)
    by (apply Hput; vm_compute; reflexivity).
  split; [exact Hcalls|]. split; [exact base_html_preserves|].
  destruct (Hkeep base_html_preserves) as (before & after & _ & Hpage).
  destruct Hcalls as (failed & t & Hcalls).
  exists before, after.
  apply (Hpage (S3_BUCKET_NAME configs) (key_of healthy vacancy) vacancy_page
           content_type_html failed).
  rewrite Hcalls. left. reflexivity.
Defined.

(** The fenced answer of the specification's example is returned cleaned. *)
Lemma format_text_fails_iff_witness :
  (forall f, chat_completions_create healthy (OPENAI_MODEL configs)
               (system_prompt_for None (u "ru")) (Some (u "hello")) <> inl f)
  /\ strip (_clean_gpt_artifacts fenced_answer) <> []
  /\ outcome (format_text configs healthy (Some (u "hello")) None (u "ru") empty_world)
       = Ok (u "<p>hi</p>").
Proof.
  assert (H1 : forall f, chat_completions_create healthy (OPENAI_MODEL configs)
                 (system_prompt_for None (u "ru")) (Some (u "hello")) <> inl f)
    by (intros f; simpl; discriminate).
  assert (H2 : strip (_clean_gpt_artifacts fenced_answer) <> [])
    by (vm_compute; discriminate).
  split; [exact H1|]. split; [exact H2|].
  destruct (proj1 (proj2 (proj2
              (format_text_fails_iff configs healthy (u "hello") None (u "ru")
                 empty_world))) H1 H2) as [Hok _].
  exact Hok.
Defined.

(** Two vacancies that differ in title, content, language and source
    entity, with the same token, are stored under the same key. *)
Lemma s3_key_scheme_witness :
  article_type other_vacancy = article_type vacancy
  /\ urandom16 store_down = urandom16 healthy
  /\ In (PutObject (u "hr-articles") (key_of store_down other_vacancy)
           (default [] (encode_utf8 (base_html (title other_vacancy)
                                       (html_content other_vacancy)
                                       (lang other_vacancy))))
           content_type_html (Some connection_refused))
        (calls (generate_html configs base_html store_down other_vacancy empty_world))
  /\ key_of store_down other_vacancy = key_of healthy vacancy
  /\ key_of healthy vacancy
       = u "html/vacancy/0123456789ab4def8123456789abcdef.html"
  /\ N.testbit (urandom16 Cases.other_draw) 0 <> N.testbit (urandom16 healthy) 0
  /\ key_of Cases.other_draw vacancy <> key_of healthy vacancy.
Proof.
  assert (H : In (PutObject (u "hr-articles") (key_of store_down other_vacancy)
                   (default [] (encode_utf8 (base_html (title other_vacancy)
                                               (html_content other_vacancy)
                                               (lang other_vacancy))))
                   content_type_html (Some connection_refused))
                 (calls (generate_html configs base_html store_down other_vacancy
                           empty_world)))
    by (vm_compute; left; reflexivity).
  split; [reflexivity|]. split; [reflexivity|]. split; [exact H|].
  assert (Hbit : N.testbit (urandom16 Cases.other_draw) 0
                 <> N.testbit (urandom16 healthy) 0)
    by (vm_compute; discriminate).
  destruct (s3_key_scheme configs base_html healthy vacancy empty_world)
    as (_ & _ & _ & _ & _ & _ & _ & Hsame & _ & Hdiffer).
  split; [exact (Hsame store_down other_vacancy empty_world _ _ _ _ _
                   eq_refl eq_refl H)|].
  split; [vm_compute; reflexivity|]. split; [exact Hbit|].
  apply (Hdiffer Cases.other_draw vacancy 0); [reflexivity | reflexivity | exact Hbit].
Defined.

(** The scenario of the specification, read back. *)
Lemma generate_then_get_article_witness :
  outcome (generate_html configs base_html healthy vacancy empty_world)
    = Ok vacancy_response
  /\ select_fault healthy (r_id vacancy_response) = None
  /\ exists a,
      outcome (get_article healthy (r_id vacancy_response)
                 (final (generate_html configs base_html healthy vacancy empty_world)))
        = Ok (Some a)
      /\ public_url a = r_public_url vacancy_response
      /\ article_type_value (a_article_type a) = r_article_type vacancy_response.
Proof.
  assert (H : outcome (generate_html configs base_html healthy vacancy empty_world)
              = Ok vacancy_response)
    by (vm_compute; reflexivity).
  split; [exact H|]. split; [reflexivity|].
  destruct (generate_then_get_article configs base_html healthy vacancy empty_world
              vacancy_response healthy H eq_refl) as (a & Ha & _ & Hu & Ht & _).
  exists a. repeat split; assumption.
Defined.

(** The model refuses in plain prose: nothing is stored. *)
Lemma answer_without_html_line_fails_witness :
  content_mode email_raw = RAW
  /\ Forall (fun l => opens_html l = false) (split_lines (strip_fences refusal))
  /\ generate_html configs base_html (answering refusal) email_raw empty_world
       = (Raise empty_content_error, empty_world,
          [ChatCompletion (OPENAI_MODEL configs)
             (system_prompt_for (formatting_rules email_raw) (lang email_raw))
             (raw_text email_raw) (inr (Some refusal))]).
Proof.
  assert (H : Forall (fun l => opens_html l = false)
                     (split_lines (strip_fences refusal)))
    by (vm_compute; repeat constructor).
  split; [reflexivity|]. split; [exact H|].
  destruct (answer_without_html_line_fails configs base_html (answering refusal)
              email_raw refusal empty_world eq_refl eq_refl H) as (_ & Hrun & _).
  exact Hrun.
Defined.

End ScenarioFacts.

(* ===================================================================== *)
(** * More on the clean-up *)
(* ===================================================================== *)

Section CleanMore.

Lemma drop_preamble_head (ls : list str) :
  match drop_preamble ls with
  | [] => True
  | l :: _ => opens_html l = true
  end.
Proof.
  induction ls as [|l ls IH]; [done|].
  simpl. destruct (opens_html l) eqn:Ho; [exact Ho | exact IH].
Qed.

Lemma rstrip_keeps_head (c : N) (s : str) :
  isspace c = false -> exists r, rstrip (c :: s) = c :: r.
Proof.
  intros Hc. simpl. destruct (rstrip s) as [|c' r].
  - rewrite Hc. by exists [].
  - by eexists.
Qed.

Lemma rstrip_head (c : N) (s : str) :
  match rstrip (c :: s) with
  | [] => True
  | c' :: _ => c' = c
  end.
Proof.
  simpl. destruct (rstrip s); [destruct (isspace c)|]; done.
Qed.

Lemma lstrip_opens (l : str) :
  opens_html l = true -> exists l', lstrip l = LT :: l'.
Proof.
  unfold opens_html, strip. intros H.
  destruct (lstrip l) as [|c l'] eqn:Hl; [done|].
  pose proof (rstrip_head c l') as Hh.
  destruct (rstrip (c :: l')) as [|c' r]; [done|]. subst c'.
  simpl in H. apply andb_true_iff in H as [H _]. apply N.eqb_eq in H.
  subst c. by exists l'.
Qed.

Lemma lstrip_app (l t : str) (c : N) (l' : str) :
  lstrip l = c :: l' -> lstrip (l ++ t) = c :: l' ++ t.
Proof.
  induction l as [|x l IH]; [done|].
  simpl. destruct (isspace x); [exact IH|].
  intros [= -> ->]. done.
Qed.

Lemma newline_is_space (c : N) : (c =? LF) = true -> isspace c = true.
Proof. intros H. apply N.eqb_eq in H. by subst. Qed.

(** Capping the newline runs does not change where the text proper
    begins. *)
Lemma lstrip_cap_newlines (r : nat) (x : str) :
  lstrip (cap_newlines r x) =
  match lstrip x with
  | [] => []
  | c :: x' => c :: cap_newlines 0 x'
  end.
Proof.
  revert r. induction x as [|c x IH]; intros r; [done|].
  cbn [cap_newlines lstrip]. destruct (c =? LF) eqn:Hc.
  - rewrite (newline_is_space _ Hc).
    destruct (r <? 2)%nat; [|apply IH].
    cbn [lstrip]. rewrite (newline_is_space _ Hc). apply IH.
  - cbn [lstrip]. destruct (isspace c); [apply IH | done].
Qed.

Lemma join_lines_cons (l : str) (ls : list str) :
  exists tail, join_lines (l :: ls) = l ++ tail.
Proof.
  destruct ls as [|l2 ls]; [exists []; simpl; by rewrite app_nil_r|].
  by eexists.
Qed.

Lemma kept_text_opens (ls : list str) :
  drop_preamble ls = []
  \/ exists x, lstrip (cap_newlines 0 (join_lines (drop_preamble ls))) = LT :: x.
Proof.
  pose proof (drop_preamble_head ls) as Hhead.
  destruct (drop_preamble ls) as [|l rest]; [by left|]. right.
  destruct (join_lines_cons l rest) as [tail ->].
  destruct (lstrip_opens l Hhead) as [l' Hl].
  rewrite lstrip_cap_newlines, (lstrip_app l tail LT l' Hl). by eexists.
Qed.

(** X1. What the clean-up returns is empty or begins with [<]: the body
    handed to the template always opens with a tag. *)
Theorem cleaned_is_empty_or_opens_with_tag (html : str) :
  _clean_gpt_artifacts html = []
  \/ exists rest, _clean_gpt_artifacts html = LT :: rest.
Proof.
  rewrite clean_gpt_artifacts_steps. unfold clean, strip.
  destruct (kept_text_opens (split_lines (strip_fences html))) as [->|[x ->]].
  - by left.
  - right. apply rstrip_keeps_head. reflexivity.
Qed.

Lemma leading_newlines_app (a b : str) :
  (leading_newlines a <= leading_newlines (a ++ b))%nat.
Proof.
  induction a as [|c a IH]; simpl; [lia|]. destruct (c =? LF); lia.
Qed.

Lemma contains_newlines3_app_r (a b : str) :
  contains_newlines3 (a ++ b) = false -> contains_newlines3 b = false.
Proof.
  induction a as [|c a IH]; [done|].
  cbn [app contains_newlines3]. intros H.
  apply orb_false_elim in H as [_ H]. by apply IH.
Qed.

Lemma contains_newlines3_app_l (a b : str) :
  contains_newlines3 (a ++ b) = false -> contains_newlines3 a = false.
Proof.
  induction a as [|c a IH]; [done|].
  cbn [app contains_newlines3]. intros H.
  apply orb_false_elim in H as [H1 H2].
  rewrite (IH H2), orb_false_r.
  apply Nat.leb_gt in H1. apply Nat.leb_gt.
  pose proof (leading_newlines_app (c :: a) b) as Hle. cbn [app] in Hle. lia.
Qed.

Lemma strip_no_newlines3 (s : str) :
  contains_newlines3 s = false -> contains_newlines3 (strip s) = false.
Proof.
  intros H. unfold strip.
  destruct (lstrip_suffix s) as [p Hp]. rewrite Hp in H.
  apply contains_newlines3_app_r in H.
  destruct (rstrip_prefix (lstrip s)) as [q Hq]. rewrite Hq in H.
  by apply contains_newlines3_app_l in H.
Qed.

(** X2. The cleaned text never holds three newline characters in a row,
    that is, never two empty lines in a row. *)
Theorem cleaned_has_no_newline_run (html : str) :
  contains_newlines3 (_clean_gpt_artifacts html) = false.
Proof.
  rewrite clean_gpt_artifacts_steps. unfold clean.
  apply strip_no_newlines3. apply cap_newlines_capped.
Qed.

(** *** The clean-up only removes *)

Lemma sub_from_sublist (m : matcher) (k : nat) (s : str) :
  sub_from m [] k s `sublist_of` s.
Proof.
  revert k. induction s as [|c s IH]; intros k; [constructor|].
  cbn [sub_from]. destruct k as [|k]; [|apply sublist_cons, IH].
  destruct (m (c :: s)) as [r|]; [|apply sublist_skip, IH].
  destruct (length (c :: s) - length r)%nat;
    [apply sublist_skip, IH | apply sublist_cons, IH].
Qed.

Lemma cap_newlines_sublist (r : nat) (s : str) :
  cap_newlines r s `sublist_of` s.
Proof.
  revert r. induction s as [|c s IH]; intros r; [constructor|].
  cbn [cap_newlines]. destruct (c =? LF); [destruct (r <? 2)%nat|];
    (apply sublist_skip, IH || apply sublist_cons, IH).
Qed.

Lemma strip_sublist (s : str) : strip s `sublist_of` s.
Proof.
  unfold strip.
  destruct (lstrip_suffix s) as [p Hp].
  destruct (rstrip_prefix (lstrip s)) as [q Hq].
  rewrite Hp at 2. rewrite Hq at 2.
  apply sublist_inserts_l, sublist_inserts_r. reflexivity.
Qed.

(** X3. The clean-up only removes characters: the cleaned text is the
    answer with some characters left out, in the same order; nothing is
    added or changed. *)
Theorem cleaned_is_sublist (html : str) :
  _clean_gpt_artifacts html `sublist_of` html.
Proof.
  rewrite clean_gpt_artifacts_steps. unfold clean.
  etrans; [apply strip_sublist|].
  etrans; [apply cap_newlines_sublist|].
  destruct (drop_preamble_suffix (split_lines (strip_fences html))) as [pre Hpre].
  destruct (join_lines_suffix pre (drop_preamble (split_lines (strip_fences html))))
    as [p Hp].
  rewrite <- Hpre, join_split_lines in Hp.
  etrans; [apply (sublist_inserts_l p); reflexivity|].
  rewrite <- Hp. unfold strip_fences, re_sub.
  etrans; apply sub_from_sublist.
Qed.

(** *** Cleaning twice *)

Lemma tolower_backtick (c : N) :
  (tolower_ascii c =? BACKTICK) = (c =? BACKTICK).
Proof.
  unfold tolower_ascii, BACKTICK.
  destruct ((65 <=? c) && (c <=? 90)) eqn:Hc; [|done].
  apply andb_true_iff in Hc as [H1 H2].
  apply N.leb_le in H1. apply N.leb_le in H2.
  assert ((c + 32 =? 96) = false) as -> by (apply N.eqb_neq; lia).
  symmetry. apply N.eqb_neq. lia.
Qed.

Lemma fence_html_literal :
  u "```html" = BACKTICK :: BACKTICK :: BACKTICK :: u "html".
Proof. reflexivity. Qed.

(** The pattern for an [html] fence matches only where three backticks
    stand. *)
Lemma fence_html_needs_backticks (s : str) :
  startswith s (u "```") = false -> fence_html s = None.
Proof.
  rewrite fence_literal. unfold fence_html, seq. rewrite fence_html_literal.
  intros H.
  destruct s as [|c1 s]; [done|]. cbn [lit_ignorecase startswith] in *.
  rewrite tolower_backtick. destruct (c1 =? BACKTICK); [|done].
  destruct s as [|c2 s]; [done|]. cbn [lit_ignorecase startswith] in *.
  rewrite tolower_backtick. destruct (c2 =? BACKTICK); [|done].
  destruct s as [|c3 s]; [done|]. cbn [lit_ignorecase startswith] in *.
  rewrite tolower_backtick. destruct (c3 =? BACKTICK); [|done].
  simpl in H. by destruct s.
Qed.

(** A text without fence delimiter passes the two substitutions
    unchanged. *)
Lemma strip_fences_without_fence (s : str) :
  contains_fence s = false -> strip_fences s = s.
Proof.
  intros H. unfold strip_fences, re_sub.
  assert (sub_from fence_html [] 0 s = s) as ->.
  { induction s as [|c s IH]; [done|].
    cbn [contains_fence] in H. apply orb_false_elim in H as [H1 H2].
    cbn [sub_from]. rewrite (fence_html_needs_backticks _ H1).
    f_equal. by apply IH. }
  induction s as [|c s IH]; [done|].
  cbn [contains_fence] in H. apply orb_false_elim in H as [H1 H2].
  cbn [sub_from]. pose proof (fence_match (c :: s)) as Hm.
  rewrite H1 in Hm. rewrite Hm. f_equal. by apply IH.
Qed.

Lemma split_lines_head (c : N) (s : str) :
  (c =? LF) = false -> exists l ls, split_lines (c :: s) = (c :: l) :: ls.
Proof.
  intros Hc. cbn [split_lines]. rewrite Hc.
  pose proof (split_lines_nonempty s) as Hne.
  destruct (split_lines s) as [|l ls]; [done|]. by eexists _, _.
Qed.

Lemma opens_html_tag (l : str) : opens_html (LT :: l) = true.
Proof.
  unfold opens_html, strip.
  change (lstrip (LT :: l)) with (LT :: l).
  destruct (rstrip_keeps_head LT l eq_refl) as [r ->].
  simpl. by destruct r.
Qed.

(** A text that is trimmed, opens with a tag (or is empty), and holds
    neither a fence nor three newlines in a row comes out of the clean-up
    as it went in. *)
Lemma clean_fixpoint (s : str) :
  contains_fence s = false ->
  contains_newlines3 s = false ->
  strip s = s ->
  (s = [] \/ exists rest, s = LT :: rest) ->
  _clean_gpt_artifacts s = s.
Proof.
  intros Hf Hn Hs Hhead.
  rewrite clean_gpt_artifacts_steps. unfold clean.
  rewrite (strip_fences_without_fence s Hf).
  destruct Hhead as [->|[rest ->]]; [reflexivity|].
  destruct (split_lines_head LT rest eq_refl) as (l & ls & Hsplit).
  assert (drop_preamble (split_lines (LT :: rest)) = split_lines (LT :: rest)) as ->.
  { rewrite Hsplit. cbn [drop_preamble]. by rewrite opens_html_tag. }
  rewrite join_split_lines.
  rewrite cap_newlines_short_runs; [exact Hs | exact Hn | simpl; lia].
Qed.

(** X4. Cleaning is idempotent: cleaning a cleaned answer again returns
    it unchanged. *)
Theorem clean_is_idempotent (html : str) :
  _clean_gpt_artifacts (_clean_gpt_artifacts html) = _clean_gpt_artifacts html.
Proof.
  apply clean_fixpoint.
  - apply clean_no_fence.
  - rewrite clean_gpt_artifacts_steps. unfold clean.
    apply strip_no_newlines3, cap_newlines_capped.
  - rewrite clean_gpt_artifacts_steps. apply strip_idem.
  - rewrite clean_gpt_artifacts_steps. unfold clean, strip.
    destruct (kept_text_opens (split_lines (strip_fences html))) as [->|[x ->]].
    + by left.
    + right. apply rstrip_keeps_head. reflexivity.
Qed.

End CleanMore.

(* ===================================================================== *)
(** * More on the services *)
(* ===================================================================== *)

Section ServiceMore.

Variable configs : Configs.
Variable base_html : str -> option str -> str -> str.

#[local] Arguments u : simpl never.
#[local] Arguments _clean_gpt_artifacts : simpl never.
#[local] Arguments strip : simpl never.
#[local] Arguments encode_utf8 : simpl never.
#[local] Arguments make_s3_key : simpl never.
#[local] Arguments get_public_url : simpl never.
#[local] Arguments system_prompt_for : simpl never.
#[local] Arguments s3_key_taken : simpl never.

(** Acquiring the body leaves the state alone and calls the model once
    (raw mode) or not at all (formatted mode). *)
Lemma acquire_body_calls (E : env) (d : HtmlGenerateSchema) (w : world) :
  exists r t,
    acquire_body configs E d w = (r, w, t)
    /\ (t = [] /\ content_mode d = FORMATTED
        \/ content_mode d = RAW
           /\ t = [ChatCompletion (OPENAI_MODEL configs)
                     (system_prompt_for (formatting_rules d) (lang d)) (raw_text d)
                     (chat_completions_create E (OPENAI_MODEL configs)
                        (system_prompt_for (formatting_rules d) (lang d))
                        (raw_text d))]).
Proof.
  unfold acquire_body. destruct (content_mode d).
  - eexists _, _. split; [reflexivity|]. by left.
  - unfold bind. rewrite format_text_run. cbv zeta.
    destruct (chat_completions_create E _ _ _) as [f|content];
      [|destruct (truthy (strip _)); [destruct (raw_text d)|]];
      (eexists _, _; split; [reflexivity|]; by right).
Qed.

(** Every run of [generate_html] ends in one of the six ways. *)
Lemma generate_html_ends_run (E : env) (d : HtmlGenerateSchema) (w : world) :
  generate_html_ends configs base_html E d w (generate_html configs base_html E d w).
Proof.
  rewrite generate_html_run.
  destruct (acquire_body_calls E d w) as (r & t & Hacq & _).
  rewrite Hacq. destruct r as [html_body|e]; [|by apply ends_in_acquire].
  rewrite publish_run.
  destruct (encode_utf8 _) as [page|] eqn:Hpage;
    [|rewrite app_nil_r; by eapply ends_in_encode].
  cbv zeta.
  destruct (put_object_fault E _ _ _ _) as [f|] eqn:Hput;
    [by eapply ends_in_upload|].
  rewrite create_run.
  destruct (flush_fault E _) as [f|] eqn:Hflush.
  { apply (ends_in_flush configs base_html E d w html_body t page _ Hacq Hpage Hput).
    left. by exists f. }
  destruct (_ || _) eqn:Htaken.
  { apply (ends_in_flush configs base_html E d w html_body t page _ Hacq Hpage Hput).
    right. by repeat split. }
  destruct (refresh_fault E _) as [f|] eqn:Hrefresh.
  - exact (ends_in_refresh configs base_html E d w html_body t page f
             Hacq Hpage Hput Hflush Htaken Hrefresh).
  - exact (ends_in_descriptor configs base_html E d w html_body t page
             Hacq Hpage Hput Hflush Htaken Hrefresh).
Qed.

Lemma acquire_body_trace (E : env) (d : HtmlGenerateSchema) (w : world)
    (r : result (option str)) (w' : world) (t : trace) :
  acquire_body configs E d w = (r, w', t) ->
  (length t <= 1)%nat /\ Forall (fun ev => is_chat ev = true) t.
Proof.
  destruct (acquire_body_calls E d w) as (r0 & t0 & H0 & Ht).
  intros H. rewrite H0 in H. assert (t = t0) as -> by congruence.
  destruct Ht as [[-> _]|[_ ->]]; split; simpl; repeat constructor.
Qed.

(** Case analysis on how the run of the goal ends. *)
Ltac by_ends E d w :=
  let Hends := fresh "Hends" in
  pose proof (generate_html_ends_run E d w) as Hends;
  let run := fresh "run" in
  set (run := generate_html configs base_html E d w) in *;
  clearbody run; destruct Hends.

(** X5. No step is retried and the order is fixed: a run of
    [generate_html] calls the model at most once, then uploads at most
    once, then issues at most one INSERT and one refresh; it calls nothing
    else (no delete, no select, no commit of its own). *)
Theorem generate_html_calls_in_order
    (E : env) (d : HtmlGenerateSchema) (w : world) :
  exists chat page uploaded inserted refreshed,
    (length chat <= 1)%nat
    /\ Forall (fun ev => is_chat ev = true) chat
    /\ calls (generate_html configs base_html E d w)
         `prefix_of` chat ++ [put_call configs E d page uploaded;
                              Flush (recorded configs E d) inserted;
                              Refresh (articles_id_seq w) refreshed].
Proof.
  by_ends E d w;
    match goal with
    | H : acquire_body _ _ _ _ = _ |- _ =>
      destruct (acquire_body_trace _ _ _ _ _ _ H) as [Hlen Hchat]
    end;
    run_simpl.
  - exists t, [], None, None, None. repeat split; [done..|].
    by apply prefix_app_r.
  - exists t, [], None, None, None. repeat split; [done..|].
    by apply prefix_app_r.
  - exists t, page, (Some f), None, None. repeat split; [done..|].
    apply prefix_app, prefix_cons, prefix_nil.
  - exists t, page, None, (Some cause), None. repeat split; [done..|].
    apply prefix_app, prefix_cons, prefix_cons, prefix_nil.
  - exists t, page, None, None, (Some f). by repeat split.
  - exists t, page, None, None, None. by repeat split.
Qed.

Lemma not_taken_fresh (key : str) (w : world) :
  s3_key_taken key (articles w)
    || bool_decide (is_Some (articles w !! articles_id_seq w)) = false ->
  articles w !! articles_id_seq w = None.
Proof.
  intros H. apply orb_false_elim in H as [_ H].
  apply bool_decide_eq_false in H.
  destruct (articles w !! articles_id_seq w); [|done].
  exfalso. apply H. by eexists.
Qed.


(** X7. [generate_html] never changes or removes what was there: whatever
    the outcome, every existing row is still in the table unchanged, only
    the next id of the sequence can be filled, only the object under the
    request's own key can change, and the sequence does not go back. *)
Theorem generate_html_keeps_existing
    (E : env) (d : HtmlGenerateSchema) (w : world) :
  (forall i a, articles w !! i = Some a ->
     articles (final (generate_html configs base_html E d w)) !! i = Some a)
  /\ (forall i, i <> articles_id_seq w ->
       articles (final (generate_html configs base_html E d w)) !! i
         = articles w !! i)
  /\ (forall k, k <> key_of E d ->
       bucket (final (generate_html configs base_html E d w)) !! k = bucket w !! k)
  /\ (articles_id_seq w
       <= articles_id_seq (final (generate_html configs base_html E d w)))%Z.
Proof.
  by_ends E d w; run_simpl;
    cbn [insert_row stored articles bucket articles_id_seq];
    (split; [|split; [|split]]); try done; try lia;
    try (intros k Hk; by rewrite lookup_insert_ne);
    try (intros i Hi; by rewrite lookup_insert_ne).
  - intros i a Hi. rewrite lookup_insert_ne; [done|].
    intros <-. erewrite not_taken_fresh in Hi; [done | eassumption].
  - intros i a Hi. rewrite lookup_insert_ne; [done|].
    intros <-. erewrite not_taken_fresh in Hi; [done | eassumption].
Qed.

(** X8. The POST endpoint is all or nothing on the table: when it
    raises, the table is what it was; when it returns a descriptor, the
    table is the old one with exactly one row added under a fresh id, the
    descriptor is read off that row, and the commit was the last call. *)
Theorem generate_html_article_is_atomic
    (E : env) (body : HtmlGenerateSchema) (w : world) :
  (forall e,
      outcome (generate_html_article configs base_html E body w) = Raise e ->
      articles (final (generate_html_article configs base_html E body w))
        = articles w)
  /\ (forall resp,
      outcome (generate_html_article configs base_html E body w) = Ok resp ->
      exists a t,
        articles (final (generate_html_article configs base_html E body w))
          = <[r_id resp := a]> (articles w)
        /\ articles w !! r_id resp = None
        /\ resp = response_of a
        /\ validate_content_fields body = Ok body
        /\ calls (generate_html_article configs base_html E body w)
             = t ++ [Commit None]).
Proof.
  unfold generate_html_article.
  destruct (validate_content_fields body) as [data|e0] eqn:Hv;
    [|split; [done | by intros resp [=]]].
  apply validate_content_fields_ok in Hv. subst data.
  unfold get_session.
  by_ends E body w; try destruct (commit_fault E); run_simpl;
    (split; [intros e0 He; try discriminate He; reflexivity
            |intros resp He; try discriminate He; injection He as <-]).
  eexists _, _.
  cbn [insert_row stored articles articles_id_seq response_of new_row r_id id].
  repeat split.
  match goal with
  | H : _ || _ = false |- _ => exact (not_taken_fresh _ w H)
  end.
Qed.

Lemma s3_key_not_taken (key : str) (t : gmap Z ArticleModel) (i : Z) (a : ArticleModel) :
  s3_key_taken key t = false -> t !! i = Some a -> s3_key a <> key.
Proof.
  unfold s3_key_taken. intros H Hi Hk.
  assert (existsb (fun kv => bool_decide (s3_key kv.2 = key)) (map_to_list t) = true)
    as Ht; [|congruence].
  apply existsb_exists. exists (i, a). split.
  - apply list_elem_of_In. by apply elem_of_map_to_list.
  - by apply bool_decide_eq_true.
Qed.

Lemma s3_key_is_taken (key : str) (t : gmap Z ArticleModel) (i : Z) (a : ArticleModel) :
  t !! i = Some a -> s3_key a = key -> s3_key_taken key t = true.
Proof.
  intros Hi Hk. destruct (s3_key_taken key t) eqn:Ht; [done|].
  by destruct (s3_key_not_taken key t i a Ht Hi).
Qed.

(** X10. A request whose key is already recorded never succeeds and adds
    no row, but by then the upload has happened: if it went through, the
    object under that key, the one the recorded row points to, has been
    overwritten with the new page. *)
Theorem recorded_key_is_overwritten
    (E : env) (d : HtmlGenerateSchema) (w : world) (i : Z) (a : ArticleModel) :
  articles w !! i = Some a ->
  s3_key a = key_of E d ->
  (forall resp, outcome (generate_html configs base_html E d w) <> Ok resp)
  /\ articles (final (generate_html configs base_html E d w)) = articles w
  /\ (forall page,
        In (put_call configs E d page None)
           (calls (generate_html configs base_html E d w)) ->
        bucket (final (generate_html configs base_html E d w)) !! s3_key a
          = Some (page, content_type_html)).
Proof.
  intros Hi Hk. pose proof (s3_key_is_taken _ _ _ _ Hi Hk) as Htaken.
  by_ends E d w;
    match goal with
    | H : acquire_body _ _ _ _ = _ |- _ =>
      destruct (acquire_body_trace _ _ _ _ _ _ H) as [_ Hchat]
    | _ => idtac
    end;
    run_simpl;
    try match goal with
        | H : _ || _ = false |- _ => rewrite Htaken in H; discriminate H
        end;
    (split; [done|]); (split; [done|]); intros page0 Hin;
    unfold put_call in Hin; in_trace Hin; try not_chat Hchat Hin;
    try discriminate Hin.
  injection Hin as <-. rewrite Hk. cbn [stored bucket]. apply lookup_insert_eq.
Qed.

Lemma acquire_body_raises (E : env) (d : HtmlGenerateSchema) (w w' : world)
    (e : exception) (t : trace) :
  acquire_body configs E d w = (Raise e, w', t) ->
  exc_class_of e = GPTFormattingError
  /\ exc_code e = Some (u "EXTERNAL_SERVICE_ERROR")
  /\ exists detail, exc_message e = u "Ошибка " ++ detail.
Proof.
  unfold acquire_body. destruct (content_mode d); [by intros [=]|].
  unfold bind. rewrite format_text_run. cbv zeta.
  destruct (chat_completions_create E _ _ _) as [f|content];
    [|destruct (truthy (strip _)); [destruct (raw_text d)|]];
    intros [= <- _ _]; repeat split; by eexists.
Qed.

(** X11. What [generate_html] raises is of two kinds.  Either it is a
    [GPTFormattingError] or an [S3UploadError], whose message starts with
    the service prefix and which the exception handler answers with status
    502 and code [EXTERNAL_SERVICE_ERROR]; or it is an exception of a
    library (encoding, database), which is no [AppException] and which the
    handler does not answer. *)
Theorem generate_html_errors_are_classified
    (E : env) (d : HtmlGenerateSchema) (w : world) (e : exception) :
  outcome (generate_html configs base_html E d w) = Raise e ->
  ((exc_class_of e = GPTFormattingError \/ exc_class_of e = S3UploadError)
   /\ Handlers.app_exception_handler e
        = Some {| Handlers.status_code := 502;
                  Handlers.error_code := u "EXTERNAL_SERVICE_ERROR";
                  Handlers.error_message := exc_message e |}
   /\ exists detail, exc_message e = u "Ошибка " ++ detail)
  \/ (is_app_class (exc_class_of e) = false
      /\ Handlers.app_exception_handler e = None).
Proof.
  by_ends E d w; run_simpl; intros [= <-].
  - match goal with
    | H : acquire_body _ _ _ _ = _ |- _ =>
      destruct (acquire_body_raises _ _ _ _ _ _ H) as (Hc & Hcode & Hm)
    end.
    left. split; [by left|]. split; [|done].
    unfold Handlers.app_exception_handler. rewrite Hcode. reflexivity.
  - right. by split.
  - left. split; [by right|]. split; [reflexivity|]. by eexists.
  - right.
    match goal with
    | H : _ \/ _ |- _ => destruct H as [(f & _ & ->)|(_ & _ & ->)]
    end; by split.
  - right. by split.
Qed.

(** X12. [format_text] makes exactly one call, to the model, with the
    configured model name, the system prompt and the raw text, and changes
    no state; what it returns is the cleaned answer of the model, which is
    not empty, opens with [<], holds no fence delimiter and is trimmed. *)
Theorem format_text_returns_clean_html
    (E : env) (raw_text rules : option str) (lang : str) (w : world) :
  calls (format_text configs E raw_text rules lang w)
    = [ChatCompletion (OPENAI_MODEL configs) (system_prompt_for rules lang) raw_text
         (chat_completions_create E (OPENAI_MODEL configs)
            (system_prompt_for rules lang) raw_text)]
  /\ final (format_text configs E raw_text rules lang w) = w
  /\ (forall body,
        outcome (format_text configs E raw_text rules lang w) = Ok body ->
        exists c rest,
          chat_completions_create E (OPENAI_MODEL configs)
            (system_prompt_for rules lang) raw_text = inr (Some c)
          /\ body = _clean_gpt_artifacts c
          /\ body = LT :: rest
          /\ contains_fence body = false
          /\ strip body = body).
Proof.
  rewrite format_text_run. cbv zeta.
  destruct (chat_completions_create E _ _ _) as [f|content];
    [by repeat split|].
  destruct (truthy (strip (_clean_gpt_artifacts (default [] content)))) eqn:Ht;
    [destruct raw_text|]; run_simpl; (split; [done|]); (split; [done|]);
    intros body [= <-].
  destruct content as [c|]; [|by vm_compute in Ht].
  change (default [] (Some c)) with c in *.
  assert (strip (_clean_gpt_artifacts c) = _clean_gpt_artifacts c) as Hs
    by (rewrite clean_gpt_artifacts_steps; apply strip_idem).
  rewrite Hs in Ht.
  assert (exists rest, _clean_gpt_artifacts c = LT :: rest) as [rest Hrest].
  { revert Ht. rewrite clean_gpt_artifacts_steps. unfold clean, strip.
    destruct (kept_text_opens (split_lines (strip_fences c))) as [->|[x ->]];
      [by vm_compute|].
    intros _. apply rstrip_keeps_head. reflexivity. }
  exists c, rest. repeat split; [done | apply clean_no_fence | done].
Qed.

(** *** Decimal numerals *)

Lemma int_of_dec_digits (fuel : nat) (n : N) (acc : str) :
  n < 10 ^ N.of_nat fuel ->
  fold_left (fun a c => 10 * a + (c - 48)) (PyInt.dec_digits fuel n acc) 0
  = fold_left (fun a c => 10 * a + (c - 48)) acc n.
Proof.
  revert n acc. induction fuel as [|fuel IH]; intros n acc Hn.
  - simpl in *. by replace n with 0 by lia.
  - cbn [PyInt.dec_digits]. destruct (n =? 0) eqn:Hz.
    + apply N.eqb_eq in Hz. by subst.
    + rewrite IH.
      * cbn [fold_left]. f_equal.
        rewrite (N.add_comm 48), N.add_sub. symmetry. by apply N.div_mod.
      * apply N.Div0.div_lt_upper_bound.
        rewrite Nat2N.inj_succ, N.pow_succ_r' in Hn. lia.
Qed.

Lemma dec_digits_head (fuel : nat) (n : N) (acc : str) :
  match acc with [] => True | c :: _ => (c =? 45) = false end ->
  match PyInt.dec_digits fuel n acc with
  | [] => True
  | c :: _ => (c =? 45) = false
  end.
Proof.
  revert n acc. induction fuel as [|fuel IH]; intros n acc Hacc; [done|].
  cbn [PyInt.dec_digits]. destruct (n =? 0); [done|].
  apply IH. apply N.eqb_neq. generalize (n `mod` 10). intros m. lia.
Qed.

Lemma int_of_str_of_N (p : positive) :
  PyInt.int_of_digits (PyInt.str_of_N (Npos p)) = Npos p
  /\ match PyInt.str_of_N (Npos p) with
     | [] => False
     | c :: _ => (c =? 45) = false
     end.
Proof.
  unfold PyInt.str_of_N, PyInt.int_of_digits.
  change (N.pos p =? 0) with false. cbv iota.
  assert (N.pos p < 10 ^ N.of_nat (N.to_nat (N.size (N.pos p)))) as Hfuel.
  { rewrite N2Nat.id. pose proof (N.size_gt (N.pos p)) as Hs.
    assert (2 ^ N.size (N.pos p) <= 10 ^ N.size (N.pos p))
      by (apply N.pow_le_mono_l; lia).
    lia. }
  split; [by rewrite int_of_dec_digits|].
  pose proof (int_of_dec_digits _ _ [] Hfuel) as Hv.
  pose proof (dec_digits_head (N.to_nat (N.size (N.pos p))) (N.pos p) [] I) as Hh.
  destruct (PyInt.dec_digits _ _ _); [simpl in Hv; lia | exact Hh].
Qed.

(** The numeral of an [int] reads back as that [int]. *)
Lemma int_of_str_of_int (z : Z) : PyInt.int_of_str (PyInt.str_of_int z) = z.
Proof.
  destruct z as [|p|p]; [reflexivity|..]; cbn [PyInt.str_of_int].
  - destruct (int_of_str_of_N p) as [Hv Hh]. unfold PyInt.int_of_str.
    destruct (PyInt.str_of_N (N.pos p)) as [|c s]; [done|].
    rewrite Hh, Hv. reflexivity.
  - destruct (int_of_str_of_N p) as [Hv _]. unfold PyInt.int_of_str.
    change (45 =? 45) with true. cbv iota. rewrite Hv. reflexivity.
Qed.

(** *** The GET endpoint *)

Lemma rolled_back_same (w : world) : rolled_back w w = w.
Proof. by destruct w. Qed.

(** X13. [GET /api/v1/html/{id}] for an id that is not in the table
    raises [ArticleNotFoundError], which the handler answers with status
    404 and code [NOT_FOUND]; the message names the requested id (its
    numeral reads back as the id); one select was made, the session was
    rolled back, and the state is as before. *)
Theorem get_html_article_not_found (E : env) (article_id : Z) (w : world) :
  select_fault E article_id = None ->
  articles w !! article_id = None ->
  get_html_article E article_id w
    = (Raise (Handlers.new_ArticleNotFoundError article_id), w,
       [SelectById article_id None; Rollback])
  /\ exc_class_of (Handlers.new_ArticleNotFoundError article_id) = ArticleNotFoundError
  /\ exc_message (Handlers.new_ArticleNotFoundError article_id)
       = u "Article с ID " ++ PyInt.str_of_int article_id ++ u " не найден"
  /\ PyInt.int_of_str (PyInt.str_of_int article_id) = article_id
  /\ Handlers.app_exception_handler (Handlers.new_ArticleNotFoundError article_id)
       = Some {| Handlers.status_code := 404;
                 Handlers.error_code := u "NOT_FOUND";
                 Handlers.error_message :=
                   exc_message (Handlers.new_ArticleNotFoundError article_id) |}.
Proof.
  intros Hsel Hmiss. split; [|split; [reflexivity|split; [|split]]].
  - unfold get_html_article, get_session, bind, get_article, get_by_id.
    rewrite Hsel, Hmiss. unfold raise. cbn [app].
    by rewrite rolled_back_same.
  - reflexivity.
  - apply int_of_str_of_int.
  - reflexivity.
Qed.

(** X14. A descriptor returned by the POST endpoint is returned again,
    field for field, by the GET endpoint for its [id], run in the state
    the POST left (as long as the select and the commit go through). *)
Theorem post_then_get_same_descriptor
    (E : env) (d : HtmlGenerateSchema) (w : world) (resp : ArticleResponseSchema)
    (E2 : env) :
  outcome (generate_html_article configs base_html E d w) = Ok resp ->
  select_fault E2 (r_id resp) = None ->
  commit_fault E2 = None ->
  outcome (get_html_article E2 (r_id resp)
             (final (generate_html_article configs base_html E d w)))
    = Ok resp.
Proof.
  unfold generate_html_article.
  destruct (validate_content_fields d) as [data|e0] eqn:Hv; [|by intros [=]].
  apply validate_content_fields_ok in Hv. subst data.
  unfold get_html_article, get_session.
  by_ends E d w; try destruct (commit_fault E); run_simpl;
    intros He; try discriminate He; injection He as <-.
  intros Hsel Hcommit.
  unfold bind, get_article, get_by_id.
  cbn [response_of new_row r_id id] in *. rewrite Hsel.
  cbn [insert_row articles]. rewrite lookup_insert_eq.
  unfold ret. rewrite Hcommit. reflexivity.
Qed.

(** *** The repository *)

(** X15. When [create] returns a row, the row carries the given fields,
    the id it got is the next of the sequence and was free, no other row
    had its [s3_key], [get_by_id] finds exactly this row under its id, and
    every other id reads as before. *)
Theorem create_then_get_by_id
    (E : env) (kw : article_kwargs) (w : world) (a : ArticleModel) :
  outcome (create E kw w) = Ok a ->
  a = new_row E kw w
  /\ id a = articles_id_seq w
  /\ articles w !! id a = None
  /\ (forall i b, articles w !! i = Some b -> s3_key b <> k_s3_key kw)
  /\ (forall E2, select_fault E2 (id a) = None ->
        outcome (get_by_id E2 (id a) (final (create E kw w))) = Ok (Some a))
  /\ (forall E2 i, i <> id a ->
        outcome (get_by_id E2 i (final (create E kw w)))
          = outcome (get_by_id E2 i w)).
Proof.
  rewrite create_run.
  destruct (flush_fault E kw); [by intros [=]|].
  destruct (_ || _) eqn:Hfree; [by intros [=]|].
  destruct (refresh_fault E _); [by intros [=]|].
  run_simpl. intros [= <-]. cbn [new_row id].
  pose proof (not_taken_fresh _ _ Hfree) as Hfresh.
  apply orb_false_elim in Hfree as [Htaken _].
  split; [done|]. split; [done|]. split; [done|].
  split; [intros i b Hi; by eapply s3_key_not_taken|].
  split.
  - intros E2 Hsel. unfold get_by_id. rewrite Hsel.
    cbn [insert_row articles outcome fst]. by rewrite lookup_insert_eq.
  - intros E2 i Hi. unfold get_by_id.
    destruct (select_fault E2 i); [done|].
    cbn [insert_row articles outcome fst]. by rewrite lookup_insert_ne.
Qed.

(** X16. [BaseRepository.delete] answers [True] exactly when a row with
    that id existed; afterwards no row has the id, every other row is
    untouched, and the bucket is untouched too: the page of a deleted
    article stays in the store.  Deleting the row that [create] just
    returned gives the table back as it was. *)
Theorem delete_removes_the_row_only
    (R : Repository.repo_env) (row_id : Z) (w : world) :
  Repository.delete_fault R row_id = None ->
  (Repository.delete R row_id w).1
    = Ok (bool_decide (is_Some (articles w !! row_id)))
  /\ articles (Repository.delete R row_id w).2 !! row_id = None
  /\ (forall i, i <> row_id ->
        articles (Repository.delete R row_id w).2 !! i = articles w !! i)
  /\ bucket (Repository.delete R row_id w).2 = bucket w
  /\ (forall E kw a,
        outcome (create E kw w) = Ok a ->
        Repository.delete_fault R (id a) = None ->
        (Repository.delete R (id a) (final (create E kw w))).1 = Ok true
        /\ articles (Repository.delete R (id a) (final (create E kw w))).2
             = articles w).
Proof.
  intros Hdel. unfold Repository.delete. rewrite Hdel. cbn [fst snd articles bucket].
  split; [done|]. split; [apply lookup_delete_eq|].
  split; [intros i Hi; by apply lookup_delete_ne|]. split; [done|].
  intros E kw a. rewrite create_run.
  destruct (flush_fault E kw); [by intros [=]|].
  destruct (_ || _) eqn:Hfree; [by intros [=]|].
  destruct (refresh_fault E _); [by intros [=]|].
  run_simpl. intros [= <-]. cbn [new_row id]. intros ->.
  cbn [fst snd insert_row articles].
  pose proof (not_taken_fresh _ _ Hfree) as Hfresh.
  split.
  - rewrite lookup_insert_eq. reflexivity.
  - rewrite delete_insert_eq. by apply delete_id.
Qed.

End ServiceMore.

(* ===================================================================== *)
(** * More on the store *)
(* ===================================================================== *)

Section StorageMore.

Variable configs : Configs.

#[local] Arguments u : simpl never.

(** X17. [delete_file] returns [True] exactly when the client was
    created, the object deleted and the client closed; it returns [False]
    when the step that decides raised an instance of [Exception], and it
    raises exactly when that step raised a [BaseException] that is none
    (a cancellation passes through [except Exception]).  The object is
    removed exactly when the client was created and [delete_object] went
    through, whatever the result: [False] is also returned after a
    deletion, when closing the client fails.  [delete_object] is called at
    most once and not at all when no client could be created; no other
    object and no row is touched. *)
Theorem delete_file_outcomes (C : Storage.client_env) (key : str) (w : world) :
  let run := Storage.delete_file C configs key w in
  let removed :=
    bool_decide (Storage.create_client_raises C = None
                 /\ Storage.delete_object_raises C (S3_BUCKET_NAME configs) key = None) in
  (run.1.1 = Ok true <-> Storage.deciding C configs key = None)
  /\ (run.1.1 = Ok false <->
        exists f, Storage.deciding C configs key = Some (Storage.AnException f))
  /\ ((exists e, run.1.1 = Raise e) <->
        exists f, Storage.deciding C configs key = Some (Storage.ABaseException f))
  /\ bucket run.1.2
       = (if removed then base.delete key (bucket w) else bucket w)
  /\ articles run.1.2 = articles w
  /\ articles_id_seq run.1.2 = articles_id_seq w
  /\ (length (List.filter Storage.is_delete_call run.2)
       = if bool_decide (Storage.create_client_raises C = None) then 1 else 0)%nat
  /\ (forall k, k <> key -> bucket run.1.2 !! k = bucket w !! k).
Proof.
  cbv zeta. unfold Storage.delete_file, Storage.delete_in_session, Storage.deciding.
  destruct (Storage.create_client_raises C) as [[f|f]|];
    [| |destruct (Storage.delete_object_raises C _ key) as [[f1|f1]|];
         destruct (Storage.close_raises C) as [[f2|f2]|]];
    cbn [fst snd bucket articles articles_id_seq List.filter Storage.is_delete_call
         length];
    split_and!; try done;
    try (split; [by intros [=] | by intros [=]]);
    try (split; [by intros [=] | by intros [? [=]]]);
    try (split; [by intros [? [=]] | by intros [? [=]]]);
    try (split; [intros _; by eexists | done]);
    try (split; [intros _; by eexists | intros _; by eexists]);
    try (rewrite bool_decide_eq_true_2 by done; done);
    try (rewrite bool_decide_eq_false_2 by (by intros [? ?]); done);
    try (intros k Hk; by rewrite ?lookup_delete_ne).
Qed.

(** X18. Uploading under a key that is free and then deleting the key
    gives the state back; uploading twice under one key keeps the second
    body only. *)
Theorem upload_then_delete_restores
    (E : env) (key : str) (content : bytes) (ct : str) (w : world) (url : str) :
  outcome (upload_file configs E key content ct w) = Ok url ->
  (forall E2,
      bucket w !! key = None ->
      delete_object_fault E2 (S3_BUCKET_NAME configs) key = None ->
      final (delete_file configs E2 key
               (final (upload_file configs E key content ct w))) = w)
  /\ (forall E2 content2 ct2 url2,
      outcome (upload_file configs E2 key content2 ct2
                 (final (upload_file configs E key content ct w))) = Ok url2 ->
      url2 = url
      /\ final (upload_file configs E2 key content2 ct2
                  (final (upload_file configs E key content ct w)))
         = final (upload_file configs E2 key content2 ct2 w)).
Proof.
  rewrite upload_file_run. cbv zeta.
  destruct (put_object_fault E _ key content ct); [by intros [=]|].
  run_simpl. intros [= <-]. split.
  - intros E2 Hfree Hdel.
    unfold delete_file, try_except, bind, delete_object, ret. rewrite Hdel.
    run_simpl. unfold stored. cbn [bucket articles articles_id_seq].
    rewrite delete_insert_eq, delete_id by done. by destruct w.
  - intros E2 content2 ct2 url2. rewrite !upload_file_run. cbv zeta.
    destruct (put_object_fault E2 _ key content2 ct2); [by intros [=]|].
    run_simpl. intros [= <-]. split; [done|].
    unfold stored. cbn [bucket articles articles_id_seq].
    by rewrite insert_insert_eq.
Qed.

Lemma rstrip_slash_slashes (n : nat) : rstrip_slash (replicate n SLASH) = [].
Proof. induction n as [|n IH]; [done|]. simpl. by rewrite IH. Qed.

Lemma rstrip_slash_app (b : str) (n : nat) :
  rstrip_slash (b ++ replicate n SLASH) = rstrip_slash b.
Proof.
  induction b as [|c b IH]; [apply rstrip_slash_slashes|].
  cbn [app rstrip_slash]. by rewrite IH.
Qed.

Lemma rstrip_slash_last (s b : str) : rstrip_slash s <> b ++ [SLASH].
Proof.
  revert b. induction s as [|c s IH]; intros b; [by destruct b|].
  cbn [rstrip_slash]. destruct (rstrip_slash s) as [|c' r] eqn:Hr.
  - destruct (c =? SLASH) eqn:Hc; [by destruct b|].
    destruct b as [|c2 [|c3 b]]; try done.
    intros [= ->]. by rewrite N.eqb_refl in Hc.
  - destruct b as [|c2 b]; [done|]. intros [= -> Hb]. by apply (IH b).
Qed.

Lemma get_public_url_inj (key1 key2 : str) :
  get_public_url configs key1 = get_public_url configs key2 -> key1 = key2.
Proof.
  unfold get_public_url. destruct (truthy (S3_PUBLIC_URL configs)).
  - intros H. by apply app_inv_head in H as [= ->]%app_inv_head.
  - rewrite !(app_assoc (rstrip_slash _)), !(app_assoc _ (S3_BUCKET_NAME _)).
    intros H. by apply app_inv_head in H as [= ->]%app_inv_head.
Qed.

(** X19. Different keys have different public URLs, and the URL ends
    with ["/" + key].  When [S3_PUBLIC_URL] is set, the part before that
    does not end with a slash, and neither the endpoint nor the bucket name
    is part of the URL. *)
Theorem public_url_is_injective (key1 key2 : str) :
  (get_public_url configs key1 = get_public_url configs key2 -> key1 = key2)
  /\ (exists base, get_public_url configs key1 = base ++ SLASH :: key1
        /\ get_public_url configs key2 = base ++ SLASH :: key2
        /\ (truthy (S3_PUBLIC_URL configs) = true ->
              base = rstrip_slash (S3_PUBLIC_URL configs)
              /\ forall b, base <> b ++ [SLASH])).
Proof.
  split; [apply get_public_url_inj|].
  unfold get_public_url. change (u "/") with [SLASH].
  destruct (truthy (S3_PUBLIC_URL configs)).
  - eexists. split; [reflexivity|]. split; [reflexivity|].
    intros _. split; [done|]. intros b. apply rstrip_slash_last.
  - exists (rstrip_slash (S3_ENDPOINT configs) ++ [SLASH] ++ S3_BUCKET_NAME configs).
    rewrite <- !app_assoc. split; [done|]. split; [done|]. by intros [=].
Qed.

(** X20. Trailing slashes of the configured base do not matter: two
    settings that differ only in the number of slashes at the end of
    [S3_PUBLIC_URL] (when it is set), or of [S3_ENDPOINT] (when it is not),
    give every key the same URL. *)
Theorem public_url_ignores_trailing_slashes
    (configs2 : Configs) (n : nat) (key : str) :
  (truthy (S3_PUBLIC_URL configs) = true
   /\ S3_PUBLIC_URL configs2 = S3_PUBLIC_URL configs ++ replicate n SLASH)
  \/ (S3_PUBLIC_URL configs = [] /\ S3_PUBLIC_URL configs2 = []
      /\ S3_ENDPOINT configs2 = S3_ENDPOINT configs ++ replicate n SLASH
      /\ S3_BUCKET_NAME configs2 = S3_BUCKET_NAME configs) ->
  get_public_url configs2 key = get_public_url configs key.
Proof.
  unfold get_public_url.
  intros [[Hset ->]|(Hnone & -> & -> & ->)].
  - rewrite Hset, rstrip_slash_app.
    destruct (S3_PUBLIC_URL configs); [done|reflexivity].
  - rewrite Hnone. cbn [truthy]. by rewrite rstrip_slash_app.
Qed.

(** X21. Two requests get the same key exactly when they have the same
    article type and draw the same UUID, and the same public URL exactly
    when they get the same key. *)
Theorem key_of_is_injective
    (E1 E2 : env) (d1 d2 : HtmlGenerateSchema) :
  (key_of E1 d1 = key_of E2 d2
   <-> article_type d1 = article_type d2
       /\ Uuid.uuid4 (urandom16 E1) = Uuid.uuid4 (urandom16 E2))
  /\ (get_public_url configs (key_of E1 d1) = get_public_url configs (key_of E2 d2)
      <-> key_of E1 d1 = key_of E2 d2).
Proof.
  split.
  - unfold key_of, file_id_of. split.
    + intros H. apply make_s3_key_inj in H as [Ht Hf].
      * split; [done|]. by rewrite <- (unhex_hex (Uuid.uuid4 (urandom16 E1))),
          Hf, unhex_hex.
      * destruct (hex_shape _ (uuid4_128_bit (urandom16 E1))) as [-> _].
        by destruct (hex_shape _ (uuid4_128_bit (urandom16 E2))) as [-> _].
    + by intros [-> ->].
  - split; [|by intros ->].
    apply get_public_url_inj.
Qed.

End StorageMore.

(* ===================================================================== *)
(** * The bucket at start-up *)
(* ===================================================================== *)

Section BucketMore.

Variable configs : Configs.

#[local] Arguments u : simpl never.
#[local] Arguments Storage.public_read_policy : simpl never.
#[local] Arguments Storage.policy_before : simpl never.
#[local] Arguments Storage.policy_after : simpl never.

(** X22. A run of [ensure_bucket] that returns leaves the bucket in
    place; if the bucket was missing it now carries the public-read policy
    of its own name; no other bucket is touched; and running it again
    against a store that answers only asks [head_bucket] and changes
    nothing. *)
Theorem ensure_bucket_is_idempotent
    (A : Storage.admin_env) (s s' : Storage.buckets)
    (evs : list Storage.admin_event) :
  Storage.ensure_bucket A configs s = (Ok tt, s', evs) ->
  is_Some (s' !! S3_BUCKET_NAME configs)
  /\ (s !! S3_BUCKET_NAME configs = None ->
        s' = <[S3_BUCKET_NAME configs :=
                 Some (Storage.public_read_policy (S3_BUCKET_NAME configs))]> s)
  /\ (forall other, other <> S3_BUCKET_NAME configs -> s' !! other = s !! other)
  /\ (forall A2,
        Storage.head_bucket_fault A2 (S3_BUCKET_NAME configs) = None ->
        Storage.ensure_bucket A2 configs s'
          = (Ok tt, s', [Storage.HeadBucket (S3_BUCKET_NAME configs) None])).
Proof.
  unfold Storage.buckets in *. set (name := S3_BUCKET_NAME configs).
  assert (forall t : gmap str (option str), is_Some (t !! name) ->
            forall A2, Storage.head_bucket_fault A2 name = None ->
            Storage.ensure_bucket A2 configs t
              = (Ok tt, t, [Storage.HeadBucket name None])) as Hagain.
  { intros t [p Hp] A2 HA2.
    unfold Storage.ensure_bucket, Storage.head_bucket, Storage.buckets.
    fold name. cbv zeta. by rewrite HA2, Hp. }
  unfold Storage.ensure_bucket, Storage.head_bucket, Storage.create_bucket,
    Storage.put_bucket_policy, Storage.buckets. fold name. cbv zeta.
  destruct (Storage.head_bucket_fault A name) as [[f|f]|] eqn:Hhead.
  - destruct (Storage.create_bucket_fault A name); [by intros [=]|].
    destruct (s !! name) as [p|] eqn:Hs.
    + destruct (Storage.put_bucket_policy_fault A name _); [by intros [=]|].
      rewrite Hs. intros [= <- <-].
      assert (is_Some (<[name := Some (Storage.public_read_policy name)]> s !! name))
        as Hin by (rewrite lookup_insert_eq; by eexists).
      split; [done|]. split; [done|].
      split; [intros other Ho; by rewrite lookup_insert_ne|]. by apply Hagain.
    + destruct (Storage.put_bucket_policy_fault A name _); [by intros [=]|].
      rewrite lookup_insert_eq. intros [= <- <-]. rewrite insert_insert_eq.
      assert (is_Some (<[name := Some (Storage.public_read_policy name)]> s !! name))
        as Hin by (rewrite lookup_insert_eq; by eexists).
      split; [done|]. split; [done|].
      split; [intros other Ho; by rewrite lookup_insert_ne|]. by apply Hagain.
  - by intros [=].
  - destruct (s !! name) as [p|] eqn:Hs.
    + intros [= <- <-]. split; [by eexists|]. split; [done|]. split; [done|].
      apply Hagain. by eexists.
    + destruct (Storage.create_bucket_fault A name); [by intros [=]|].
      destruct (Storage.put_bucket_policy_fault A name _); [by intros [=]|].
      rewrite lookup_insert_eq. intros [= <- <-]. rewrite insert_insert_eq.
      assert (is_Some (<[name := Some (Storage.public_read_policy name)]> s !! name))
        as Hin by (rewrite lookup_insert_eq; by eexists).
      split; [done|]. split; [done|].
      split; [intros other Ho; by rewrite lookup_insert_ne|]. by apply Hagain.
Qed.

(** X23. The policy is not retried.  If the bucket is missing, is
    created, and [put_bucket_policy] then fails, the start-up raises the
    store's error (with the [head_bucket] error as context) and the bucket
    stays behind without a policy; a later start against a store that
    answers finds it with [head_bucket], returns, and leaves it without the
    policy. *)
Theorem failed_policy_is_never_set
    (A : Storage.admin_env) (s : Storage.buckets) (f : fault)
    (e : Storage.s3_error) :
  s !! S3_BUCKET_NAME configs = None ->
  Storage.head_bucket A (S3_BUCKET_NAME configs) s = Some (Storage.ClientError f) ->
  Storage.create_bucket_fault A (S3_BUCKET_NAME configs) = None ->
  Storage.put_bucket_policy_fault A (S3_BUCKET_NAME configs)
    (Storage.public_read_policy (S3_BUCKET_NAME configs)) = Some e ->
  Storage.startup_event A configs s
    = (Raise (with_context (Storage.s3_exception e) (raise_fault f)),
       <[S3_BUCKET_NAME configs := None]> s,
       [Storage.HeadBucket (S3_BUCKET_NAME configs) (Some (Storage.ClientError f));
        Storage.CreateBucket (S3_BUCKET_NAME configs) None;
        Storage.PutBucketPolicy (S3_BUCKET_NAME configs)
          (Storage.public_read_policy (S3_BUCKET_NAME configs)) (Some e)])
  /\ (forall A2,
        Storage.head_bucket_fault A2 (S3_BUCKET_NAME configs) = None ->
        Storage.startup_event A2 configs (<[S3_BUCKET_NAME configs := None]> s)
          = (Ok tt, <[S3_BUCKET_NAME configs := None]> s,
             [Storage.HeadBucket (S3_BUCKET_NAME configs) None])).
Proof.
  unfold Storage.buckets in *.
  set (name := S3_BUCKET_NAME configs). intros Hs Hhead Hcreate Hput.
  unfold Storage.startup_event, Storage.ensure_bucket. fold name. cbv zeta.
  split.
  - rewrite Hhead.
    unfold Storage.create_bucket, Storage.put_bucket_policy, Storage.buckets.
    by rewrite Hcreate, Hs, Hput.
  - intros A2 HA2. unfold Storage.head_bucket, Storage.buckets.
    by rewrite HA2, lookup_insert_eq.
Qed.


Lemma json_plain_chars (s : str) :
  Forall (fun c => Chars.json_plain c = true) s ->
  concat (map Storage.json_escape_char s) = s.
Proof.
  induction 1 as [|c s Hc _ IH]; [done|].
  cbn [map concat]. rewrite IH.
  unfold Chars.json_plain in Hc.
  apply andb_prop in Hc as [Hc Hb]. apply andb_prop in Hc as [Hc Hq].
  apply negb_true_iff in Hb, Hq.
  unfold Storage.json_escape_char. rewrite Hb, Hq, Hc.
  apply andb_prop in Hc as [Hlo Hhi]. apply N.leb_le in Hlo.
  assert ((c =? 8) = false) as -> by (apply N.eqb_neq; lia).
  assert ((c =? 12) = false) as -> by (apply N.eqb_neq; lia).
  assert ((c =? 10) = false) as -> by (apply N.eqb_neq; lia).
  assert ((c =? 13) = false) as -> by (apply N.eqb_neq; lia).
  assert ((c =? 9) = false) as -> by (apply N.eqb_neq; lia).
  reflexivity.
Qed.

(** X25. For bucket names of printable ASCII without quote and backslash
    (every valid S3 bucket name is one), the policy sent is one fixed
    text around the name, which is written into it as it is, and the
    resource it opens is [arn:aws:s3:::<name>/*]: the objects of this
    bucket and of no other. *)
Theorem policy_names_the_bucket (name : str) :
  Forall (fun c => Chars.json_plain c = true) name ->
  Storage.json_str (u "arn:aws:s3:::" ++ name ++ u "/*")
    = Storage.QUOTE :: u "arn:aws:s3:::" ++ name ++ u "/*" ++ [Storage.QUOTE]
  /\ Storage.public_read_policy name
      = (Storage.policy_before ++ Storage.QUOTE :: u "arn:aws:s3:::")
          ++ name
          ++ (u "/*" ++ [Storage.QUOTE] ++ Storage.policy_after).
Proof.
  intros Hname.
  assert (Storage.json_str (u "arn:aws:s3:::" ++ name ++ u "/*")
          = Storage.QUOTE :: u "arn:aws:s3:::" ++ name ++ u "/*" ++ [Storage.QUOTE])
    as Hres.
  { unfold Storage.json_str. rewrite json_plain_chars; [by rewrite <- !app_assoc|].
    apply Forall_app. split; [by vm_compute; repeat constructor|].
    apply Forall_app. split; [done | by vm_compute; repeat constructor]. }
  split; [exact Hres|].
  unfold Storage.public_read_policy. rewrite Hres.
  generalize Storage.policy_before, Storage.policy_after,
    (u "arn:aws:s3:::"), (u "/*"), Storage.QUOTE.
  intros before after arn rest q.
  rewrite <- !app_assoc. cbn [app]. by rewrite <- !app_assoc.
Qed.

End BucketMore.

(* ===================================================================== *)
(** * The page as bytes *)
(* ===================================================================== *)

Section PageMore.

Variable configs : Configs.
Variable base_html : str -> option str -> str -> str.



End PageMore.

(* ===================================================================== *)
(** * More scenarios, run *)
(* ===================================================================== *)

Section MoreScenarioFacts.

Import Scenarios.
Import Cases.


(** A second vacancy request that draws the same UUID. *)
Lemma recorded_key_is_overwritten_witness :
  articles after_vacancy !! 1%Z = Some vacancy_row
  /\ s3_key vacancy_row = key_of healthy other_vacancy
  /\ articles (final (generate_html configs base_html healthy other_vacancy
                        after_vacancy))
       = articles after_vacancy.
Proof.
  assert (H1 : articles after_vacancy !! 1%Z = Some vacancy_row)
    by (vm_compute; reflexivity).
  assert (H2 : s3_key vacancy_row = key_of healthy other_vacancy)
    by (vm_compute; reflexivity).
  split; [exact H1|]. split; [exact H2|].
  destruct (recorded_key_is_overwritten configs base_html healthy other_vacancy
              after_vacancy 1%Z vacancy_row H1 H2) as (_ & Ha & _).
  exact Ha.
Defined.

(** The store is down: the error is answered with 502. *)
Lemma generate_html_errors_are_classified_witness :
  outcome (generate_html configs base_html store_down vacancy empty_world)
    = Raise (upload_error (key_of store_down vacancy) connection_refused)
  /\ Handlers.app_exception_handler
       (upload_error (key_of store_down vacancy) connection_refused)
     = Some {| Handlers.status_code := 502;
               Handlers.error_code := u "EXTERNAL_SERVICE_ERROR";
               Handlers.error_message :=
                 exc_message (upload_error (key_of store_down vacancy)
                                connection_refused) |}.
Proof.
  assert (H : outcome (generate_html configs base_html store_down vacancy empty_world)
              = Raise (upload_error (key_of store_down vacancy) connection_refused))
    by (vm_compute; reflexivity).
  split; [exact H|].
  destruct (generate_html_errors_are_classified configs base_html store_down vacancy
              empty_world _ H) as [(_ & Hh & _)|(Happ & _)].
  - exact Hh.
  - vm_compute in Happ. discriminate Happ.
Defined.

(** Article 7 of an empty table. *)
Lemma get_html_article_not_found_witness :
  select_fault healthy 7%Z = None
  /\ articles empty_world !! 7%Z = None
  /\ get_html_article healthy 7%Z empty_world
       = (Raise (Handlers.new_ArticleNotFoundError 7%Z), empty_world,
          [SelectById 7%Z None; Rollback]).
Proof.
  assert (H1 : select_fault healthy 7%Z = None) by reflexivity.
  assert (H2 : articles empty_world !! 7%Z = None) by (vm_compute; reflexivity).
  split; [exact H1|]. split; [exact H2|].
  destruct (get_html_article_not_found healthy 7%Z empty_world H1 H2) as (Hrun & _).
  exact Hrun.
Defined.

(** The vacancy is posted and then read. *)
Lemma post_then_get_same_descriptor_witness :
  outcome (generate_html_article configs base_html healthy vacancy empty_world)
    = Ok vacancy_response
  /\ select_fault healthy (r_id vacancy_response) = None
  /\ commit_fault healthy = None
  /\ outcome (get_html_article healthy (r_id vacancy_response)
                (final (generate_html_article configs base_html healthy vacancy
                          empty_world)))
       = Ok vacancy_response.
Proof.
  assert (H : outcome (generate_html_article configs base_html healthy vacancy
                         empty_world) = Ok vacancy_response)
    by (vm_compute; reflexivity).
  split; [exact H|]. split; [reflexivity|]. split; [reflexivity|].
  exact (post_then_get_same_descriptor configs base_html healthy vacancy empty_world
           vacancy_response healthy H eq_refl eq_refl).
Defined.

(** The vacancy's row, created in the empty table. *)
Lemma create_then_get_by_id_witness :
  outcome (create healthy (recorded configs healthy vacancy) empty_world)
    = Ok vacancy_row
  /\ id vacancy_row = articles_id_seq empty_world
  /\ articles empty_world !! id vacancy_row = None.
Proof.
  assert (H : outcome (create healthy (recorded configs healthy vacancy) empty_world)
              = Ok vacancy_row)
    by (vm_compute; reflexivity).
  split; [exact H|].
  destruct (create_then_get_by_id healthy (recorded configs healthy vacancy)
              empty_world vacancy_row H) as (_ & Hid & Hfree & _).
  split; [exact Hid | exact Hfree].
Defined.

(** The vacancy's row is deleted; its page stays. *)
Lemma delete_removes_the_row_only_witness :
  Repository.delete_fault repo_healthy 1%Z = None
  /\ (Repository.delete repo_healthy 1%Z after_vacancy).1
       = Ok (bool_decide (is_Some (articles after_vacancy !! 1%Z)))
  /\ articles (Repository.delete repo_healthy 1%Z after_vacancy).2 !! 1%Z = None
  /\ bucket (Repository.delete repo_healthy 1%Z after_vacancy).2
       = bucket after_vacancy.
Proof.
  assert (H : Repository.delete_fault repo_healthy 1%Z = None) by reflexivity.
  split; [exact H|].
  destruct (delete_removes_the_row_only repo_healthy 1%Z after_vacancy H)
    as (Hr & Hgone & _ & Hb & _).
  split; [exact Hr|]. split; [exact Hgone | exact Hb].
Defined.

(** The vacancy's page is uploaded to the empty bucket. *)
Lemma upload_then_delete_restores_witness :
  outcome (upload_file configs healthy (key_of healthy vacancy) vacancy_page
             content_type_html empty_world)
    = Ok (get_public_url configs (key_of healthy vacancy))
  /\ (bucket empty_world !! key_of healthy vacancy = None ->
      delete_object_fault healthy (S3_BUCKET_NAME configs) (key_of healthy vacancy)
        = None ->
      final (delete_file configs healthy (key_of healthy vacancy)
               (final (upload_file configs healthy (key_of healthy vacancy)
                         vacancy_page content_type_html empty_world)))
        = empty_world).
Proof.
  assert (H : outcome (upload_file configs healthy (key_of healthy vacancy)
                         vacancy_page content_type_html empty_world)
              = Ok (get_public_url configs (key_of healthy vacancy)))
    by (vm_compute; reflexivity).
  split; [exact H|].
  destruct (upload_then_delete_restores configs healthy (key_of healthy vacancy)
              vacancy_page content_type_html empty_world _ H) as (Hback & _).
  exact (Hback healthy).
Defined.

(** One slash or three at the end of the public base. *)
Lemma public_url_ignores_trailing_slashes_witness :
  (truthy (S3_PUBLIC_URL configs) = true
   /\ S3_PUBLIC_URL configs_slashes = S3_PUBLIC_URL configs ++ replicate 2 SLASH)
  /\ get_public_url configs_slashes (key_of healthy vacancy)
       = get_public_url configs (key_of healthy vacancy).
Proof.
  assert (H : truthy (S3_PUBLIC_URL configs) = true
              /\ S3_PUBLIC_URL configs_slashes
                 = S3_PUBLIC_URL configs ++ replicate 2 SLASH)
    by (split; vm_compute; reflexivity).
  split; [exact H|].
  exact (public_url_ignores_trailing_slashes configs configs_slashes 2
           (key_of healthy vacancy) (or_introl H)).
Defined.

(** The first start of the service, and the second. *)
Lemma ensure_bucket_is_idempotent_witness :
  Storage.ensure_bucket store_admin configs no_buckets
    = (Ok tt, bucket_ready,
       [Storage.HeadBucket (S3_BUCKET_NAME configs) (Some Storage.not_found);
        Storage.CreateBucket (S3_BUCKET_NAME configs) None;
        Storage.PutBucketPolicy (S3_BUCKET_NAME configs)
          (Storage.public_read_policy (S3_BUCKET_NAME configs)) None])
  /\ is_Some (bucket_ready !! S3_BUCKET_NAME configs)
  /\ (Storage.head_bucket_fault store_admin (S3_BUCKET_NAME configs) = None ->
      Storage.ensure_bucket store_admin configs bucket_ready
        = (Ok tt, bucket_ready,
           [Storage.HeadBucket (S3_BUCKET_NAME configs) None])).
Proof.
  assert (H : Storage.ensure_bucket store_admin configs no_buckets
              = (Ok tt, bucket_ready,
                 [Storage.HeadBucket (S3_BUCKET_NAME configs) (Some Storage.not_found);
                  Storage.CreateBucket (S3_BUCKET_NAME configs) None;
                  Storage.PutBucketPolicy (S3_BUCKET_NAME configs)
                    (Storage.public_read_policy (S3_BUCKET_NAME configs)) None]))
    by (vm_compute; reflexivity).
  split; [exact H|].
  destruct (ensure_bucket_is_idempotent configs store_admin no_buckets bucket_ready
              _ H) as (Hin & _ & _ & Hagain).
  split; [exact Hin | exact (Hagain store_admin)].
Defined.

(** A store that refuses the policy. *)
Lemma failed_policy_is_never_set_witness :
  no_buckets !! S3_BUCKET_NAME configs = None
  /\ Storage.head_bucket policy_denied (S3_BUCKET_NAME configs) no_buckets
       = Some (Storage.ClientError head_not_found)
  /\ Storage.create_bucket_fault policy_denied (S3_BUCKET_NAME configs) = None
  /\ Storage.put_bucket_policy_fault policy_denied (S3_BUCKET_NAME configs)
       (Storage.public_read_policy (S3_BUCKET_NAME configs)) = Some access_denied
  /\ (Storage.head_bucket_fault store_admin (S3_BUCKET_NAME configs) = None ->
      Storage.startup_event store_admin configs
        (<[S3_BUCKET_NAME configs := None]> no_buckets)
        = (Ok tt, <[S3_BUCKET_NAME configs := None]> no_buckets,
           [Storage.HeadBucket (S3_BUCKET_NAME configs) None])).
Proof.
  assert (H1 : no_buckets !! S3_BUCKET_NAME configs = None)
    by (vm_compute; reflexivity).
  assert (H2 : Storage.head_bucket policy_denied (S3_BUCKET_NAME configs) no_buckets
               = Some (Storage.ClientError head_not_found))
    by (vm_compute; reflexivity).
  split; [exact H1|]. split; [exact H2|]. split; [reflexivity|].
  split; [reflexivity|].
  destruct (failed_policy_is_never_set configs policy_denied no_buckets
              head_not_found access_denied H1 H2 eq_refl eq_refl) as (_ & Hlater).
  exact (Hlater store_admin).
Defined.

(** The configured bucket name. *)
Lemma policy_names_the_bucket_witness :
  Forall (fun c => Chars.json_plain c = true) (S3_BUCKET_NAME configs)
  /\ Storage.public_read_policy (S3_BUCKET_NAME configs)
       = (Storage.policy_before ++ Storage.QUOTE :: u "arn:aws:s3:::")
           ++ S3_BUCKET_NAME configs
           ++ (u "/*" ++ [Storage.QUOTE] ++ Storage.policy_after).
Proof.
  assert (H : Forall (fun c => Chars.json_plain c = true) (S3_BUCKET_NAME configs))
    by (vm_compute; repeat constructor).
  split; [exact H|].
  destruct (policy_names_the_bucket (S3_BUCKET_NAME configs) H) as (_ & Hp).
  exact Hp.
Defined.


End MoreScenarioFacts.
